(** * RustSSH session orchestrator: a shallow embedding of [src/js/app.js]

    The development follows the JavaScript sources function by function:
    the [App] controller (connect, addSession, loadInitialFiles,
    switchSession, closeSession, handleDisconnect, updateTabsUI, setStatus
    and the three push-event listeners), the [FileManager] snapshot
    functions (getState, setState, loadDirectory, clear) and the
    [TerminalManager] wrapper (init, writeData, fit, destroy).

    Conventions of the embedding.
    - The mutable world is one record, [App.t]; JavaScript code is a
      computation [Js A] that threads it and completes either by returning
      a value or by throwing.
    - An object of the registry is reached through its index in
      [this.sessions]; mutating the object is [alter] at that index, so an
      alias (two variables bound to the same session) sees the update.
    - Objects created with [new] or [createElement] get a fresh handle; the
      calls made on xterm.js objects are recorded, per handle, in the
      [xterm] log, bridge requests in the [backend] log and console output
      in the [console] log.
    - Every [await] runs to completion: the continuation runs right after
      the suspension with the backend's answer, no other handler in between.
      The reply of the backend to its n-th request is given by a [Bridge].
    - [setTimeout] callbacks and the xterm input/resize callbacks are not
      part of the model.

    A second part follows the rest of [FileManager] (navigateUp,
    createFolder, handleContextAction, handleDrop, the permissions dialog,
    editFile and the helpers formatPermissions, getFileIconClass and
    escapeHtml) and the editor settings of [App] (saveSettings,
    getEditorConfig). The functions that send other commands, open dialog
    boxes or use [localStorage] are computations [Ui A] on a larger record,
    [World.t], of which [App.t] is one field; the answers of the backend
    and of the user are given by an [Env]. *)

From Stdlib Require Import ZArith Lia Ascii.
From stdpp Require Import base strings list option gmap.

Local Open Scope string_scope.
Local Open Scope list_scope.
Local Open Scope Z_scope.
Local Open Scope nat_scope.

(** ** Values *)

(** Handle of an object allocated by [new] or [document.createElement]. *)
Definition Handle := nat.

(** JavaScript truthiness of a value that is [null] or a string. *)
Definition truthy (v : option string) : bool :=
  match v with
  | Some s => negb (String.eqb s "")
  | None => false
  end.

(** [s || d] for strings. *)
Definition or_else (s d : string) : string :=
  if String.eqb s "" then d else s.

(** [new Uint8Array(data)]: every number is reduced modulo 256. *)
Definition Uint8Array (data : list Z) : list Z :=
  (fun x => (x mod 256)%Z) <$> data.

(** An entry of a remote directory listing, as answered by [sftp_list]. *)
Module RemoteFile.
Record t := mk { path : string; name : string; is_dir : bool }.
End RemoteFile.

(** A saved connection profile ([connectionManager.connections]). *)
Module Connection.
Record t := mk { id : string; name : string; host : string }.
End Connection.

(** The object stored in [session.fileManagerState]. [historyIndex] is
    [None] when the property is missing, as in the object literal of
    [addSession]. *)
Module Snapshot.
Record t := mk {
  path : string;
  history : list string;
  historyIndex : option Z }.
End Snapshot.

(** [FileManager]: the navigation fields and the loaded listing. *)
Module FileManager.
Record t := mk {
  currentPath : string;
  history : list string;
  historyIndex : Z;
  files : list RemoteFile.t }.

(** The constructor. *)
Definition new : t :=
  {| currentPath := "/"; history := []; historyIndex := (-1)%Z; files := [] |}.
End FileManager.

(** [TerminalManager]: the four fields are handles or [null]. *)
Module TerminalManager.
Record t := mk {
  terminal : option Handle;
  fitAddon : option Handle;
  sessionId : option string;
  resizeObserver : option Handle }.

(** The constructor. *)
Definition new : t :=
  {| terminal := None; fitAddon := None; sessionId := None;
     resizeObserver := None |}.
End TerminalManager.

(** The [div] created for a session by [addSession]. *)
Module Container.
Record t := mk {
  el : Handle;
  className : string;
  id : string;
  display : string }.

Definition with_display (d : string) (c : t) : t :=
  {| el := el c; className := className c; id := id c; display := d |}.
End Container.

(** A session object of [this.sessions]. *)
Module Session.
Record t := mk {
  id : string;
  name : string;
  terminalManager : TerminalManager.t;
  container : Container.t;
  fileManagerState : Snapshot.t }.

Definition with_terminalManager (tm : TerminalManager.t) (s : t) : t :=
  {| id := id s; name := name s; terminalManager := tm;
     container := container s; fileManagerState := fileManagerState s |}.

Definition with_container (c : Container.t) (s : t) : t :=
  {| id := id s; name := name s; terminalManager := terminalManager s;
     container := c; fileManagerState := fileManagerState s |}.

Definition with_fileManagerState (f : Snapshot.t) (s : t) : t :=
  {| id := id s; name := name s; terminalManager := terminalManager s;
     container := container s; fileManagerState := f |}.

(** [session.container.style.display = d] *)
Definition set_display (d : string) (s : t) : t :=
  with_container (Container.with_display d (container s)) s.

(** [session.fileManagerState.path = p] *)
Definition set_path (p : string) (s : t) : t :=
  with_fileManagerState
    {| Snapshot.path := p;
       Snapshot.history := Snapshot.history (fileManagerState s);
       Snapshot.historyIndex := Snapshot.historyIndex (fileManagerState s) |} s.
End Session.

(** ** The document

    [index.html] is not among the sources. The elements that the code looks
    up behind an [if] are optional here; [#status-dot], [#status-text]
    (style 1 of [setStatus]), [#connection-modal], [#sftp-path-display] and
    [#file-list] are used unguarded by the code and are taken to exist. *)

(** A tab built by [updateTabsUI]. *)
Module Tab.
Record t := mk { title : string; active : bool; target : string }.
End Tab.

(** What [#file-list] shows. *)
Inductive FileList :=
| FileListMarkup (html : string)
| FileListLoading
| FileListEmpty
| FileListItems (files : list RemoteFile.t)
| FileListError (e : string)
| FileListNotConnected.

(** [#terminals-container]: its style and the session containers mounted
    in it. *)
Module TerminalsContainer.
Record t := mk { display : string; children : list Handle }.
End TerminalsContainer.

Module Document.
Record t := mk {
  status_dot : string;
  status_text : string;
  connection_modal : string;
  tabs_container : option (list Tab.t);
  terminal_placeholder : option string;
  terminals_container : option TerminalsContainer.t;
  btn_disconnect : option bool;
  sftp_path_display : string;
  file_list : FileList }.

Definition with_status (dot text : string) (d : t) : t :=
  {| status_dot := dot; status_text := text;
     connection_modal := connection_modal d;
     tabs_container := tabs_container d;
     terminal_placeholder := terminal_placeholder d;
     terminals_container := terminals_container d;
     btn_disconnect := btn_disconnect d;
     sftp_path_display := sftp_path_display d; file_list := file_list d |}.

Definition with_connection_modal (v : string) (d : t) : t :=
  {| status_dot := status_dot d; status_text := status_text d;
     connection_modal := v;
     tabs_container := tabs_container d;
     terminal_placeholder := terminal_placeholder d;
     terminals_container := terminals_container d;
     btn_disconnect := btn_disconnect d;
     sftp_path_display := sftp_path_display d; file_list := file_list d |}.

Definition with_tabs_container (v : option (list Tab.t)) (d : t) : t :=
  {| status_dot := status_dot d; status_text := status_text d;
     connection_modal := connection_modal d;
     tabs_container := v;
     terminal_placeholder := terminal_placeholder d;
     terminals_container := terminals_container d;
     btn_disconnect := btn_disconnect d;
     sftp_path_display := sftp_path_display d; file_list := file_list d |}.

Definition with_terminal_placeholder (v : option string) (d : t) : t :=
  {| status_dot := status_dot d; status_text := status_text d;
     connection_modal := connection_modal d;
     tabs_container := tabs_container d;
     terminal_placeholder := v;
     terminals_container := terminals_container d;
     btn_disconnect := btn_disconnect d;
     sftp_path_display := sftp_path_display d; file_list := file_list d |}.

Definition with_terminals_container (v : option TerminalsContainer.t) (d : t) : t :=
  {| status_dot := status_dot d; status_text := status_text d;
     connection_modal := connection_modal d;
     tabs_container := tabs_container d;
     terminal_placeholder := terminal_placeholder d;
     terminals_container := v;
     btn_disconnect := btn_disconnect d;
     sftp_path_display := sftp_path_display d; file_list := file_list d |}.

Definition with_btn_disconnect (v : option bool) (d : t) : t :=
  {| status_dot := status_dot d; status_text := status_text d;
     connection_modal := connection_modal d;
     tabs_container := tabs_container d;
     terminal_placeholder := terminal_placeholder d;
     terminals_container := terminals_container d;
     btn_disconnect := v;
     sftp_path_display := sftp_path_display d; file_list := file_list d |}.

Definition with_sftp_path_display (v : string) (d : t) : t :=
  {| status_dot := status_dot d; status_text := status_text d;
     connection_modal := connection_modal d;
     tabs_container := tabs_container d;
     terminal_placeholder := terminal_placeholder d;
     terminals_container := terminals_container d;
     btn_disconnect := btn_disconnect d;
     sftp_path_display := v; file_list := file_list d |}.

Definition with_file_list (v : FileList) (d : t) : t :=
  {| status_dot := status_dot d; status_text := status_text d;
     connection_modal := connection_modal d;
     tabs_container := tabs_container d;
     terminal_placeholder := terminal_placeholder d;
     terminals_container := terminals_container d;
     btn_disconnect := btn_disconnect d;
     sftp_path_display := sftp_path_display d; file_list := v |}.
End Document.

(** ** Collaborators: the backend bridge, xterm.js and the console *)

(** A request sent with [invoke]. [sftp_list] carries
    [this.app.currentSessionId], which is [null] or a string. *)
Inductive Request :=
| ssh_connect (connectionId : string)
| ssh_disconnect (sessionId : string)
| sftp_get_home (sessionId : string)
| sftp_list (sessionId : option string) (path : string).

(** The settlement of the promise returned by [invoke]. *)
Inductive Reply (A : Type) :=
| Resolved (a : A)
| Rejected (e : string).
Arguments Resolved {A} a.
Arguments Rejected {A} e.

(** The backend, seen from the webview: the answer to the n-th request. *)
Module Bridge.
Record t := mk {
  connect_reply : nat -> string -> Reply string;
  disconnect_reply : nat -> string -> Reply unit;
  get_home_reply : nat -> string -> Reply string;
  list_reply : nat -> option string -> string -> Reply (list RemoteFile.t) }.
End Bridge.

(** The payload of a push event. *)
Module Payload.
Record t := mk { sessionId : string; data : list Z; error : string }.
End Payload.

(** A call on an object of the xterm.js library or on a ResizeObserver. *)
Inductive XtermCall :=
| TermOpen (terminal container : Handle)
| TermWrite (terminal : Handle) (data : list Z)
| TermFocus (terminal : Handle)
| TermDispose (terminal : Handle)
| FitAddonFit (fitAddon : Handle)
| ObserverObserve (observer container : Handle)
| ObserverDisconnect (observer : Handle).

Inductive ConsoleEntry :=
| console_error (label e : string)
| console_warn (label e : string).

(** ** The application state *)

Module App.
Record t := mk {
  sessions : list Session.t;
  currentSessionId : option string;
  currentConnectionId : option string;
  connections : list Connection.t;
  fileManager : FileManager.t;
  document : Document.t;
  backend : list Request;
  console : list ConsoleEntry;
  xterm : list XtermCall;
  allocated : nat }.

Definition with_sessions (v : list Session.t) (a : t) : t :=
  {| sessions := v; currentSessionId := currentSessionId a;
     currentConnectionId := currentConnectionId a;
     connections := connections a; fileManager := fileManager a;
     document := document a; backend := backend a; console := console a;
     xterm := xterm a; allocated := allocated a |}.

Definition with_currentSessionId (v : option string) (a : t) : t :=
  {| sessions := sessions a; currentSessionId := v;
     currentConnectionId := currentConnectionId a;
     connections := connections a; fileManager := fileManager a;
     document := document a; backend := backend a; console := console a;
     xterm := xterm a; allocated := allocated a |}.

Definition with_currentConnectionId (v : option string) (a : t) : t :=
  {| sessions := sessions a; currentSessionId := currentSessionId a;
     currentConnectionId := v;
     connections := connections a; fileManager := fileManager a;
     document := document a; backend := backend a; console := console a;
     xterm := xterm a; allocated := allocated a |}.

Definition with_fileManager (v : FileManager.t) (a : t) : t :=
  {| sessions := sessions a; currentSessionId := currentSessionId a;
     currentConnectionId := currentConnectionId a;
     connections := connections a; fileManager := v;
     document := document a; backend := backend a; console := console a;
     xterm := xterm a; allocated := allocated a |}.

Definition with_document (v : Document.t) (a : t) : t :=
  {| sessions := sessions a; currentSessionId := currentSessionId a;
     currentConnectionId := currentConnectionId a;
     connections := connections a; fileManager := fileManager a;
     document := v; backend := backend a; console := console a;
     xterm := xterm a; allocated := allocated a |}.

Definition with_backend (v : list Request) (a : t) : t :=
  {| sessions := sessions a; currentSessionId := currentSessionId a;
     currentConnectionId := currentConnectionId a;
     connections := connections a; fileManager := fileManager a;
     document := document a; backend := v; console := console a;
     xterm := xterm a; allocated := allocated a |}.

Definition with_console (v : list ConsoleEntry) (a : t) : t :=
  {| sessions := sessions a; currentSessionId := currentSessionId a;
     currentConnectionId := currentConnectionId a;
     connections := connections a; fileManager := fileManager a;
     document := document a; backend := backend a; console := v;
     xterm := xterm a; allocated := allocated a |}.

Definition with_xterm (v : list XtermCall) (a : t) : t :=
  {| sessions := sessions a; currentSessionId := currentSessionId a;
     currentConnectionId := currentConnectionId a;
     connections := connections a; fileManager := fileManager a;
     document := document a; backend := backend a; console := console a;
     xterm := v; allocated := allocated a |}.

Definition with_allocated (v : nat) (a : t) : t :=
  {| sessions := sessions a; currentSessionId := currentSessionId a;
     currentConnectionId := currentConnectionId a;
     connections := connections a; fileManager := fileManager a;
     document := document a; backend := backend a; console := console a;
     xterm := xterm a; allocated := v |}.

(** The state built by the [App] constructor over a page [doc], with the
    saved connections [conns] loaded by [init]. *)
Definition new (doc : Document.t) (conns : list Connection.t) : t :=
  {| sessions := []; currentSessionId := None; currentConnectionId := None;
     connections := conns; fileManager := FileManager.new; document := doc;
     backend := []; console := []; xterm := []; allocated := 0 |}.
End App.

(** ** Computations *)

(** How a call completes. *)
Inductive Completion (A : Type) :=
| Returned (a : A)
| Thrown (e : string).
Arguments Returned {A} a.
Arguments Thrown {A} e.

Definition Js (A : Type) : Type := App.t -> Completion A * App.t.

Definition ret {A} (a : A) : Js A := fun st => (Returned a, st).

Definition bind {A B} (m : Js A) (k : A -> Js B) : Js B :=
  fun st =>
    match m st with
    | (Returned a, st') => k a st'
    | (Thrown e, st') => (Thrown e, st')
    end.

Definition throw {A} (e : string) : Js A := fun st => (Thrown e, st).

(** [try { m } catch (e) { h e }] *)
Definition try_catch {A} (m : Js A) (h : string -> Js A) : Js A :=
  fun st =>
    match m st with
    | (Returned a, st') => (Returned a, st')
    | (Thrown e, st') => h e st'
    end.

(** Read a value off the state. *)
Definition gets {A} (f : App.t -> A) : Js A := fun st => (Returned (f st), st).

(** Update the state. *)
Definition modify (f : App.t -> App.t) : Js unit := fun st => (Returned tt, f st).

(** A call of an [async] function that is not awaited: the caller goes on
    with a promise it never looks at, so a rejection is not seen by it. *)
Definition detached {A} (m : Js A) : Js unit :=
  fun st => (Returned tt, snd (m st)).

(** The state and the completion of a computation. *)
Definition exec {A} (m : Js A) (st : App.t) : App.t := snd (m st).
Definition completion {A} (m : Js A) (st : App.t) : Completion A := fst (m st).

Notation "'let*' x ':=' m 'in' k" := (bind m (fun x => k))
  (at level 10, x name, m at level 100, k at level 200).
Notation "m '>>' k" := (bind m (fun _ => k))
  (at level 100, k at level 200, right associativity).

(** ** Primitive effects *)

(** [await invoke(cmd, args)]: the request is recorded, and the promise
    settles with the bridge's answer to this request. A rejected promise
    throws at the [await]. *)
Definition invoke {A} (req : Request) (reply : nat -> Reply A) : Js A :=
  fun st =>
    let n := length (App.backend st) in
    let st' := App.with_backend (App.backend st ++ [req]) st in
    match reply n with
    | Resolved a => (Returned a, st')
    | Rejected e => (Thrown e, st')
    end.

Definition log (entry : ConsoleEntry) : Js unit :=
  modify (fun st => App.with_console (App.console st ++ [entry]) st).

Definition call (c : XtermCall) : Js unit :=
  modify (fun st => App.with_xterm (App.xterm st ++ [c]) st).

(** A fresh object. *)
Definition alloc : Js Handle :=
  fun st => (Returned (App.allocated st),
             App.with_allocated (S (App.allocated st)) st).

Definition on_document (f : Document.t -> Document.t) : Js unit :=
  modify (fun st => App.with_document (f (App.document st)) st).

Definition on_fileManager (f : FileManager.t -> FileManager.t) : Js unit :=
  modify (fun st => App.with_fileManager (f (App.fileManager st)) st).

(** Mutation of the session object at index [i] of [this.sessions]. *)
Definition on_session (i : nat) (f : Session.t -> Session.t) : Js unit :=
  modify (fun st => App.with_sessions (alter f i (App.sessions st)) st).

(** Reading through a reference to the session at index [i]; reading a
    property of [undefined] is a TypeError. *)
Definition deref (i : nat) : Js Session.t :=
  fun st =>
    match App.sessions st !! i with
    | Some s => (Returned s, st)
    | None => (Thrown "TypeError", st)
    end.

(** [this.sessions.findIndex(s => s.id === sessionId)], [None] for -1; the
    same index stands for the object returned by [this.sessions.find]. *)
Definition findIndex (sessionId : string) (l : list Session.t) : option nat :=
  fst <$> list_find (fun s => Session.id s = sessionId) l.

(** [this.sessions.find(s => s.id === v)] for [v] that is [null] or a
    string: no session id is strictly equal to [null]. *)
Definition findNullable (v : option string) (l : list Session.t) : option nat :=
  match v with
  | Some sessionId => findIndex sessionId l
  | None => None
  end.

(** [Math.max(0, sessionIndex - 1)] *)
Definition previous (sessionIndex : nat) : nat :=
  Z.to_nat (Z.max 0 (Z.of_nat sessionIndex - 1)).

(** ** TerminalManager *)

(** [init(sessionId, container)], for the manager of the session at index
    [i]. The delayed first fit ([setTimeout]) and the input and resize
    callbacks are left out. *)
Definition TerminalManager_init (sessionId : string) (container : Handle) : Js TerminalManager.t :=
  let* terminal := alloc in
  let* fitAddon := alloc in
  call (TermOpen terminal container) >>
  let* observer := alloc in
  call (ObserverObserve observer container) >>
  call (TermFocus terminal) >>
  ret {| TerminalManager.terminal := Some terminal;
         TerminalManager.fitAddon := Some fitAddon;
         TerminalManager.sessionId := Some sessionId;
         TerminalManager.resizeObserver := Some observer |}.

(** [writeData(data)] *)
Definition writeData (tm : TerminalManager.t) (data : list Z) : Js unit :=
  match TerminalManager.terminal tm with
  | Some terminal => call (TermWrite terminal data)
  | None => ret tt
  end.

(** [fit()]; an exception of [fitAddon.fit()] is caught and dropped. *)
Definition fit (tm : TerminalManager.t) : Js unit :=
  match TerminalManager.fitAddon tm with
  | Some fitAddon => try_catch (call (FitAddonFit fitAddon)) (fun _ => ret tt)
  | None => ret tt
  end.

(** [destroy()] on the manager of the session at index [i]. *)
Definition destroy (i : nat) : Js unit :=
  let* session := deref i in
  let tm := Session.terminalManager session in
  match TerminalManager.resizeObserver tm with
  | Some observer => call (ObserverDisconnect observer)
  | None => ret tt
  end >>
  match TerminalManager.terminal tm with
  | Some terminal => call (TermDispose terminal)
  | None => ret tt
  end >>
  on_session i (Session.with_terminalManager TerminalManager.new).

(** ** FileManager *)

(** [getState()] *)
Definition getState (fm : FileManager.t) : Snapshot.t :=
  {| Snapshot.path := FileManager.currentPath fm;
     Snapshot.history := FileManager.history fm;
     Snapshot.historyIndex := Some (FileManager.historyIndex fm) |}.

(** [render()] *)
Definition render : Js unit :=
  let* files := gets (fun st => FileManager.files (App.fileManager st)) in
  match files with
  | [] => on_document (Document.with_file_list FileListEmpty)
  | _ => on_document (Document.with_file_list (FileListItems files))
  end.

(** [clear()] *)
Definition clear : Js unit :=
  on_fileManager (fun fm =>
    {| FileManager.currentPath := "/";
       FileManager.history := FileManager.history fm;
       FileManager.historyIndex := FileManager.historyIndex fm;
       FileManager.files := [] |}) >>
  on_document (Document.with_sftp_path_display "/") >>
  on_document (Document.with_file_list FileListNotConnected).

(** [this.connectionManager.connections.find(c => c.id === id)] *)
Definition find_connection (id : string) (st : App.t) : option Connection.t :=
  snd <$> list_find (fun c => Connection.id c = id) (App.connections st).

Section Backend.

Variable bridge : Bridge.t.

(** [loadDirectory(path)] *)
Definition loadDirectory (path : string) : Js unit :=
  let* current := gets App.currentSessionId in
  if negb (truthy current) then ret tt else
  on_document (Document.with_file_list FileListLoading) >>
  try_catch
    (let* sessionId := gets App.currentSessionId in
     let* files := invoke (sftp_list sessionId path)
                     (fun n => Bridge.list_reply bridge n sessionId path) in
     on_fileManager (fun fm =>
       {| FileManager.currentPath := path;
          FileManager.history := FileManager.history fm;
          FileManager.historyIndex := FileManager.historyIndex fm;
          FileManager.files := files |}) >>
     on_document (Document.with_sftp_path_display path) >>
     render)
    (fun e => on_document (Document.with_file_list (FileListError e))).

(** [setState(state, sessionId)]. [state] is always an object here, so the
    [if (!state) return] of the source never fires, and [state.history] is
    always an array. *)
Definition setState (state : Snapshot.t) (sessionId : string) : Js unit :=
  on_fileManager (fun fm =>
    {| FileManager.currentPath := or_else (Snapshot.path state) "/";
       FileManager.history := Snapshot.history state;
       FileManager.historyIndex :=
         match Snapshot.historyIndex state with
         | Some n => n
         | None => (-1)%Z
         end;
       FileManager.files := FileManager.files fm |}) >>
  let* current := gets App.currentSessionId in
  if decide (current = Some sessionId) then
    let* path := gets (fun st => FileManager.currentPath (App.fileManager st)) in
    loadDirectory path
  else ret tt.

(** ** App *)

(** [setStatus(status, message)], style 1. *)
Definition setStatus (status message : string) : Js unit :=
  on_document (Document.with_status ("status-dot " +:+ status) message).

(** [connectionManager.hideModal()] *)
Definition hideModal : Js unit :=
  on_document (Document.with_connection_modal "none").

(** [updateTabsUI()] *)
Definition updateTabsUI : Js unit :=
  let* container := gets (fun st => Document.tabs_container (App.document st)) in
  match container with
  | None => ret tt
  | Some _ =>
    let* sessions := gets App.sessions in
    let* current := gets App.currentSessionId in
    on_document (Document.with_tabs_container (Some (
      (fun session =>
         {| Tab.title := Session.name session;
            Tab.active := bool_decide (Some (Session.id session) = current);
            Tab.target := Session.id session |}) <$> sessions))) >>
    if Nat.eqb (length sessions) 0 then
      on_document (fun d => Document.with_terminal_placeholder
        ((fun _ => "flex") <$> Document.terminal_placeholder d) d) >>
      on_document (fun d => Document.with_terminals_container
        ((fun c => {| TerminalsContainer.display := "none";
                      TerminalsContainer.children := TerminalsContainer.children c |})
           <$> Document.terminals_container d) d)
    else
      on_document (fun d => Document.with_terminal_placeholder
        ((fun _ => "none") <$> Document.terminal_placeholder d) d) >>
      on_document (fun d => Document.with_terminals_container
        ((fun c => {| TerminalsContainer.display := "block";
                      TerminalsContainer.children := TerminalsContainer.children c |})
           <$> Document.terminals_container d) d)
  end.

(** [switchSession(sessionId)] *)
Definition switchSession (sessionId : string) : Js unit :=
  let* oldSession := gets (fun st => findNullable (App.currentSessionId st) (App.sessions st)) in
  let* newSession := gets (fun st => findIndex sessionId (App.sessions st)) in
  match newSession with
  | None => ret tt
  | Some new =>
    match oldSession with
    | Some old =>
      on_session old (Session.set_display "none") >>
      let* state := gets (fun st => getState (App.fileManager st)) in
      on_session old (Session.with_fileManagerState state)
    | None => ret tt
    end >>
    modify (App.with_currentSessionId (Some sessionId)) >>
    on_session new (Session.set_display "block") >>
    let* session := deref new in
    detached (setState (Session.fileManagerState session) sessionId) >>
    setStatus "connected" ("Connected to " +:+ Session.name session) >>
    updateTabsUI >>
    match TerminalManager.terminal (Session.terminalManager session) with
    | Some terminal =>
      call (TermFocus terminal) >>
      fit (Session.terminalManager session)
    | None => ret tt
    end
  end.

(** [handleDisconnect()] *)
Definition handleDisconnect : Js unit :=
  modify (App.with_currentSessionId None) >>
  setStatus "disconnected" "Disconnected" >>
  on_document (fun d => Document.with_terminal_placeholder
    ((fun _ => "flex") <$> Document.terminal_placeholder d) d) >>
  on_document (fun d => Document.with_btn_disconnect
    ((fun _ => true) <$> Document.btn_disconnect d) d) >>
  clear.

(** [session.container.remove()] for the session at index [i]. *)
Definition container_remove (i : nat) : Js unit :=
  let* session := deref i in
  on_document (fun d => Document.with_terminals_container
    ((fun c => {| TerminalsContainer.display := TerminalsContainer.display c;
                  TerminalsContainer.children :=
                    filter (fun h => h <> Container.el (Session.container session))
                           (TerminalsContainer.children c) |})
       <$> Document.terminals_container d) d).

(** [closeSession(sessionId)] *)
Definition closeSession (sessionId : string) : Js unit :=
  let* sessionIndex := gets (fun st => findIndex sessionId (App.sessions st)) in
  match sessionIndex with
  | None => ret tt
  | Some i =>
    try_catch
      (invoke (ssh_disconnect sessionId)
              (fun n => Bridge.disconnect_reply bridge n sessionId))
      (fun e => log (console_error "Disconnect error:" e)) >>
    destroy i >>
    container_remove i >>
    modify (fun st => App.with_sessions (delete i (App.sessions st)) st) >>
    let* sessions := gets App.sessions in
    if Nat.ltb 0 (length sessions) then
      let* nextSession := deref (previous i) in
      switchSession (Session.id nextSession)
    else
      modify (App.with_currentSessionId None) >>
      handleDisconnect >>
      updateTabsUI
  end.

(** [loadInitialFiles(sessionId)] *)
Definition loadInitialFiles (sessionId : string) : Js unit :=
  try_catch
    (let* homeDir := invoke (sftp_get_home sessionId)
                       (fun n => Bridge.get_home_reply bridge n sessionId) in
     let* current := gets App.currentSessionId in
     if decide (current = Some sessionId) then
       loadDirectory homeDir
     else
       let* session := gets (fun st => findIndex sessionId (App.sessions st)) in
       match session with
       | Some i => on_session i (Session.set_path homeDir)
       | None => ret tt
       end)
    (fun e =>
       log (console_warn "Failed to get home directory" e) >>
       let* current := gets App.currentSessionId in
       if decide (current = Some sessionId) then loadDirectory "/" else ret tt).

(** [addSession(sessionId, name)] *)
Definition addSession (sessionId name : string) : Js unit :=
  let* container := alloc in
  on_document (fun d => Document.with_terminals_container
    ((fun c => {| TerminalsContainer.display := TerminalsContainer.display c;
                  TerminalsContainer.children :=
                    TerminalsContainer.children c ++ [container] |})
       <$> Document.terminals_container d) d) >>
  let* termManager := TerminalManager_init sessionId container in
  let session :=
    {| Session.id := sessionId;
       Session.name := name;
       Session.terminalManager := termManager;
       Session.container :=
         {| Container.el := container;
            Container.className := "terminal-instance";
            Container.id := "term-" +:+ sessionId;
            Container.display := "" |};
       Session.fileManagerState :=
         {| Snapshot.path := "/"; Snapshot.history := [];
            Snapshot.historyIndex := None |} |} in
  modify (fun st => App.with_sessions (App.sessions st ++ [session]) st) >>
  switchSession sessionId >>
  updateTabsUI >>
  on_document (fun d => Document.with_btn_disconnect
    ((fun _ => false) <$> Document.btn_disconnect d) d) >>
  detached (loadInitialFiles sessionId).

(** [connect(id)] *)
Definition connect (id : string) : Js unit :=
  let* connection := gets (find_connection id) in
  match connection with
  | None => ret tt
  | Some connection =>
    modify (App.with_currentConnectionId (Some id)) >>
    setStatus "connecting" ("Connecting to " +:+ Connection.host connection +:+ "...") >>
    hideModal >>
    try_catch
      (let* sessionId := invoke (ssh_connect (Connection.id connection))
                           (fun n => Bridge.connect_reply bridge n (Connection.id connection)) in
       setStatus "connected" ("Connected to " +:+ Connection.host connection) >>
       addSession sessionId
         (or_else (Connection.name connection) (Connection.host connection)))
      (fun e =>
         setStatus "error" ("Connection failed: " +:+ e) >>
         log (console_error "" e))
  end.

(** [disconnect()] *)
Definition disconnect : Js unit :=
  let* current := gets App.currentSessionId in
  if negb (truthy current) then ret tt else
  match current with
  | Some sessionId => detached (closeSession sessionId)
  | None => ret tt
  end.

(** ** The event router: the listeners registered by [init] *)

(** [listen('ssh-data', ...)] *)
Definition on_ssh_data (payload : Payload.t) : Js unit :=
  let* session := gets (fun st => findIndex (Payload.sessionId payload) (App.sessions st)) in
  match session with
  | Some i =>
    let* session := deref i in
    writeData (Session.terminalManager session) (Uint8Array (Payload.data payload))
  | None => ret tt
  end.

(** [listen('ssh-error', ...)] *)
Definition on_ssh_error (payload : Payload.t) : Js unit :=
  let* current := gets App.currentSessionId in
  if decide (Some (Payload.sessionId payload) = current) then
    setStatus "error" ("Error: " +:+ Payload.error payload)
  else ret tt.

(** [listen('ssh-close', ...)] *)
Definition on_ssh_close (payload : Payload.t) : Js unit :=
  detached (closeSession (Payload.sessionId payload)).

(** The click handlers installed on a tab by [updateTabsUI]. *)
Definition on_tab_click (tab : Tab.t) : Js unit :=
  switchSession (Tab.target tab).

Definition on_tab_close_click (tab : Tab.t) : Js unit :=
  detached (closeSession (Tab.target tab)).

End Backend.

(** * Specification

    The definitions below are used to state the properties of the code:
    observations of the state, the states and computations that the
    functions above go through (each proved equal to what the function
    does, see [switchSession_found], [closeSession_found], [addSession_run]
    and the lemmas on [connect]), the consistency of the registry, the runs
    of the application and some sample runs. *)

(** ** Observations of the state *)

(** The ids of the registry, in tab order. *)
Definition ids (l : list Session.t) : list string := Session.id <$> l.

(** The style of the placeholder, when the page has one. *)
Definition placeholder (st : App.t) : option string :=
  Document.terminal_placeholder (App.document st).

(** Whether the page has a placeholder element, whatever its style. *)
Definition placeholder_kind (st : App.t) : option unit :=
  (fun _ => tt) <$> Document.terminal_placeholder (App.document st).





(** ** Properties of computations *)

(** A computation that always returns. *)
Definition safe (m : Js unit) : Prop :=
  forall st, m st = (Returned tt, exec m st).

(** [keeps f m]: the observation [f] of the state is the same before and
    after [m], however [m] completes. *)
Definition keeps {A X} (f : App.t -> X) (m : Js A) : Prop :=
  forall st, f (exec m st) = f st.

(** ** The steps of [switchSession] *)

(** The registry after the first half of [switchSession]: the session that
    was current is hidden and gets the live snapshot, the target is shown. *)
Definition deactivate (st : App.t) (l : list Session.t) : list Session.t :=
  match findNullable (App.currentSessionId st) l with
  | Some old =>
    alter (Session.with_fileManagerState (getState (App.fileManager st))) old
      (alter (Session.set_display "none") old l)
  | None => l
  end.

(** The registry when [switchSession] has shown the target, at index [new]. *)
Definition switched (new : nat) (st : App.t) : list Session.t :=
  alter (Session.set_display "block") new (deactivate st (App.sessions st)).

(** The second half of [switchSession], from the restore of the snapshot on. *)
Definition activate (b : Bridge.t) (sessionId : string) (session : Session.t) : Js unit :=
  detached (setState b (Session.fileManagerState session) sessionId) >>
  setStatus "connected" ("Connected to " +:+ Session.name session) >>
  updateTabsUI >>
  match TerminalManager.terminal (Session.terminalManager session) with
  | Some terminal =>
    call (TermFocus terminal) >>
    fit (Session.terminalManager session)
  | None => ret tt
  end.

(** The requests [loadDirectory path] sends for the current session. *)
Definition fetch (current : option string) (path : string) : list Request :=
  if truthy current then [sftp_list current path] else [].

(** [state.path || '/'] *)
Definition restored (state : Snapshot.t) : string :=
  or_else (Snapshot.path state) "/".

(** The calls [switchSession] makes on the terminal of [session]. *)
Definition focus_calls (session : Session.t) : list XtermCall :=
  match TerminalManager.terminal (Session.terminalManager session) with
  | Some terminal =>
    TermFocus terminal ::
    match TerminalManager.fitAddon (Session.terminalManager session) with
    | Some fitAddon => [FitAddonFit fitAddon]
    | None => []
    end
  | None => []
  end.

(** ** The steps of [closeSession] *)

(** "Cleanup backend" and "Cleanup frontend", for the session at index [i]. *)
Definition teardown (b : Bridge.t) (sessionId : string) (i : nat) : Js unit :=
  try_catch
    (invoke (ssh_disconnect sessionId)
            (fun n => Bridge.disconnect_reply b n sessionId))
    (fun e => log (console_error "Disconnect error:" e)) >>
  destroy i >>
  container_remove i >>
  modify (fun st => App.with_sessions (delete i (App.sessions st)) st).

(** "Switch to another tab or empty state". *)
Definition successor (b : Bridge.t) (i : nat) : Js unit :=
  let* sessions := gets App.sessions in
  if Nat.ltb 0 (length sessions) then
    let* nextSession := deref (previous i) in
    switchSession b (Session.id nextSession)
  else
    modify (App.with_currentSessionId None) >>
    handleDisconnect >>
    updateTabsUI.

(** What the console gets when the disconnect request is answered. *)
Definition disconnect_log (reply : Reply unit) : list ConsoleEntry :=
  match reply with
  | Resolved _ => []
  | Rejected e => [console_error "Disconnect error:" e]
  end.

(** The calls of [destroy] on the objects of a session. *)
Definition dispose_calls (session : Session.t) : list XtermCall :=
  match TerminalManager.resizeObserver (Session.terminalManager session) with
  | Some observer => [ObserverDisconnect observer]
  | None => []
  end ++
  match TerminalManager.terminal (Session.terminalManager session) with
  | Some terminal => [TermDispose terminal]
  | None => []
  end.

(** The page after [container.remove()]. *)
Definition unmount (session : Session.t) (d : Document.t) : Document.t :=
  Document.with_terminals_container
    ((fun c => {| TerminalsContainer.display := TerminalsContainer.display c;
                  TerminalsContainer.children :=
                    filter (fun h => h <> Container.el (Session.container session))
                           (TerminalsContainer.children c) |})
       <$> Document.terminals_container d) d.

(** The state after the teardown of the session [session] at index [i]. *)
Definition torn_down (b : Bridge.t) (sessionId : string) (i : nat) (session : Session.t) (st : App.t) : App.t :=
  {| App.sessions := delete i (App.sessions st);
     App.currentSessionId := App.currentSessionId st;
     App.currentConnectionId := App.currentConnectionId st;
     App.connections := App.connections st;
     App.fileManager := App.fileManager st;
     App.document := unmount session (App.document st);
     App.backend := App.backend st ++ [ssh_disconnect sessionId];
     App.console :=
       App.console st ++
       disconnect_log (Bridge.disconnect_reply b (length (App.backend st)) sessionId);
     App.xterm := App.xterm st ++ dispose_calls session;
     App.allocated := App.allocated st |}.

(** ** The steps of [connect] and [addSession] *)

(** The session object of [addSession], for the handles [h], [h+1], [h+2]
    and [h+3] of its container, terminal, fit addon and resize observer. *)
Definition fresh_session (sessionId name : string) (h : Handle) : Session.t :=
  {| Session.id := sessionId;
     Session.name := name;
     Session.terminalManager :=
       {| TerminalManager.terminal := Some (S h);
          TerminalManager.fitAddon := Some (S (S h));
          TerminalManager.sessionId := Some sessionId;
          TerminalManager.resizeObserver := Some (S (S (S h))) |};
     Session.container :=
       {| Container.el := h;
          Container.className := "terminal-instance";
          Container.id := "term-" +:+ sessionId;
          Container.display := "" |};
     Session.fileManagerState :=
       {| Snapshot.path := "/"; Snapshot.history := [];
          Snapshot.historyIndex := None |} |}.

(** The state of [addSession] right after [this.sessions.push(session)]. *)
Definition pushed (sessionId name : string) (st : App.t) : App.t :=
  let h := App.allocated st in
  {| App.sessions := App.sessions st ++ [fresh_session sessionId name h];
     App.currentSessionId := App.currentSessionId st;
     App.currentConnectionId := App.currentConnectionId st;
     App.connections := App.connections st;
     App.fileManager := App.fileManager st;
     App.document :=
       Document.with_terminals_container
         ((fun c => {| TerminalsContainer.display := TerminalsContainer.display c;
                       TerminalsContainer.children := TerminalsContainer.children c ++ [h] |})
            <$> Document.terminals_container (App.document st))
         (App.document st);
     App.backend := App.backend st;
     App.console := App.console st;
     App.xterm := App.xterm st ++
       [TermOpen (S h) h; ObserverObserve (S (S (S h))) h; TermFocus (S h)];
     App.allocated := S (S (S (S h))) |}.

(** The state of [connect] when the request has been sent. *)
Definition requested (id : string) (connection : Connection.t) (st : App.t) : App.t :=
  {| App.sessions := App.sessions st;
     App.currentSessionId := App.currentSessionId st;
     App.currentConnectionId := Some id;
     App.connections := App.connections st;
     App.fileManager := App.fileManager st;
     App.document :=
       Document.with_connection_modal "none"
         (Document.with_status "status-dot connecting"
            ("Connecting to " +:+ Connection.host connection +:+ "...")
            (App.document st));
     App.backend := App.backend st ++ [ssh_connect (Connection.id connection)];
     App.console := App.console st;
     App.xterm := App.xterm st;
     App.allocated := App.allocated st |}.

(** The state [connect] ends in when the request is rejected with [e]. *)
Definition refused (id : string) (connection : Connection.t) (e : string) (st : App.t) : App.t :=
  {| App.sessions := App.sessions st;
     App.currentSessionId := App.currentSessionId st;
     App.currentConnectionId := Some id;
     App.connections := App.connections st;
     App.fileManager := App.fileManager st;
     App.document :=
       Document.with_status "status-dot error" ("Connection failed: " +:+ e)
         (Document.with_connection_modal "none" (App.document st));
     App.backend := App.backend st ++ [ssh_connect (Connection.id connection)];
     App.console := App.console st ++ [console_error "" e];
     App.xterm := App.xterm st;
     App.allocated := App.allocated st |}.

(** ** Consistency of the registry *)

(** A session with a Terminal Surface that has not been destroyed. *)
Definition live (s : Session.t) : Prop :=
  is_Some (TerminalManager.terminal (Session.terminalManager s)) /\
  is_Some (TerminalManager.fitAddon (Session.terminalManager s)).

(** The style a session container must have when [current] is the Active
    Session Pointer. *)
Definition expected_display (current : option string) (s : Session.t) : string :=
  if bool_decide (current = Some (Session.id s)) then "block" else "none".

(** The invariants of the data model (spec, section 3), as the code keeps
    them: unique and non-empty ids, a live terminal per record, the
    container of the active session shown and every other one hidden, a
    pointer that names a record, and the empty state. *)
Record Consistent (st : App.t) : Prop := {
  unique_ids : NoDup (ids (App.sessions st));
  truthy_ids : "" ∉ ids (App.sessions st);
  live_sessions : Forall live (App.sessions st);
  one_visible : Forall (fun s => Container.display (Session.container s) =
                                 expected_display (App.currentSessionId st) s)
                       (App.sessions st);
  current_known : forall c, App.currentSessionId st = Some c -> c ∈ ids (App.sessions st);
  empty_state : App.currentSessionId st = None ->
                App.sessions st = [] /\ placeholder st = Some "flex";
  placeholder_exists : is_Some (placeholder st) }.

(** ** Runs of the application *)

(** What the user or the backend can do to the running application. *)
Inductive Action :=
| Connect (id : string)
| SwitchTo (sessionId : string)
| Close (sessionId : string)
| PushData (payload : Payload.t)
| PushError (payload : Payload.t)
| PushClosed (payload : Payload.t).

(** The handler that runs for an action: the double click on a saved
    connection, the clicks on a tab and on its close box, and the three
    listeners. *)
Definition perform (b : Bridge.t) (a : Action) : Js unit :=
  match a with
  | Connect id => detached (connect b id)
  | SwitchTo sessionId => switchSession b sessionId
  | Close sessionId => detached (closeSession b sessionId)
  | PushData payload => on_ssh_data payload
  | PushError payload => on_ssh_error payload
  | PushClosed payload => on_ssh_close b payload
  end.

(** The contract of the backend for session ids (spec, section 3): the id
    answered to [ssh_connect] is a non-empty string that no live session
    has. *)
Definition fresh_id (b : Bridge.t) (st : App.t) (a : Action) : Prop :=
  match a with
  | Connect id =>
    forall sessionId,
      Bridge.connect_reply b (length (App.backend st)) id = Resolved sessionId ->
      sessionId <> "" /\ sessionId ∉ ids (App.sessions st)
  | _ => True
  end.

(** The states of a run that starts on a page showing the placeholder. *)
Inductive Reachable (b : Bridge.t) : App.t -> Prop :=
| Reachable_new doc conns :
    Document.terminal_placeholder doc = Some "flex" ->
    Reachable b (App.new doc conns)
| Reachable_step st a :
    Reachable b st -> fresh_id b st a ->
    Reachable b (exec (perform b a) st).

(** A check of [fresh_id] that computes. *)
Definition fresh_idb (b : Bridge.t) (st : App.t) (a : Action) : bool :=
  match a with
  | Connect id =>
    match Bridge.connect_reply b (length (App.backend st)) id with
    | Resolved sessionId =>
      negb (String.eqb sessionId "") &&
      forallb (fun x => negb (String.eqb x sessionId)) (ids (App.sessions st))
    | Rejected _ => true
    end
  | _ => true
  end.

(** The actions of a list respect the contract of the backend, one after
    the other. *)
Fixpoint admissible (b : Bridge.t) (actions : list Action) (st : App.t) : bool :=
  match actions with
  | [] => true
  | a :: rest => fresh_idb b st a && admissible b rest (exec (perform b a) st)
  end.

(** ** Sample runs *)

Module Sample.

(** A page with every element the code looks up, showing the placeholder. *)
Definition page : Document.t :=
  {| Document.status_dot := "status-dot disconnected";
     Document.status_text := "Disconnected";
     Document.connection_modal := "none";
     Document.tabs_container := Some [];
     Document.terminal_placeholder := Some "flex";
     Document.terminals_container :=
       Some {| TerminalsContainer.display := "none";
               TerminalsContainer.children := [] |};
     Document.btn_disconnect := Some true;
     Document.sftp_path_display := "/";
     Document.file_list := FileListNotConnected |}.

Definition connections : list Connection.t :=
  [ {| Connection.id := "c1"; Connection.name := "alpha"; Connection.host := "10.0.0.1" |};
    {| Connection.id := "c2"; Connection.name := ""; Connection.host := "10.0.0.2" |};
    {| Connection.id := "c3"; Connection.name := "gamma"; Connection.host := "10.0.0.3" |} ].

(** The session id the sample backends give to a connection. *)
Definition session_for (connectionId : string) : string :=
  if String.eqb connectionId "c1" then "A"
  else if String.eqb connectionId "c2" then "B"
  else "C".

(** A backend that accepts every request. *)
Definition bridge : Bridge.t :=
  {| Bridge.connect_reply := fun _ connectionId => Resolved (session_for connectionId);
     Bridge.disconnect_reply := fun _ _ => Resolved tt;
     Bridge.get_home_reply := fun _ sessionId => Resolved ("/home/" +:+ sessionId);
     Bridge.list_reply := fun _ _ path =>
       Resolved [ {| RemoteFile.path := path +:+ "/notes.txt";
                     RemoteFile.name := "notes.txt";
                     RemoteFile.is_dir := false |} ] |}.

(** A backend that connects but fails every later request. *)
Definition flaky : Bridge.t :=
  {| Bridge.connect_reply := fun _ connectionId => Resolved (session_for connectionId);
     Bridge.disconnect_reply := fun _ _ => Rejected "channel closed";
     Bridge.get_home_reply := fun _ _ => Rejected "no sftp";
     Bridge.list_reply := fun _ _ _ => Rejected "no sftp" |}.

(** A backend that refuses to connect. *)
Definition unreachable : Bridge.t :=
  {| Bridge.connect_reply := fun _ _ => Rejected "host unreachable";
     Bridge.disconnect_reply := fun _ _ => Resolved tt;
     Bridge.get_home_reply := fun _ _ => Rejected "no session";
     Bridge.list_reply := fun _ _ _ => Rejected "no session" |}.


(** The run of a list of actions. *)
Definition run (b : Bridge.t) (actions : list Action) (st : App.t) : App.t :=
  foldl (fun st a => exec (perform b a) st) st actions.

Definition start : App.t := App.new page connections.

(** Sessions [A, B, C], the last one active. *)
Definition abc (b : Bridge.t) : App.t :=
  run b [Connect "c1"; Connect "c2"; Connect "c3"] start.

(** Sessions [A, B, C] with [active] selected. *)
Definition abc_on (b : Bridge.t) (active : string) : App.t :=
  run b [Connect "c1"; Connect "c2"; Connect "c3"; SwitchTo active] start.

(** One session, [A]. *)
Definition only_a (b : Bridge.t) : App.t := run b [Connect "c1"] start.

(** The first saved connection. *)
Definition c1 : Connection.t :=
  {| Connection.id := "c1"; Connection.name := "alpha"; Connection.host := "10.0.0.1" |}.


(** A [closed] push event for [B]. *)
Definition closed_b : Payload.t :=
  {| Payload.sessionId := "B"; Payload.data := []; Payload.error := "" |}.

End Sample.

(** * The rest of the file browser and of the controller

    The functions below are the ones of [app.js] that the session
    orchestrator does not go through: the navigation and the helpers of
    [FileManager], its permissions dialog, and the resize listener of
    [App]. *)

(** ** Built-in functions of JavaScript

    A JavaScript string is a sequence of UTF-16 code units; a character of
    [string] stands for the code unit of the same number, so the strings
    of the model are the ones whose code units are below 256. A number
    that can be [NaN] is an [option Z], [None] for [NaN]. *)

Module JS.

(** The code unit of a character. *)
Definition code (c : ascii) : Z := Z.of_nat (nat_of_ascii c).

(** [s.split(sep)], for a separator that matches one character: [sep]
    tells the characters that separate. *)
Fixpoint split_by (sep : ascii -> bool) (s : string) : list string :=
  match s with
  | EmptyString => [EmptyString]
  | String c s' =>
    if sep c then EmptyString :: split_by sep s'
    else
      match split_by sep s' with
      | x :: xs => String c x :: xs
      | [] => [String c EmptyString]
      end
  end.

(** [s.split(c)], for a string [c] of one character. *)
Definition split (c : ascii) (s : string) : list string :=
  split_by (fun a => Ascii.eqb a c) s.

(** [s.split('')] *)
Definition chars (s : string) : list ascii := String.list_ascii_of_string s.

(** [l.join(sep)] *)
Fixpoint join (sep : string) (l : list string) : string :=
  match l with
  | [] => ""
  | [x] => x
  | x :: xs => x +:+ sep +:+ join sep xs
  end.

(** [l.pop()]: the element removed from the end of [l], [None] for
    [undefined], and the array that is left. *)
Fixpoint pop {A} (l : list A) : option A * list A :=
  match l with
  | [] => (None, [])
  | [x] => (Some x, [])
  | x :: xs => let (r, rest) := pop xs in (r, x :: rest)
  end.

(** [l.slice(-n)] *)
Definition slice_last {A} (n : nat) (l : list A) : list A :=
  drop (length l - n) l.

(** [s.endsWith(c)], for a string [c] of one character. *)
Fixpoint endsWith (c : ascii) (s : string) : bool :=
  match s with
  | EmptyString => false
  | String a EmptyString => Ascii.eqb a c
  | String _ s' => endsWith c s'
  end.

(** [s.replace(/c$/, '')]: one [c] at the end of [s] is removed. *)
Fixpoint strip_end (c : ascii) (s : string) : string :=
  match s with
  | EmptyString => EmptyString
  | String a EmptyString => if Ascii.eqb a c then EmptyString else s
  | String a s' => String a (strip_end c s')
  end.

(** [s.padStart(n, c)], for a string [c] of one character. *)
Definition padStart (n : nat) (c : ascii) (s : string) : string :=
  String.string_of_list_ascii (replicate (n - String.length s) c) +:+ s.

(** The white space that [Number] and [parseInt] skip (StrWhiteSpaceChar):
    TAB, LF, VT, FF, CR, SP and NBSP are the ones below 256. *)
Definition isWhiteSpace (c : ascii) : bool :=
  ((9 <=? code c) && (code c <=? 13) || (code c =? 32) || (code c =? 160))%Z.

(** The value of a digit in a radix up to ten. *)
Definition digit_value (radix : Z) (c : ascii) : option Z :=
  if ((48 <=? code c) && (code c <? 48 + radix))%Z then Some (code c - 48)%Z
  else None.

(** [Number(c)] for a string [c] of one character: a decimal digit is its
    value, white space is 0, anything else is [NaN]. *)
Definition Number (c : ascii) : option Z :=
  match digit_value 10 c with
  | Some d => Some d
  | None => if isWhiteSpace c then Some 0%Z else None
  end.

(** [isNaN(d)] *)
Definition isNaN (d : option Z) : bool :=
  match d with
  | Some _ => false
  | None => true
  end.

(** ToInt32, the conversion that the bitwise operators apply: an integer
    wraps around modulo 2^32 into the signed range, and [NaN] becomes 0. *)
Definition ToInt32 (d : option Z) : Z :=
  match d with
  | Some n => ((n + 2 ^ 31) mod 2 ^ 32 - 2 ^ 31)%Z
  | None => 0%Z
  end.

(** [a & b] *)
Definition and (a : option Z) (b : Z) : Z :=
  Z.land (ToInt32 a) (ToInt32 (Some b)).

(** The character of a digit below ten. *)
Definition digit (d : Z) : ascii := ascii_of_nat (Z.to_nat (48 + d)).

(** The digits of a non-negative integer [n] in a radix up to ten, put in
    front of [acc]. *)
Fixpoint digits (radix : Z) (fuel : nat) (n : Z) (acc : string) : string :=
  match fuel with
  | O => acc
  | S fuel =>
    let acc := String (digit (n mod radix)) acc in
    if (n / radix =? 0)%Z then acc else digits radix fuel (n / radix) acc
  end.

(** [n.toString(radix)] for a non-negative integer [n] (below 10^21) and a
    radix from two to ten. *)
Definition toString (radix : Z) (n : Z) : string :=
  digits radix (S (Z.to_nat (Z.log2 n))) n "".

(** The longest prefix of [s] made of digits of the radix, read as a
    number; [acc] is the value read so far, [None] when no digit has been
    read. *)
Fixpoint parse_digits (radix : Z) (acc : option Z) (s : string) : option Z :=
  match s with
  | EmptyString => acc
  | String c s' =>
    match digit_value radix c with
    | Some d => parse_digits radix (Some (radix * default 0 acc + d)%Z) s'
    | None => acc
    end
  end.

(** The string without its leading white space. *)
Fixpoint trimStart (s : string) : string :=
  match s with
  | EmptyString => EmptyString
  | String c s' => if isWhiteSpace c then trimStart s' else s
  end.

(** [parseInt(s, radix)] for a radix from two to ten (so no [0x] prefix is
    looked for): leading white space and a sign are skipped, the digits
    that follow are read, and what comes after them is ignored. Without a
    digit the result is [NaN]. The result is exact as long as it is below
    2^53 in absolute value. *)
Definition parseInt (s : string) (radix : Z) : option Z :=
  match trimStart s with
  | String "-"%char s' => (fun n => (- n)%Z) <$> parse_digits radix None s'
  | String "+"%char s' => parse_digits radix None s'
  | s' => parse_digits radix None s'
  end.

(** [c.toLowerCase()] for one code unit below 256: the letters A-Z, and
    the capital letters of Latin-1 (U+00C0 to U+00DE but the
    multiplication sign U+00D7). *)
Definition lower (c : ascii) : ascii :=
  if ((65 <=? code c) && (code c <=? 90) ||
      (192 <=? code c) && (code c <=? 222) && negb (code c =? 215))%Z
  then ascii_of_nat (nat_of_ascii c + 32)
  else c.

(** [s.toLowerCase()] *)
Fixpoint toLowerCase (s : string) : string :=
  match s with
  | EmptyString => EmptyString
  | String c s' => String (lower c) (toLowerCase s')
  end.

(** [l.includes(v)], for [v] a string or [undefined]. *)
Definition includes (l : list string) (v : option string) : bool :=
  match v with
  | Some s => existsb (String.eqb s) l
  | None => false
  end.

End JS.

(** ** FileManager: helpers *)

(** The arrow function [rwx] of [formatPermissions] and of
    [updatePermPreview]. *)
Definition rwx (n : option Z) : string :=
  (if Z.eqb (JS.and n 4) 0 then "-" else "r") +:+
  (if Z.eqb (JS.and n 2) 0 then "-" else "w") +:+
  (if Z.eqb (JS.and n 1) 0 then "-" else "x").

(** [formatPermissions(mode)]; [mode] is [None] for [null] and
    [undefined]. *)
Definition formatPermissions (mode : option Z) : string :=
  match mode with
  | None => ""
  | Some mode =>
    let m := JS.and (Some mode) 511 in
    rwx (Some (JS.and (Some (Z.shiftr m 6)) 7)) +:+
    rwx (Some (JS.and (Some (Z.shiftr m 3)) 7)) +:+
    rwx (Some (JS.and (Some m) 7))
  end.

Definition codeExts : list string :=
  ["js"; "ts"; "py"; "rs"; "go"; "java"; "c"; "cpp"; "h"; "css"; "html";
   "json"; "yaml"; "yml"; "toml"; "xml"; "sh"; "bash"].
Definition imageExts : list string :=
  ["png"; "jpg"; "jpeg"; "gif"; "svg"; "webp"; "ico"; "bmp"].
Definition archiveExts : list string :=
  ["zip"; "tar"; "gz"; "bz2"; "xz"; "7z"; "rar"].
Definition textExts : list string :=
  ["txt"; "md"; "log"; "csv"; "ini"; "cfg"; "conf"].

(** [getFileIconClass(name)] *)
Definition getFileIconClass (name : string) : string :=
  let ext := JS.toLowerCase <$> fst (JS.pop (JS.split "." name)) in
  if JS.includes codeExts ext then "file-code"
  else if JS.includes imageExts ext then "file-image"
  else if JS.includes archiveExts ext then "file-archive"
  else if JS.includes textExts ext then "file-text"
  else "file".

(** The serialization of a text node by [innerHTML]: the ampersand, the
    no-break space and the angle brackets are replaced by entities. *)
Fixpoint innerHTML (text : string) : string :=
  match text with
  | EmptyString => EmptyString
  | String c s =>
    (if Ascii.eqb c "&" then "&amp;"
     else if Ascii.eqb c (ascii_of_nat 160) then "&nbsp;"
     else if Ascii.eqb c "<" then "&lt;"
     else if Ascii.eqb c ">" then "&gt;"
     else String c EmptyString) +:+ innerHTML s
  end.

(** [escapeHtml(str)]: the markup of a [div] whose text is [str]. *)
Definition escapeHtml (str : string) : string := innerHTML str.

(** ** FileManager: the permissions dialog *)

(** The three check boxes of a class of users. *)
Module Rwx.
Record t := mk { r : bool; w : bool; x : bool }.
End Rwx.

(** [#permissions-modal] and the elements in it: the style of the dialog,
    the text of [#perm-file-name], the value of [#perm-octal], the nine
    check boxes [#perm-owner-r] to [#perm-other-x] and the text of
    [#perm-preview]. *)
Module PermissionsModal.
Record t := mk {
  display : string;
  file_name : string;
  octal : string;
  owner : Rwx.t;
  group : Rwx.t;
  other : Rwx.t;
  preview : string }.

Definition with_display (v : string) (d : t) : t :=
  {| display := v; file_name := file_name d; octal := octal d;
     owner := owner d; group := group d; other := other d;
     preview := preview d |}.

Definition with_file_name (v : string) (d : t) : t :=
  {| display := display d; file_name := v; octal := octal d;
     owner := owner d; group := group d; other := other d;
     preview := preview d |}.

Definition with_octal (v : string) (d : t) : t :=
  {| display := display d; file_name := file_name d; octal := v;
     owner := owner d; group := group d; other := other d;
     preview := preview d |}.

Definition with_checks (o g t' : Rwx.t) (d : t) : t :=
  {| display := display d; file_name := file_name d; octal := octal d;
     owner := o; group := g; other := t';
     preview := preview d |}.

Definition with_preview (v : string) (d : t) : t :=
  {| display := display d; file_name := file_name d; octal := octal d;
     owner := owner d; group := group d; other := other d;
     preview := v |}.
End PermissionsModal.

(** [updatePermPreview(octalStr)] *)
Definition updatePermPreview (octalStr : string) (d : PermissionsModal.t) : PermissionsModal.t :=
  let digits := JS.Number <$> JS.chars (JS.padStart 3 "0" octalStr) in
  if Nat.ltb (length digits) 3 then d else
  match JS.slice_last 3 digits with
  | [o; g; t] => PermissionsModal.with_preview (rwx o +:+ rwx g +:+ rwx t) d
  | _ => d
  end.

(** [!!(n & k)] *)
Definition bit (n : option Z) (k : Z) : bool := negb (Z.eqb (JS.and n k) 0).

(** [syncOctalToPermChecks(octalStr)] *)
Definition syncOctalToPermChecks (octalStr : string) (d : PermissionsModal.t) : PermissionsModal.t :=
  let digits := JS.Number <$> JS.chars (JS.padStart 3 "0" octalStr) in
  if Nat.ltb (length digits) 3 ||
     existsb (fun d => JS.isNaN d || (7 <? default 0 d)%Z) digits
  then d else
  match JS.slice_last 3 digits with
  | [owner; group; other] =>
    updatePermPreview octalStr
      (PermissionsModal.with_checks
         {| Rwx.r := bit owner 4; Rwx.w := bit owner 2; Rwx.x := bit owner 1 |}
         {| Rwx.r := bit group 4; Rwx.w := bit group 2; Rwx.x := bit group 1 |}
         {| Rwx.r := bit other 4; Rwx.w := bit other 2; Rwx.x := bit other 1 |}
         d)
  | _ => d
  end.

(** [syncPermChecksToOctal()] *)
Definition syncPermChecksToOctal (d : PermissionsModal.t) : PermissionsModal.t :=
  let octal := 0%Z in
  let octal := if Rwx.r (PermissionsModal.owner d) then (octal + 400)%Z else octal in
  let octal := if Rwx.w (PermissionsModal.owner d) then (octal + 200)%Z else octal in
  let octal := if Rwx.x (PermissionsModal.owner d) then (octal + 100)%Z else octal in
  let octal := if Rwx.r (PermissionsModal.group d) then (octal + 40)%Z else octal in
  let octal := if Rwx.w (PermissionsModal.group d) then (octal + 20)%Z else octal in
  let octal := if Rwx.x (PermissionsModal.group d) then (octal + 10)%Z else octal in
  let octal := if Rwx.r (PermissionsModal.other d) then (octal + 4)%Z else octal in
  let octal := if Rwx.w (PermissionsModal.other d) then (octal + 2)%Z else octal in
  let octal := if Rwx.x (PermissionsModal.other d) then (octal + 1)%Z else octal in
  let octalStr := JS.padStart 3 "0" (JS.toString 10 octal) in
  updatePermPreview octalStr (PermissionsModal.with_octal octalStr d).

(** ** App: the resize listener, and [navigateUp] *)


Section Browser.

Variable bridge : Bridge.t.

(** [navigateUp()] *)
Definition navigateUp : Js unit :=
  let* currentPath := gets (fun st => FileManager.currentPath (App.fileManager st)) in
  if String.eqb currentPath "/" then ret tt else
  let parts := JS.split "/" (JS.strip_end "/" currentPath) in
  let parts := snd (JS.pop parts) in
  let parent := or_else (JS.join "/" parts) "/" in
  detached (loadDirectory bridge parent).

End Browser.

(** ** Paths and permission strings *)

(** A string in which the character [c] does not occur. *)
Definition free_of (c : ascii) (s : string) : Prop := c ∉ JS.chars s.

(** The character of the permission string for bit [i] of [m]. *)
Definition flag (m : Z) (i : Z) (c : ascii) : ascii :=
  if Z.testbit m i then c else "-"%char.

(** The nine characters of [ls -l] for the mode [m]: bit 8 is the owner's
    read permission, bit 0 is the execute permission of the others. *)
Definition symbolic (m : Z) : string :=
  String.string_of_list_ascii
    [flag m 8 "r"; flag m 7 "w"; flag m 6 "x";
     flag m 5 "r"; flag m 4 "w"; flag m 3 "x";
     flag m 2 "r"; flag m 1 "w"; flag m 0 "x"]%char.

(** The state of the check boxes that shows the mode [m]. *)
Definition checks_of (m : Z) : Rwx.t * Rwx.t * Rwx.t :=
  ({| Rwx.r := Z.testbit m 8; Rwx.w := Z.testbit m 7; Rwx.x := Z.testbit m 6 |},
   {| Rwx.r := Z.testbit m 5; Rwx.w := Z.testbit m 4; Rwx.x := Z.testbit m 3 |},
   {| Rwx.r := Z.testbit m 2; Rwx.w := Z.testbit m 1; Rwx.x := Z.testbit m 0 |}).

(** The check boxes of the dialog. *)
Definition checks (d : PermissionsModal.t) : Rwx.t * Rwx.t * Rwx.t :=
  (PermissionsModal.owner d, PermissionsModal.group d, PermissionsModal.other d).

(** A string of octal digits. *)
Definition octal_digits (s : string) : Prop :=
  Forall (fun c => is_Some (JS.digit_value 8 c)) (JS.chars s).

(** The characters that [innerHTML] replaces by an entity. *)
Definition special (c : ascii) : Prop :=
  c = "&"%char \/ c = ascii_of_nat 160 \/ c = "<"%char \/ c = ">"%char.

(** The text that [updatePermPreview] writes, [None] when it writes
    nothing. *)
Definition preview_text (octalStr : string) : option string :=
  let digits := JS.Number <$> JS.chars (JS.padStart 3 "0" octalStr) in
  if Nat.ltb (length digits) 3 then None else
  match JS.slice_last 3 digits with
  | [o; g; t] => Some (rwx o +:+ rwx g +:+ rwx t)
  | _ => None
  end.

(** The boxes that [syncOctalToPermChecks] ticks, [None] when it leaves
    the dialog as it is. *)
Definition decode (octalStr : string) : option (Rwx.t * Rwx.t * Rwx.t) :=
  let digits := JS.Number <$> JS.chars (JS.padStart 3 "0" octalStr) in
  if Nat.ltb (length digits) 3 ||
     existsb (fun d => JS.isNaN d || (7 <? default 0 d)%Z) digits
  then None else
  match JS.slice_last 3 digits with
  | [owner; group; other] =>
    Some ({| Rwx.r := bit owner 4; Rwx.w := bit owner 2; Rwx.x := bit owner 1 |},
          {| Rwx.r := bit group 4; Rwx.w := bit group 2; Rwx.x := bit group 1 |},
          {| Rwx.r := bit other 4; Rwx.w := bit other 2; Rwx.x := bit other 1 |})
  | _ => None
  end.

(** The text that [syncPermChecksToOctal] writes for the boxes [c]. *)
Definition encode (c : Rwx.t * Rwx.t * Rwx.t) : string :=
  let octal := 0%Z in
  let octal := if Rwx.r c.1.1 then (octal + 400)%Z else octal in
  let octal := if Rwx.w c.1.1 then (octal + 200)%Z else octal in
  let octal := if Rwx.x c.1.1 then (octal + 100)%Z else octal in
  let octal := if Rwx.r c.1.2 then (octal + 40)%Z else octal in
  let octal := if Rwx.w c.1.2 then (octal + 20)%Z else octal in
  let octal := if Rwx.x c.1.2 then (octal + 10)%Z else octal in
  let octal := if Rwx.r c.2 then (octal + 4)%Z else octal in
  let octal := if Rwx.w c.2 then (octal + 2)%Z else octal in
  let octal := if Rwx.x c.2 then (octal + 1)%Z else octal in
  JS.padStart 3 "0" (JS.toString 10 octal).

(** The mode that the boxes [c] stand for. *)
Definition mode_of (c : Rwx.t * Rwx.t * Rwx.t) : Z :=
  ((if Rwx.r c.1.1 then 256 else 0) + (if Rwx.w c.1.1 then 128 else 0) +
   (if Rwx.x c.1.1 then 64 else 0) + (if Rwx.r c.1.2 then 32 else 0) +
   (if Rwx.w c.1.2 then 16 else 0) + (if Rwx.x c.1.2 then 8 else 0) +
   (if Rwx.r c.2 then 4 else 0) + (if Rwx.w c.2 then 2 else 0) +
   (if Rwx.x c.2 then 1 else 0))%Z.

(** ** More sample data *)

Module Fixture.

(** The permissions dialog, closed, as it was left for a file of mode 644. *)
Definition dialog : PermissionsModal.t :=
  {| PermissionsModal.display := "none";
     PermissionsModal.file_name := "/home/A/notes.txt";
     PermissionsModal.octal := "644";
     PermissionsModal.owner := {| Rwx.r := true; Rwx.w := true; Rwx.x := false |};
     PermissionsModal.group := {| Rwx.r := true; Rwx.w := false; Rwx.x := false |};
     PermissionsModal.other := {| Rwx.r := true; Rwx.w := false; Rwx.x := false |};
     PermissionsModal.preview := "rw-r--r--" |}.

End Fixture.

(** ** The file browser and the settings: what they talk to

    The functions of [FileManager] that create, upload, rename, delete and
    edit files, its permissions dialog, and the editor settings of [App],
    work on more than the state of the session orchestrator: they send
    other commands to the backend, open dialog boxes and use
    [localStorage]. *)

(** [this.selectedFile], and the [file] that [handleContextAction] gets. *)
Module Selected.
Record t := mk { path : string; isDir : bool }.
End Selected.

(** The value of [getEditorConfig()]: a command line, [null], or, for a
    preset that names a member of [Object.prototype], that member. *)
Inductive Editor :=
| EditorPath (path : string)
| EditorNull
| EditorInherited (property : string).

(** A command sent with [invoke], other than the four of [Request]. *)
Inductive Command :=
| sftp_mkdir (sessionId : option string) (path : string)
| sftp_upload (sessionId : option string) (localPath remotePath : string)
| sftp_download (sessionId : option string) (remotePath localPath : string)
| sftp_rename (sessionId : option string) (from to : string)
| sftp_delete (sessionId : option string) (path : string) (isDir : bool)
| sftp_chmod (sessionId : option string) (path : string) (mode : Z)
| sftp_edit_file (sessionId : option string) (remotePath : string) (editorPath : Editor)
| sftp_watch_file (sessionId : option string) (localPath remotePath : string).

(** A dialog box: [alert], [prompt], [confirm], and the save dialog of the
    dialog plugin. *)
Inductive Box :=
| Alert (message : string)
| Prompt (message : string) (value : option string)
| Confirm (message : string)
| Save (defaultPath : option string).

(** A line of [console.log] or [console.warn] of the file browser; the
    values logged after the label are not recorded. *)
Inductive Output :=
| console_log (label : string)
| console_warning (label : string).

(** The backend and the user, seen from the webview: the answer to the
    n-th command, the [permissions] property of an entry of a listing
    ([None] when it is [null] or missing), and what the n-th dialog box
    returns: the text of a prompt ([None] when it is cancelled), the
    choice of a confirm, the path of a save dialog ([None] when it is
    cancelled). *)
Module Env.
Record t := mk {
  bridge : Bridge.t;
  command_reply : nat -> Command -> Reply string;
  permissions : RemoteFile.t -> option Z;
  prompt_reply : nat -> option string;
  confirm_reply : nat -> bool;
  save_reply : nat -> Reply (option string) }.
End Env.

(** [#settings-modal] and the controls in it: the style of the dialog, the
    values of [#editor-preset] and [#custom-editor-path], and the style of
    [#custom-editor-group]. *)
Module SettingsModal.
Record t := mk {
  display : string;
  editor_preset : string;
  custom_editor_path : string;
  custom_editor_group : string }.

Definition with_display (v : string) (d : t) : t :=
  {| display := v; editor_preset := editor_preset d;
     custom_editor_path := custom_editor_path d;
     custom_editor_group := custom_editor_group d |}.
End SettingsModal.

(** The state of the page: the state of the session orchestrator, the
    commands sent, the dialog boxes shown, the console of the file browser,
    [this._permFile], the [drag-over] class of [#file-list], the
    permissions dialog, [localStorage], the settings dialog and the
    [platform-macos] class of the body. *)
Module World.
Record t := mk {
  app : App.t;
  commands : list Command;
  boxes : list Box;
  output : list Output;
  permFile : option Selected.t;
  drag_over : bool;
  permissions_modal : PermissionsModal.t;
  localStorage : gmap string string;
  settings_modal : SettingsModal.t;
  platform_macos : bool }.

Definition with_app (v : App.t) (w : t) : t :=
  {| app := v; commands := commands w; boxes := boxes w; output := output w;
     permFile := permFile w; drag_over := drag_over w;
     permissions_modal := permissions_modal w; localStorage := localStorage w;
     settings_modal := settings_modal w; platform_macos := platform_macos w |}.

Definition with_commands (v : list Command) (w : t) : t :=
  {| app := app w; commands := v; boxes := boxes w; output := output w;
     permFile := permFile w; drag_over := drag_over w;
     permissions_modal := permissions_modal w; localStorage := localStorage w;
     settings_modal := settings_modal w; platform_macos := platform_macos w |}.

Definition with_boxes (v : list Box) (w : t) : t :=
  {| app := app w; commands := commands w; boxes := v; output := output w;
     permFile := permFile w; drag_over := drag_over w;
     permissions_modal := permissions_modal w; localStorage := localStorage w;
     settings_modal := settings_modal w; platform_macos := platform_macos w |}.

Definition with_output (v : list Output) (w : t) : t :=
  {| app := app w; commands := commands w; boxes := boxes w; output := v;
     permFile := permFile w; drag_over := drag_over w;
     permissions_modal := permissions_modal w; localStorage := localStorage w;
     settings_modal := settings_modal w; platform_macos := platform_macos w |}.

Definition with_permFile (v : option Selected.t) (w : t) : t :=
  {| app := app w; commands := commands w; boxes := boxes w; output := output w;
     permFile := v; drag_over := drag_over w;
     permissions_modal := permissions_modal w; localStorage := localStorage w;
     settings_modal := settings_modal w; platform_macos := platform_macos w |}.

Definition with_drag_over (v : bool) (w : t) : t :=
  {| app := app w; commands := commands w; boxes := boxes w; output := output w;
     permFile := permFile w; drag_over := v;
     permissions_modal := permissions_modal w; localStorage := localStorage w;
     settings_modal := settings_modal w; platform_macos := platform_macos w |}.

Definition with_permissions_modal (v : PermissionsModal.t) (w : t) : t :=
  {| app := app w; commands := commands w; boxes := boxes w; output := output w;
     permFile := permFile w; drag_over := drag_over w;
     permissions_modal := v; localStorage := localStorage w;
     settings_modal := settings_modal w; platform_macos := platform_macos w |}.

Definition with_localStorage (v : gmap string string) (w : t) : t :=
  {| app := app w; commands := commands w; boxes := boxes w; output := output w;
     permFile := permFile w; drag_over := drag_over w;
     permissions_modal := permissions_modal w; localStorage := v;
     settings_modal := settings_modal w; platform_macos := platform_macos w |}.

Definition with_settings_modal (v : SettingsModal.t) (w : t) : t :=
  {| app := app w; commands := commands w; boxes := boxes w; output := output w;
     permFile := permFile w; drag_over := drag_over w;
     permissions_modal := permissions_modal w; localStorage := localStorage w;
     settings_modal := v; platform_macos := platform_macos w |}.
End World.

(** ** Computations on the page *)

Definition Ui (A : Type) : Type := World.t -> Completion A * World.t.

Module Ui.

Definition ret {A} (a : A) : Ui A := fun w => (Returned a, w).

Definition bind {A B} (m : Ui A) (k : A -> Ui B) : Ui B :=
  fun w =>
    match m w with
    | (Returned a, w') => k a w'
    | (Thrown e, w') => (Thrown e, w')
    end.

(** [try { m } catch (e) { h e }] *)
Definition try_catch {A} (m : Ui A) (h : string -> Ui A) : Ui A :=
  fun w =>
    match m w with
    | (Returned a, w') => (Returned a, w')
    | (Thrown e, w') => h e w'
    end.

Definition gets {A} (f : World.t -> A) : Ui A := fun w => (Returned (f w), w).

Definition modify (f : World.t -> World.t) : Ui unit := fun w => (Returned tt, f w).

(** A call of an [async] function that is not awaited. *)
Definition detached {A} (m : Ui A) : Ui unit :=
  fun w => (Returned tt, snd (m w)).

(** A computation of the session orchestrator, run on its part of the
    page. *)
Definition lift {A} (m : Js A) : Ui A :=
  fun w =>
    match m (World.app w) with
    | (c, a) => (c, World.with_app a w)
    end.

Definition exec {A} (m : Ui A) (w : World.t) : World.t := snd (m w).

End Ui.

Declare Scope ui_scope.
Delimit Scope ui_scope with ui.
Bind Scope ui_scope with Ui.

Notation "'let*' x ':=' m 'in' k" := (Ui.bind m (fun x => k))
  (at level 10, x name, m at level 100, k at level 200) : ui_scope.
Notation "m '>>' k" := (Ui.bind m (fun _ => k))
  (at level 100, k at level 200, right associativity) : ui_scope.

(** [`${v}`] for a value that is a string or [undefined]. *)
Definition template (v : option string) : string := default "undefined" v.

(** The names that a lookup in an object literal finds in
    [Object.prototype] when the literal does not have them. *)
Definition inherited : list string :=
  ["constructor"; "__defineGetter__"; "__defineSetter__"; "hasOwnProperty";
   "__lookupGetter__"; "__lookupSetter__"; "isPrototypeOf";
   "propertyIsEnumerable"; "toString"; "valueOf"; "__proto__";
   "toLocaleString"].

(** The two object literals of [getEditorConfig]. *)
Definition editorPaths (isMac : bool) : gmap string string :=
  if isMac then
    {[ "vscode" := "code"; "sublime" := "subl"; "textedit" := "open -e" ]}
  else
    {[ "vscode" := "code";
       "notepad++" := "C:\Program Files\Notepad++\notepad++.exe";
       "sublime" := "C:\Program Files\Sublime Text\sublime_text.exe";
       "atom" := "%LOCALAPPDATA%\atom\atom.exe";
       "notepad" := "notepad.exe" ]}.

(** [presetOverride || localStorage.getItem(key) || fallback] *)
Definition setting (override : option string) (stored : option string)
    (fallback : string) : string :=
  if truthy override then default "" override
  else if truthy stored then default "" stored
  else fallback.

(** [getEditorConfig(presetOverride, customPathOverride)], on the storage
    and the platform class of the page. *)
Definition getEditorConfig (presetOverride customPathOverride : option string)
    (w : World.t) : Editor :=
  let preset :=
    setting presetOverride (World.localStorage w !! "editorPreset") "system" in
  let customPath :=
    setting customPathOverride (World.localStorage w !! "editorCustomPath") "" in
  if String.eqb preset "system" then EditorNull
  else if String.eqb preset "custom" then
    (if String.eqb customPath "" then EditorNull else EditorPath customPath)
  else
    let isMac := World.platform_macos w in
    match editorPaths isMac !! preset with
    | Some path => EditorPath path
    | None =>
      if bool_decide (preset ∈ inherited) then EditorInherited preset
      else if isMac then EditorNull
      else
        match editorPaths isMac !! "notepad" with
        | Some path => EditorPath path
        | None => EditorNull
        end
    end.

Section Page.

Variable env : Env.t.

Local Open Scope ui_scope.

(** [await invoke(cmd, args)] for a command of the file browser. *)
Definition send (cmd : Command) : Ui string :=
  fun w =>
    let n := length (World.commands w) in
    let w' := World.with_commands (World.commands w ++ [cmd]) w in
    match Env.command_reply env n cmd with
    | Resolved a => (Returned a, w')
    | Rejected e => (Thrown e, w')
    end.

(** [alert(message)] *)
Definition alert (message : string) : Ui unit :=
  Ui.modify (fun w => World.with_boxes (World.boxes w ++ [Alert message]) w).

(** [prompt(message, value)] *)
Definition prompt (message : string) (value : option string) : Ui (option string) :=
  fun w =>
    (Returned (Env.prompt_reply env (length (World.boxes w))),
     World.with_boxes (World.boxes w ++ [Prompt message value]) w).

(** [confirm(message)] *)
Definition confirm (message : string) : Ui bool :=
  fun w =>
    (Returned (Env.confirm_reply env (length (World.boxes w))),
     World.with_boxes (World.boxes w ++ [Confirm message]) w).

(** [await save({ defaultPath })] *)
Definition save (defaultPath : option string) : Ui (option string) :=
  fun w =>
    let w' := World.with_boxes (World.boxes w ++ [Save defaultPath]) w in
    match Env.save_reply env (length (World.boxes w)) with
    | Resolved a => (Returned a, w')
    | Rejected e => (Thrown e, w')
    end.

Definition print (line : Output) : Ui unit :=
  Ui.modify (fun w => World.with_output (World.output w ++ [line]) w).

(** [this.app.currentSessionId] and [this.currentPath] *)
Definition currentSessionId : Ui (option string) :=
  Ui.gets (fun w => App.currentSessionId (World.app w)).

Definition currentPath : Ui string :=
  Ui.gets (fun w => FileManager.currentPath (App.fileManager (World.app w))).

Definition on_permissions_modal (f : PermissionsModal.t -> PermissionsModal.t) : Ui unit :=
  Ui.modify (fun w =>
    World.with_permissions_modal (f (World.permissions_modal w)) w).

(** [createFolder()] *)
Definition createFolder : Ui unit :=
  let* name := prompt "New folder name:" None in
  if negb (truthy name) then Ui.ret tt else
  Ui.try_catch
    (let* dir := currentPath in
     let path :=
       if JS.endsWith "/" dir then dir +:+ template name
       else dir +:+ "/" +:+ template name in
     let* sessionId := currentSessionId in
     send (sftp_mkdir sessionId path) >>
     let* dir := currentPath in
     Ui.lift (loadDirectory (Env.bridge env) dir))
    (fun e => alert ("Error creating folder: " +:+ e)).

(** The body of the loop of [handleDrop], for one path. *)
Definition upload (localPath : string) : Ui unit :=
  Ui.try_catch
    (let filename :=
       fst (JS.pop (JS.split_by (fun c => Ascii.eqb c "\" || Ascii.eqb c "/") localPath)) in
     let* dir := currentPath in
     let remotePath :=
       if JS.endsWith "/" dir then dir +:+ template filename
       else dir +:+ "/" +:+ template filename in
     Ui.lift (setStatus "connected" ("Uploading " +:+ template filename +:+ "...")) >>
     let* sessionId := currentSessionId in
     send (sftp_upload sessionId localPath remotePath) >>
     Ui.ret tt)
    (fun e => alert ("Upload error: " +:+ e)).

(** [for (const x of l) { body x }] *)
Fixpoint for_of {A} (l : list A) (body : A -> Ui unit) : Ui unit :=
  match l with
  | [] => Ui.ret tt
  | x :: l => body x >> for_of l body
  end.

(** [handleDrop(paths)]; [paths] is [None] for [null] and [undefined]. *)
Definition handleDrop (paths : option (list string)) : Ui unit :=
  print (console_log "Handling drop with paths:") >>
  Ui.modify (World.with_drag_over false) >>
  let* sessionId := currentSessionId in
  if negb (truthy sessionId) ||
     match paths with
     | Some paths => Nat.eqb (length paths) 0
     | None => true
     end
  then print (console_warning "Drop ignored: validation failed")
  else
    for_of (default [] paths) upload >>
    Ui.lift (setStatus "connected" "Upload complete") >>
    let* dir := currentPath in
    Ui.lift (loadDirectory (Env.bridge env) dir).

(** [showPermissionsModal(file)] *)
Definition showPermissionsModal (file : Selected.t) : Ui unit :=
  on_permissions_modal (PermissionsModal.with_file_name (Selected.path file)) >>
  Ui.modify (World.with_permFile (Some file)) >>
  let* files := Ui.gets (fun w => FileManager.files (App.fileManager (World.app w))) in
  let entry := snd <$> list_find (fun f => RemoteFile.path f = Selected.path file) files in
  let mode :=
    match entry ≫= Env.permissions env with
    | Some m => if Z.eqb m 0 then 420%Z else m
    | None => 420%Z
    end in
  let octalStr := JS.padStart 3 "0" (JS.toString 8 (JS.and (Some mode) 511)) in
  on_permissions_modal (PermissionsModal.with_octal octalStr) >>
  on_permissions_modal (syncOctalToPermChecks octalStr) >>
  on_permissions_modal (updatePermPreview octalStr) >>
  on_permissions_modal (PermissionsModal.with_display "flex").

(** [applyPermissions()] *)
Definition applyPermissions : Ui unit :=
  let* permFile := Ui.gets World.permFile in
  match permFile with
  | None => Ui.ret tt
  | Some file =>
    let* octalStr := Ui.gets (fun w => PermissionsModal.octal (World.permissions_modal w)) in
    match JS.parseInt octalStr 8 with
    | None => alert "Invalid permission value"
    | Some mode =>
      Ui.try_catch
        (let* sessionId := currentSessionId in
         send (sftp_chmod sessionId (Selected.path file) mode) >>
         on_permissions_modal (PermissionsModal.with_display "none") >>
         let* dir := currentPath in
         Ui.lift (loadDirectory (Env.bridge env) dir))
        (fun e => alert ("Failed to set permissions: " +:+ e))
    end
  end.

(** [editFile(remotePath, editorOverride)]; the dash of the last status
    message (U+2014, one code unit above 255) is written as the three
    bytes of its UTF-8 form. *)
Definition editFile (remotePath : string) (editorOverride : option string) : Ui unit :=
  let* sessionId := currentSessionId in
  if negb (truthy sessionId) then Ui.ret tt else
  let filename := template (fst (JS.pop (JS.split "/" remotePath))) in
  Ui.lift (setStatus "connected" ("Opening " +:+ filename +:+ "...")) >>
  Ui.try_catch
    (let* editorPath :=
       if truthy editorOverride then Ui.ret (EditorPath (default "" editorOverride))
       else Ui.gets (getEditorConfig None None) in
     let* sessionId := currentSessionId in
     let* localPath := send (sftp_edit_file sessionId remotePath editorPath) in
     let* sessionId := currentSessionId in
     send (sftp_watch_file sessionId localPath remotePath) >>
     Ui.lift (setStatus "connected"
                ("Editing " +:+ filename +:+ " — changes will auto-sync")))
    (fun e =>
       alert ("Failed to open file: " +:+ e) >>
       Ui.lift (setStatus "connected" "Connected")).

(** [s.lastIndexOf(c)], for a string [c] of one character; [None] for -1. *)
Fixpoint lastIndexOf (c : ascii) (s : string) : option nat :=
  match s with
  | EmptyString => None
  | String a s' =>
    match lastIndexOf c s' with
    | Some i => Some (S i)
    | None => if Ascii.eqb a c then Some 0 else None
    end
  end.

(** [s.substring(0, end)], where a negative [end] counts as 0. *)
Definition substring_to (s : string) (i : option nat) : string :=
  match i with
  | Some i => String.substring 0 i s
  | None => ""
  end.

(** [handleContextAction(action, file)] *)
Definition handleContextAction (action : string) (file : Selected.t) : Ui unit :=
  if String.eqb action "download" then
    Ui.try_catch
      (let fileName := fst (JS.pop (JS.split "/" (Selected.path file))) in
       let* localPath := save fileName in
       if truthy localPath then
         Ui.lift (setStatus "connected" ("Downloading " +:+ template fileName +:+ "...")) >>
         let* sessionId := currentSessionId in
         send (sftp_download sessionId (Selected.path file) (template localPath)) >>
         Ui.lift (setStatus "connected" "Download complete")
       else Ui.ret tt)
      (fun e => alert ("Download error: " +:+ e))
  else if String.eqb action "open-with" then
    Ui.detached (editFile (Selected.path file) (Some "open-with-dialog"))
  else if String.eqb action "rename" then
    let oldName := fst (JS.pop (JS.split "/" (Selected.path file))) in
    let* newName := prompt "New name:" oldName in
    if truthy newName && negb (bool_decide (newName = oldName)) then
      Ui.try_catch
        (let parentPath :=
           substring_to (Selected.path file) (lastIndexOf "/" (Selected.path file)) in
         let newPath := parentPath +:+ "/" +:+ template newName in
         let* sessionId := currentSessionId in
         send (sftp_rename sessionId (Selected.path file) newPath) >>
         let* dir := currentPath in
         Ui.lift (loadDirectory (Env.bridge env) dir))
        (fun e => alert ("Rename error: " +:+ e))
    else Ui.ret tt
  else if String.eqb action "delete" then
    let name := fst (JS.pop (JS.split "/" (Selected.path file))) in
    let* ok := confirm ("Delete " +:+ template name +:+ "?") in
    if ok then
      Ui.try_catch
        (let* sessionId := currentSessionId in
         send (sftp_delete sessionId (Selected.path file) (Selected.isDir file)) >>
         let* dir := currentPath in
         Ui.lift (loadDirectory (Env.bridge env) dir))
        (fun e => alert ("Delete error: " +:+ e))
    else Ui.ret tt
  else if String.eqb action "permissions" then
    showPermissionsModal file
  else if String.eqb action "edit" then
    if Selected.isDir file then Ui.ret tt
    else Ui.detached (editFile (Selected.path file) None)
  else Ui.ret tt.

(** [hideSettingsModal()] *)
Definition hideSettingsModal : Ui unit :=
  Ui.modify (fun w =>
    World.with_settings_modal
      (SettingsModal.with_display "none" (World.settings_modal w)) w).

(** [saveSettings()] *)
Definition saveSettings : Ui unit :=
  let* preset := Ui.gets (fun w => SettingsModal.editor_preset (World.settings_modal w)) in
  let* customPath :=
    Ui.gets (fun w => SettingsModal.custom_editor_path (World.settings_modal w)) in
  Ui.modify (fun w =>
    World.with_localStorage (<["editorPreset" := preset]> (World.localStorage w)) w) >>
  Ui.modify (fun w =>
    World.with_localStorage (<["editorCustomPath" := customPath]> (World.localStorage w)) w) >>
  hideSettingsModal.

End Page.

(** * Specification: the objects of the sessions, the tab strip and the
    file browser *)

(** ** The objects of the sessions *)











(** ** The tab strip *)





(** What [#file-list] shows for a listing. *)
Definition listing (files : list RemoteFile.t) : FileList :=
  match files with
  | [] => FileListEmpty
  | _ => FileListItems files
  end.

(** ** The file browser *)

(** The path of the entry [name] of the directory [dir], as [createFolder]
    and [handleDrop] build it. *)
Definition child (dir name : string) : string :=
  if JS.endsWith "/" dir then dir +:+ name else dir +:+ "/" +:+ name.

(** The name that [handleDrop] takes from a local path: what follows its
    last slash or backslash. *)
Definition basename (localPath : string) : string :=
  template
    (fst (JS.pop (JS.split_by (fun c => Ascii.eqb c "\" || Ascii.eqb c "/") localPath))).

(** The directory that is current in the file browser, the active session
    and the status line of the page. *)
Definition directory (w : World.t) : string :=
  FileManager.currentPath (App.fileManager (World.app w)).

Definition active (w : World.t) : option string :=
  App.currentSessionId (World.app w).

Definition status_text (w : World.t) : string :=
  Document.status_text (App.document (World.app w)).

(** The page after [loadDirectory] on the current directory. *)
Definition reloaded (env : Env.t) (w : World.t) : World.t :=
  World.with_app
    (exec (loadDirectory (Env.bridge env) (directory w)) (World.app w)) w.

(** The alerts of a loop of [handleDrop] that sends the commands [cmds],
    the first of them as the n-th command of the page. *)
Fixpoint upload_errors (env : Env.t) (n : nat) (cmds : list Command) : list Box :=
  match cmds with
  | [] => []
  | cmd :: cmds =>
    match Env.command_reply env n cmd with
    | Resolved _ => []
    | Rejected e => [Alert ("Upload error: " +:+ e)]
    end ++ upload_errors env (S n) cmds
  end.

(** The mode that [showPermissionsModal] shows for an entry whose
    [permissions] property is [p]. *)
Definition shown_mode (p : option Z) : Z :=
  match p with
  | Some m => if Z.eqb m 0 then 420%Z else (m mod 512)%Z
  | None => 420%Z
  end.

(** The [permissions] property of the entry of the listing that has the
    path [path], if there is one. *)
Definition permissions_of (env : Env.t) (w : World.t) (path : string) : option Z :=
  (snd <$> list_find (fun f => RemoteFile.path f = path)
             (FileManager.files (App.fileManager (World.app w)))) ≫=
  Env.permissions env.

(** The last part of a remote path, as [handleContextAction] and
    [editFile] take it. *)
Definition last_part (path : string) : option string :=
  fst (JS.pop (JS.split "/" path)).

(** The editor that [editFile] asks for. *)
Definition editor_for (editorOverride : option string) (w : World.t) : Editor :=
  if truthy editorOverride then EditorPath (default "" editorOverride)
  else getEditorConfig None None w.

(** A command that concerns the entry at [path] for the session
    [sessionId]. *)
Definition about (sessionId : option string) (path : string) (cmd : Command) : Prop :=
  match cmd with
  | sftp_download s remotePath _ => s = sessionId /\ remotePath = path
  | sftp_rename s from _ => s = sessionId /\ from = path
  | sftp_delete s p _ => s = sessionId /\ p = path
  | sftp_chmod s p _ => s = sessionId /\ p = path
  | sftp_edit_file s remotePath _ => s = sessionId /\ remotePath = path
  | sftp_watch_file s _ remotePath => s = sessionId /\ remotePath = path
  | sftp_mkdir _ _ | sftp_upload _ _ _ => False
  end.

(** An outcome of an action on [file] that returns and has sent only
    commands about [file]. *)
Definition Scoped (w : World.t) (file : Selected.t)
    (r : Completion unit * World.t) : Prop :=
  exists w' cmds,
    r = (Returned tt, w') /\
    World.commands w' = World.commands w ++ cmds /\
    Forall (about (active w) (Selected.path file)) cmds.

(** ** A sample page *)

Module Demo.

(** A backend that fails the second command it gets and reports the mode
    of every file as 100644 and of every directory as 40755, with a user
    who answers every prompt with "docs" and confirms every question. *)
Definition env : Env.t :=
  {| Env.bridge := Sample.bridge;
     Env.command_reply := fun n _ =>
       if Nat.eqb n 1 then Rejected "disk full" else Resolved "/tmp/edit/notes.txt";
     Env.permissions := fun f =>
       if RemoteFile.is_dir f then Some 16877%Z else Some 33188%Z;
     Env.prompt_reply := fun _ => Some "docs";
     Env.confirm_reply := fun _ => true;
     Env.save_reply := fun _ => Resolved (Some "/home/me/notes.txt") |}.

(** The page with the session [A], its home directory listed, the
    permissions dialog closed and the settings dialog open on a custom
    editor. *)
Definition world : World.t :=
  {| World.app := Sample.only_a Sample.bridge;
     World.commands := [];
     World.boxes := [];
     World.output := [];
     World.permFile := None;
     World.drag_over := true;
     World.permissions_modal := Fixture.dialog;
     World.localStorage := {[ "editorPreset" := "vscode" ]};
     World.settings_modal :=
       {| SettingsModal.display := "flex";
          SettingsModal.editor_preset := "custom";
          SettingsModal.custom_editor_path := "/usr/bin/gvim";
          SettingsModal.custom_editor_group := "block" |};
     World.platform_macos := false |}.

(** The entry of the listing of [world]. *)
Definition notes : Selected.t :=
  {| Selected.path := "/home/A/notes.txt"; Selected.isDir := false |}.

End Demo.

(** * Proofs *)

(** ** Facts on registry lookups *)

Lemma findIndex_Some sessionId l i :
  findIndex sessionId l = Some i <->
  exists s, l !! i = Some s /\ Session.id s = sessionId /\
            forall j s', l !! j = Some s' -> j < i -> Session.id s' <> sessionId.
Proof.
  unfold findIndex. rewrite fmap_Some. split.
  - intros [[j s] [H ->]]. apply list_find_Some in H. exists s. exact H.
  - intros [s H]. exists (i, s). split.
    + apply list_find_Some. exact H.
    + reflexivity.
Qed.

Lemma findIndex_None sessionId l :
  findIndex sessionId l = None <-> sessionId ∉ ids l.
Proof.
  unfold findIndex, ids. rewrite fmap_None, list_find_None, list.Forall_forall.
  rewrite list_elem_of_fmap. split.
  - intros H [s [-> Hs]]. by apply (H s).
  - intros H s Hs Heq. apply H. exists s. by rewrite Heq.
Qed.

Lemma findIndex_lookup sessionId l i :
  findIndex sessionId l = Some i ->
  exists s, l !! i = Some s /\ Session.id s = sessionId.
Proof. intros (s & ? & ? & _)%findIndex_Some. eauto. Qed.

Lemma findIndex_lt sessionId l i :
  findIndex sessionId l = Some i -> i < length l.
Proof. intros (s & ? & _)%findIndex_lookup. by eapply lookup_lt_Some. Qed.

Lemma findIndex_elem_of sessionId l i :
  findIndex sessionId l = Some i -> sessionId ∈ ids l.
Proof.
  intros H. destruct (decide (sessionId ∈ ids l)) as [|Hn]; [done|].
  apply findIndex_None in Hn. congruence.
Qed.

Lemma elem_of_findIndex sessionId l :
  sessionId ∈ ids l -> exists i, findIndex sessionId l = Some i.
Proof.
  intros H. destruct (findIndex sessionId l) as [i|] eqn:E; [eauto|].
  by apply findIndex_None in E.
Qed.

Lemma ids_alter f i l :
  (forall s, Session.id (f s) = Session.id s) -> ids (alter f i l) = ids l.
Proof.
  intros Hf. unfold ids. revert i. induction l as [|s l IH]; intros [|i]; csimpl;
    rewrite ?Hf, ?IH; done.
Qed.

Lemma findIndex_ids sessionId l l' :
  ids l = ids l' -> findIndex sessionId l = findIndex sessionId l'.
Proof.
  unfold ids, findIndex. revert l'.
  induction l as [|s l IH]; intros [|s' l'] H; simplify_eq/=; [done|].
  rewrite H. case_decide; [done|]. specialize (IH l' H0).
  destruct (list_find _ l) as [[]|], (list_find _ l') as [[]|]; naive_solver.
Qed.

Lemma findIndex_alter sessionId f i l :
  (forall s, Session.id (f s) = Session.id s) ->
  findIndex sessionId (alter f i l) = findIndex sessionId l.
Proof. intros. apply findIndex_ids. by apply ids_alter. Qed.

Lemma findIndex_NoDup l i s :
  NoDup (ids l) -> l !! i = Some s -> findIndex (Session.id s) l = Some i.
Proof.
  intros Hnd Hi. apply findIndex_Some. exists s. split_and!; [done..|].
  intros j s' Hj Hlt Heq.
  assert (j = i); [|lia].
  eapply (NoDup_lookup (ids l)); [done|..]; unfold ids; rewrite list_lookup_fmap.
  - rewrite Hj. simpl. by rewrite Heq.
  - by rewrite Hi.
Qed.

Lemma findIndex_app_l sessionId l l' i :
  findIndex sessionId l = Some i -> findIndex sessionId (l ++ l') = Some i.
Proof.
  unfold findIndex. rewrite !fmap_Some. intros [[j s] [H ->]].
  exists (j, s). split; [|done]. by apply list_find_app_l.
Qed.

Lemma findIndex_app_fresh l s :
  Session.id s ∉ ids l -> findIndex (Session.id s) (l ++ [s]) = Some (length l).
Proof.
  intros H%findIndex_None. unfold findIndex in *.
  apply fmap_None in H. rewrite list_find_app_r by done.
  simpl. rewrite decide_True by done. done.
Qed.

Lemma previous_pred i : previous i = Nat.pred i.
Proof. unfold previous. lia. Qed.

Lemma previous_lt i n : i < S n -> 0 < n -> previous i < n.
Proof. rewrite previous_pred. lia. Qed.


(** ** Stepping through computations *)

Lemma bind_run {A B} (m : Js A) (k : A -> Js B) st a st' :
  m st = (Returned a, st') -> bind m k st = k a st'.
Proof. unfold bind. by intros ->. Qed.

Lemma bind_safe {B} (m : Js unit) (k : unit -> Js B) st :
  safe m -> bind m k st = k tt (exec m st).
Proof. intros H. by apply bind_run. Qed.

Lemma safe_at (m : Js unit) st st' :
  m st = (Returned tt, st') -> m st = (Returned tt, exec m st).
Proof. intros H. unfold exec. rewrite H. reflexivity. Qed.

Lemma exec_bind_safe {B} (m : Js unit) (k : unit -> Js B) st :
  safe m -> exec (bind m k) st = exec (k tt) (exec m st).
Proof. intros H. unfold exec at 1 2. by rewrite (bind_safe m k st H). Qed.

Lemma safe_ret : safe (ret tt).
Proof. done. Qed.

Lemma safe_modify f : safe (modify f).
Proof. done. Qed.

Lemma safe_detached {A} (m : Js A) : safe (detached m).
Proof. done. Qed.

Lemma safe_bind (m : Js unit) (k : unit -> Js unit) :
  safe m -> safe (k tt) -> safe (bind m k).
Proof.
  intros Hm Hk st. unfold exec. rewrite (bind_safe m k st Hm). apply Hk.
Qed.

Lemma safe_gets {A} (f : App.t -> A) (k : A -> Js unit) :
  (forall a, safe (k a)) -> safe (bind (gets f) k).
Proof. intros Hk st. unfold exec, bind, gets. apply Hk. Qed.

Lemma safe_if (c : bool) (m1 m2 : Js unit) :
  safe m1 -> safe m2 -> safe (if c then m1 else m2).
Proof. by destruct c. Qed.

Lemma safe_try_catch (m : Js unit) (h : string -> Js unit) :
  (forall e, safe (h e)) -> safe (try_catch m h).
Proof.
  intros Hh st. unfold exec, try_catch. destruct (m st) as [[[]|e] st']; [done|].
  apply Hh.
Qed.

Lemma safe_invoke {A} req (reply : nat -> Reply A) (k : A -> Js unit) h :
  (forall a, safe (k a)) -> (forall e, safe (h e)) ->
  safe (try_catch (bind (invoke req reply) k) h).
Proof.
  intros Hk Hh st. unfold exec, try_catch, bind, invoke.
  destruct (reply _) as [a|e]; [|apply Hh].
  rewrite (Hk a). done.
Qed.

Ltac head_of t :=
  lazymatch t with
  | ?f _ => head_of f
  | _ => t
  end.

Ltac safe_step :=
  lazymatch goal with
  | |- safe (ret _) => apply safe_ret
  | |- safe (modify _) => apply safe_modify
  | |- safe (detached _) => apply safe_detached
  | |- safe (bind (gets _) _) => apply safe_gets; intros ?
  | |- safe (bind _ _) => apply safe_bind
  | |- safe (try_catch _ _) => apply safe_try_catch; intros ?
  | |- safe (if ?c then _ else _) => destruct c
  | |- safe (match ?x with _ => _ end) => destruct x
  | |- safe ?m => let h := head_of m in unfold h
  end.

Ltac safe := repeat safe_step.

Section Safety.
Variable b : Bridge.t.

Lemma safe_render : safe render.
Proof. unfold render. safe. Qed.

Lemma safe_clear : safe clear.
Proof. unfold clear. safe. Qed.

Lemma safe_loadDirectory path : safe (loadDirectory b path).
Proof.
  unfold loadDirectory. safe.
Qed.

Lemma safe_setState state sessionId : safe (setState b state sessionId).
Proof. unfold setState. safe. Qed.

Lemma safe_updateTabsUI : safe updateTabsUI.
Proof. unfold updateTabsUI. safe. Qed.

Lemma safe_fit tm : safe (fit tm).
Proof. unfold fit. safe. Qed.

Lemma safe_writeData tm data : safe (writeData tm data).
Proof. unfold writeData. safe. Qed.

Lemma safe_handleDisconnect : safe handleDisconnect.
Proof. unfold handleDisconnect. safe. Qed.

End Safety.

(** ** Frames: what a computation leaves alone *)

Lemma keeps_ret {A X} (f : App.t -> X) (a : A) : keeps f (ret a).
Proof. done. Qed.

Lemma keeps_throw {A X} (f : App.t -> X) e : keeps f (@throw A e).
Proof. done. Qed.

Lemma keeps_gets {A X} (f : App.t -> X) (g : App.t -> A) : keeps f (gets g).
Proof. done. Qed.

Lemma keeps_deref {X} (f : App.t -> X) i : keeps f (deref i).
Proof. intros st. unfold exec, deref. by destruct (_ !! _). Qed.

Lemma keeps_modify {X} (f : App.t -> X) g :
  (forall st, f (g st) = f st) -> keeps f (modify g).
Proof. intros H st. apply H. Qed.

Lemma keeps_bind {A B X} (f : App.t -> X) (m : Js A) (k : A -> Js B) :
  keeps f m -> (forall a, keeps f (k a)) -> keeps f (bind m k).
Proof.
  intros Hm Hk st. unfold exec, bind. specialize (Hm st). unfold exec in Hm.
  destruct (m st) as [[a|e] st']; simpl in *; [|done].
  rewrite <- Hm. apply Hk.
Qed.

Lemma keeps_try_catch {A X} (f : App.t -> X) (m : Js A) h :
  keeps f m -> (forall e, keeps f (h e)) -> keeps f (try_catch m h).
Proof.
  intros Hm Hh st. unfold exec, try_catch. specialize (Hm st). unfold exec in Hm.
  destruct (m st) as [[a|e] st']; simpl in *; [done|].
  rewrite <- Hm. apply Hh.
Qed.

Lemma keeps_detached {A X} (f : App.t -> X) (m : Js A) :
  keeps f m -> keeps f (detached m).
Proof. intros Hm st. apply Hm. Qed.

Lemma keeps_invoke {A X} (f : App.t -> X) req (reply : nat -> Reply A) :
  (forall v st, f (App.with_backend v st) = f st) -> keeps f (invoke req reply).
Proof. intros H st. unfold exec, invoke. destruct (reply _); apply H. Qed.

Lemma keeps_alloc {X} (f : App.t -> X) :
  (forall v st, f (App.with_allocated v st) = f st) -> keeps f alloc.
Proof. intros H st. apply H. Qed.

Ltac frame_step :=
  lazymatch goal with
  | |- keeps _ (ret _) => apply keeps_ret
  | |- keeps _ (throw _) => apply keeps_throw
  | |- keeps _ (gets _) => apply keeps_gets
  | |- keeps _ (deref _) => apply keeps_deref
  | |- keeps _ (detached _) => apply keeps_detached
  | |- keeps _ (invoke _ _) => apply keeps_invoke; intros ? ?; reflexivity
  | |- keeps _ alloc => apply keeps_alloc; intros ? ?; reflexivity
  | |- keeps _ (modify _) =>
      apply keeps_modify; intros ?; cbn;
      repeat match goal with
             | |- context [fmap _ ?o] =>
                 lazymatch o with
                 | fmap _ _ => fail
                 | Some _ => fail
                 | None => fail
                 | _ => destruct o; cbn
                 end
             end;
      reflexivity
  | |- keeps _ (bind _ _) => apply keeps_bind; [|intros ?]
  | |- keeps _ (try_catch _ _) => apply keeps_try_catch; [|intros ?]
  | |- keeps _ (if ?c then _ else _) => destruct c
  | |- keeps _ (match ?x with _ => _ end) => destruct x
  | |- keeps _ ?m =>
      let h := head_of m in unfold h
  end.

Ltac frame := repeat frame_step.

Section Frames.
Variable b : Bridge.t.


Lemma loadDirectory_ph path : keeps placeholder_kind (loadDirectory b path).
Proof. unfold placeholder_kind. frame. Qed.

Lemma updateTabsUI_ph : keeps placeholder_kind (updateTabsUI).
Proof. unfold placeholder_kind. frame. Qed.

End Frames.

Section SwitchSession.
Variable b : Bridge.t.

Lemma ids_deactivate st l : ids (deactivate st l) = ids l.
Proof.
  unfold deactivate. destruct (findNullable _ _); [|done].
  rewrite !ids_alter; done.
Qed.

Lemma ids_switched new st : ids (switched new st) = ids (App.sessions st).
Proof. unfold switched. rewrite ids_alter by done. apply ids_deactivate. Qed.

Lemma length_ids l : length (ids l) = length l.
Proof. apply length_fmap. Qed.

Lemma safe_activate sessionId session : safe (activate b sessionId session).
Proof. unfold activate. safe. Qed.

Lemma switchSession_unknown sessionId st :
  findIndex sessionId (App.sessions st) = None ->
  switchSession b sessionId st = (Returned tt, st).
Proof. intros H. unfold switchSession, bind, gets. by rewrite H. Qed.

Lemma switchSession_found sessionId st new :
  findIndex sessionId (App.sessions st) = Some new ->
  exists session,
    switched new st !! new = Some session /\
    switchSession b sessionId st =
      (Returned tt,
       exec (activate b sessionId session)
         (App.with_sessions (switched new st)
            (App.with_currentSessionId (Some sessionId) st))).
Proof.
  intros H.
  assert (new < length (switched new st)) as Hlt.
  { rewrite <- length_ids, ids_switched, length_ids. by eapply findIndex_lt. }
  destruct (lookup_lt_is_Some_2 _ _ Hlt) as [session Hs].
  exists session. split; [done|].
  rewrite <- (safe_activate sessionId session).
  unfold switchSession, switched, deactivate in *.
  unfold bind at 1. unfold gets at 1. unfold bind at 1. unfold gets at 1.
  rewrite H.
  destruct (findNullable _ _) as [old|]; destruct st; cbn in *.
  - unfold deref, bind; cbn. rewrite Hs. reflexivity.
  - unfold deref, bind; cbn. rewrite Hs. reflexivity.
Qed.

Lemma safe_switchSession sessionId : safe (switchSession b sessionId).
Proof.
  intros st.
  destruct (findIndex sessionId (App.sessions st)) as [new|] eqn:E.
  - destruct (switchSession_found _ _ _ E) as (s & _ & Heq). by eapply safe_at.
  - eapply safe_at. by apply switchSession_unknown.
Qed.

End SwitchSession.

Section Restore.
Variable b : Bridge.t.

(** *** What [setState] does to the Directory Browser and to the bridge *)

Lemma loadDirectory_backend path st :
  App.backend (exec (loadDirectory b path) st) =
  App.backend st ++ fetch (App.currentSessionId st) path.
Proof.
  unfold exec, loadDirectory, fetch, bind, gets, try_catch, invoke, on_document, modify.
  cbn. destruct (truthy (App.currentSessionId st)); cbn.
  - destruct (Bridge.list_reply _ _ _ _) as [files|e]; cbn; [|done].
    unfold render, bind, gets, on_document, modify; cbn. by destruct files.
  - by rewrite app_nil_r.
Qed.

Lemma loadDirectory_currentPath path st :
  FileManager.currentPath (App.fileManager st) = path ->
  FileManager.currentPath (App.fileManager (exec (loadDirectory b path) st)) = path.
Proof.
  intros H.
  unfold exec, loadDirectory, bind, gets, try_catch, invoke, on_document, modify.
  cbn. destruct (truthy (App.currentSessionId st)); cbn; [|done].
  destruct (Bridge.list_reply _ _ _ _) as [files|e]; cbn; [|done].
  unfold render, bind, gets, on_document, modify; cbn. by destruct files.
Qed.

Lemma loadDirectory_history path :
  keeps (fun st => (FileManager.history (App.fileManager st),
                    FileManager.historyIndex (App.fileManager st)))
        (loadDirectory b path).
Proof. frame. Qed.

Lemma loadDirectory_files path st :
  FileManager.files (App.fileManager (exec (loadDirectory b path) st)) =
  if truthy (App.currentSessionId st) then
    match Bridge.list_reply b (length (App.backend st)) (App.currentSessionId st) path with
    | Resolved files => files
    | Rejected _ => FileManager.files (App.fileManager st)
    end
  else FileManager.files (App.fileManager st).
Proof.
  unfold exec, loadDirectory, bind, gets, try_catch, invoke, on_document, modify.
  cbn. destruct (truthy (App.currentSessionId st)); cbn; [|done].
  destruct (Bridge.list_reply _ _ _ _) as [files|e]; cbn; [|done].
  unfold render, bind, gets, on_document, modify; cbn. by destruct files.
Qed.

Lemma setState_fileManager state sessionId st :
  let fm := App.fileManager (exec (setState b state sessionId) st) in
  FileManager.currentPath fm = restored state /\
  FileManager.history fm = Snapshot.history state /\
  FileManager.historyIndex fm =
    match Snapshot.historyIndex state with Some n => n | None => (-1)%Z end.
Proof.
  unfold setState, exec, bind at 1, on_fileManager, modify.
  unfold bind, gets. cbn -[loadDirectory].
  case_decide; cbn -[loadDirectory]; [|done].
  split; [by apply loadDirectory_currentPath|].
  pose proof (loadDirectory_history (restored state)) as Hk. unfold keeps, exec in Hk.
  match goal with |- context [loadDirectory b _ ?s] => specialize (Hk s) end.
  cbn -[loadDirectory] in Hk. by simplify_eq.
Qed.

Lemma setState_backend state sessionId st :
  App.currentSessionId st = Some sessionId ->
  App.backend (exec (setState b state sessionId) st) =
  App.backend st ++ fetch (Some sessionId) (restored state).
Proof.
  intros H.
  unfold setState, exec, bind at 1, on_fileManager, modify.
  unfold bind, gets. cbn -[loadDirectory]. rewrite H, decide_True by done.
  cbn -[loadDirectory].
  match goal with |- context [loadDirectory b ?p ?s] =>
    pose proof (loadDirectory_backend p s) as H' end.
  unfold exec in H'. rewrite H'. cbn. by rewrite H.
Qed.

Lemma setState_files state sessionId st :
  App.currentSessionId st = Some sessionId ->
  FileManager.files (App.fileManager (exec (setState b state sessionId) st)) =
  if truthy (Some sessionId) then
    match Bridge.list_reply b (length (App.backend st)) (Some sessionId) (restored state) with
    | Resolved files => files
    | Rejected _ => FileManager.files (App.fileManager st)
    end
  else FileManager.files (App.fileManager st).
Proof.
  intros H.
  unfold setState, exec, bind at 1, on_fileManager, modify.
  unfold bind, gets. cbn -[loadDirectory truthy]. rewrite H, decide_True by done.
  cbn -[loadDirectory truthy].
  match goal with |- context [loadDirectory b ?p ?s] =>
    pose proof (loadDirectory_files p s) as H' end.
  unfold exec in H'. rewrite H'. cbn -[truthy]. by rewrite H.
Qed.

(** *** Frames and effects of [activate] *)

Lemma activate_sessions sessionId session :
  keeps App.sessions (activate b sessionId session).
Proof. frame. Qed.

Lemma activate_currentSessionId sessionId session :
  keeps App.currentSessionId (activate b sessionId session).
Proof. frame. Qed.

Lemma activate_rest sessionId session :
  keeps (fun st => (App.console st, App.allocated st, App.connections st,
                    App.currentConnectionId st))
        (activate b sessionId session).
Proof. frame. Qed.

Lemma activate_split sessionId session st :
  exec (activate b sessionId session) st =
  exec (setStatus "connected" ("Connected to " +:+ Session.name session) >>
        updateTabsUI >>
        match TerminalManager.terminal (Session.terminalManager session) with
        | Some terminal =>
          call (TermFocus terminal) >> fit (Session.terminalManager session)
        | None => ret tt
        end)
       (exec (setState b (Session.fileManagerState session) sessionId) st).
Proof. reflexivity. Qed.

Lemma activate_fileManager sessionId session st :
  App.fileManager (exec (activate b sessionId session) st) =
  App.fileManager (exec (setState b (Session.fileManagerState session) sessionId) st).
Proof.
  rewrite activate_split.
  match goal with |- App.fileManager (exec ?m ?s) = _ =>
    assert (keeps App.fileManager m) as H by frame; apply H end.
Qed.

Lemma activate_backend sessionId session st :
  App.backend (exec (activate b sessionId session) st) =
  App.backend (exec (setState b (Session.fileManagerState session) sessionId) st).
Proof.
  rewrite activate_split.
  match goal with |- App.backend (exec ?m ?s) = _ =>
    assert (keeps App.backend m) as H by frame; apply H end.
Qed.

Lemma activate_xterm sessionId session st :
  App.xterm (exec (activate b sessionId session) st) =
  App.xterm st ++ focus_calls session.
Proof.
  rewrite activate_split.
  assert (keeps App.xterm (setState b (Session.fileManagerState session) sessionId)) as H
    by frame.
  rewrite <- (H st). generalize (exec (setState b (Session.fileManagerState session) sessionId) st).
  intros st'. unfold focus_calls, fit.
  unfold exec, bind, setStatus, on_document, modify. cbn -[updateTabsUI].
  assert (keeps App.xterm updateTabsUI) as H' by frame.
  unfold keeps, exec in H'.
  match goal with |- context [updateTabsUI ?s] =>
    specialize (H' s); rewrite (safe_updateTabsUI s) in *; cbn in H' end.
  destruct (TerminalManager.terminal _); cbn; [|by rewrite app_nil_r].
  destruct (TerminalManager.fitAddon _); cbn; rewrite H'; [|done].
  by rewrite <- app_assoc.
Qed.

End Restore.

Lemma delete_alter {A} (f : A -> A) i (l : list A) :
  delete i (alter f i l) = delete i l.
Proof. revert i. induction l as [|x l IH]; intros [|i]; csimpl; rewrite ?IH; done. Qed.

Lemma seq4_run {C} (m1 m2 m3 m4 : Js unit) (k : Js C) st st' :
  (m1 >> m2 >> m3 >> m4) st = (Returned tt, st') ->
  (m1 >> m2 >> m3 >> m4 >> k) st = k st'.
Proof.
  unfold bind.
  destruct (m1 st) as [[[]|e1] s1]; [|done].
  destruct (m2 s1) as [[[]|e2] s2]; [|done].
  destruct (m3 s2) as [[[]|e3] s3]; [|done].
  destruct (m4 s3) as [[[]|e4] s4]; [|done].
  by intros [= ->].
Qed.

Lemma ids_delete i l : ids (delete i l) = delete i (ids l).
Proof. apply list_fmap_delete. Qed.

Section CloseSession.
Variable b : Bridge.t.

(** *** The two halves of [closeSession] *)

Lemma teardown_run sessionId i session st :
  App.sessions st !! i = Some session ->
  teardown b sessionId i st = (Returned tt, torn_down b sessionId i session st).
Proof.
  intros Hi. unfold teardown, torn_down, dispose_calls, disconnect_log, unmount.
  unfold destroy, container_remove, bind, try_catch, invoke, log, call, deref,
    on_session, on_document, modify.
  destruct st as [l cur cc conns fm doc be co xt al]; cbn in *.
  destruct (Bridge.disconnect_reply b (length be) sessionId) as [[]|e]; cbn;
    rewrite Hi;
    destruct (TerminalManager.resizeObserver (Session.terminalManager session));
    destruct (TerminalManager.terminal (Session.terminalManager session)); cbn;
    rewrite ?list_lookup_alter_eq, ?Hi; cbn;
    rewrite ?delete_alter, ?app_nil_r, <- ?app_assoc; reflexivity.
Qed.

Lemma closeSession_unknown sessionId st :
  findIndex sessionId (App.sessions st) = None ->
  closeSession b sessionId st = (Returned tt, st).
Proof. intros H. unfold closeSession, bind, gets. by rewrite H. Qed.

Lemma closeSession_found sessionId i session st :
  findIndex sessionId (App.sessions st) = Some i ->
  App.sessions st !! i = Some session ->
  closeSession b sessionId st = successor b i (torn_down b sessionId i session st).
Proof.
  intros H Hi.
  pose proof (teardown_run sessionId i session st Hi) as Ht.
  unfold closeSession. unfold bind at 1, gets at 1. rewrite H.
  unfold teardown in Ht. apply (seq4_run _ _ _ _ _ _ _ Ht).
Qed.

Lemma successor_empty i st :
  App.sessions st = [] ->
  successor b i st =
    (Returned tt, exec (handleDisconnect >> updateTabsUI) (App.with_currentSessionId None st)).
Proof.
  intros H. unfold successor, bind at 1, gets at 1. rewrite H. cbn [length Nat.ltb Nat.leb].
  rewrite (bind_run (modify (App.with_currentSessionId None)) _ st tt
             (App.with_currentSessionId None st) eq_refl).
  assert (safe (handleDisconnect >> updateTabsUI)) as Hs by safe.
  apply Hs.
Qed.

Lemma successor_next i st nextSession :
  App.sessions st !! previous i = Some nextSession ->
  successor b i st = switchSession b (Session.id nextSession) st.
Proof.
  intros H. unfold successor, bind at 1, gets at 1.
  assert (Nat.ltb 0 (length (App.sessions st)) = true) as ->.
  { apply Nat.ltb_lt. apply lookup_lt_Some in H. lia. }
  unfold bind, deref. by rewrite H.
Qed.

Lemma successor_cases i st :
  i <= length (App.sessions st) ->
  (App.sessions st = [] /\
   successor b i st =
     (Returned tt, exec (handleDisconnect >> updateTabsUI) (App.with_currentSessionId None st))) \/
  (exists nextSession,
     App.sessions st !! previous i = Some nextSession /\
     successor b i st = switchSession b (Session.id nextSession) st).
Proof.
  intros Hle. destruct (length (App.sessions st)) as [|k] eqn:E.
  - left. apply length_zero_iff_nil in E. split; [done|]. by apply successor_empty.
  - right. destruct (lookup_lt_is_Some_2 (App.sessions st) (previous i)) as [n Hn].
    { rewrite previous_pred. lia. }
    exists n. split; [done|]. by apply successor_next.
Qed.

Lemma torn_down_bound sessionId i session st :
  App.sessions st !! i = Some session ->
  i <= length (App.sessions (torn_down b sessionId i session st)).
Proof.
  intros Hs. cbn. rewrite length_delete by eauto. apply lookup_lt_Some in Hs. lia.
Qed.

Lemma safe_closeSession sessionId : safe (closeSession b sessionId).
Proof.
  intros st.
  destruct (findIndex sessionId (App.sessions st)) as [i|] eqn:E.
  - destruct (findIndex_lookup _ _ _ E) as (s & Hs & _).
    pose proof (closeSession_found _ _ _ _ E Hs) as Hc.
    destruct (successor_cases i (torn_down b sessionId i s st) (torn_down_bound _ _ _ _ Hs))
      as [[_ Heq]|(n & _ & Heq)]; rewrite Heq in Hc.
    + by eapply safe_at.
    + rewrite (safe_switchSession b) in Hc. by eapply safe_at.
  - eapply safe_at. by apply closeSession_unknown.
Qed.

(** *** The registry after [closeSession] *)

Lemma handleDisconnect_currentSessionId st :
  App.currentSessionId (exec handleDisconnect st) = None.
Proof.
  unfold handleDisconnect, exec.
  rewrite (bind_run (modify (App.with_currentSessionId None)) _ st tt
             (App.with_currentSessionId None st) eq_refl).
  match goal with |- App.currentSessionId (snd (?m ?s)) = _ =>
    assert (keeps App.currentSessionId m) as Hk by frame; apply (Hk s) end.
Qed.

Lemma empty_state_currentSessionId st :
  App.currentSessionId (exec (handleDisconnect >> updateTabsUI) st) = None.
Proof.
  rewrite exec_bind_safe by apply safe_handleDisconnect.
  assert (keeps App.currentSessionId updateTabsUI) as Hk by frame.
  rewrite Hk. apply handleDisconnect_currentSessionId.
Qed.

Lemma switchSession_ids sessionId st :
  ids (App.sessions (exec (switchSession b sessionId) st)) = ids (App.sessions st).
Proof.
  unfold exec. destruct (findIndex sessionId (App.sessions st)) as [new|] eqn:E.
  - destruct (switchSession_found b _ _ _ E) as (s & _ & ->). cbn.
    rewrite activate_sessions. cbn. apply ids_switched.
  - by rewrite switchSession_unknown.
Qed.

Lemma switchSession_currentSessionId sessionId st new :
  findIndex sessionId (App.sessions st) = Some new ->
  App.currentSessionId (exec (switchSession b sessionId) st) = Some sessionId.
Proof.
  intros E. unfold exec.
  destruct (switchSession_found b _ _ _ E) as (s & _ & ->). cbn.
  by rewrite activate_currentSessionId.
Qed.

Lemma switchSession_sessions sessionId st new :
  findIndex sessionId (App.sessions st) = Some new ->
  App.sessions (exec (switchSession b sessionId) st) = switched new st.
Proof.
  intros E. unfold exec.
  destruct (switchSession_found b _ _ _ E) as (s & _ & ->). cbn.
  by rewrite activate_sessions.
Qed.

Lemma closeSession_ids sessionId i st :
  findIndex sessionId (App.sessions st) = Some i ->
  ids (App.sessions (exec (closeSession b sessionId) st)) = delete i (ids (App.sessions st)).
Proof.
  intros E. destruct (findIndex_lookup _ _ _ E) as (s & Hs & _).
  unfold exec. rewrite (closeSession_found _ _ _ _ E Hs).
  destruct (successor_cases i (torn_down b sessionId i s st) (torn_down_bound _ _ _ _ Hs))
    as [[He Heq]|(n & Hn & Heq)]; rewrite Heq.
  - cbn [snd].
    assert (keeps App.sessions (handleDisconnect >> updateTabsUI)) as Hk by frame.
    rewrite Hk. change (ids (delete i (App.sessions st)) = delete i (ids (App.sessions st))).
    apply ids_delete.
  - pose proof (switchSession_ids (Session.id n) (torn_down b sessionId i s st)) as H.
    unfold exec in H. rewrite H. apply ids_delete.
Qed.

Lemma closeSession_currentSessionId sessionId i st :
  findIndex sessionId (App.sessions st) = Some i ->
  App.currentSessionId (exec (closeSession b sessionId) st) =
  delete i (ids (App.sessions st)) !! previous i.
Proof.
  intros E. destruct (findIndex_lookup _ _ _ E) as (s & Hs & _).
  unfold exec. rewrite (closeSession_found _ _ _ _ E Hs).
  destruct (successor_cases i (torn_down b sessionId i s st) (torn_down_bound _ _ _ _ Hs))
    as [[He Heq]|(n & Hn & Heq)]; rewrite Heq.
  - cbn [snd]. rewrite empty_state_currentSessionId.
    change (App.sessions (torn_down b sessionId i s st)) with (delete i (App.sessions st)) in He.
    rewrite <- ids_delete, He. reflexivity.
  - assert (exists new, findIndex (Session.id n) (App.sessions (torn_down b sessionId i s st)) = Some new)
      as [new Hnew].
    { apply elem_of_findIndex. unfold ids. apply list_elem_of_fmap. exists n.
      split; [done|]. by eapply list_elem_of_lookup_2. }
    pose proof (switchSession_currentSessionId _ _ _ Hnew) as H. unfold exec in H.
    rewrite H.
    change (App.sessions (torn_down b sessionId i s st)) with (delete i (App.sessions st)) in Hn.
    rewrite <- ids_delete. unfold ids. rewrite list_lookup_fmap, Hn. reflexivity.
Qed.

End CloseSession.

(** ** Consistency: frames and [switchSession] *)

Lemma placeholder_kind_is_Some st st' :
  placeholder_kind st' = placeholder_kind st ->
  is_Some (placeholder st) -> is_Some (placeholder st').
Proof.
  unfold placeholder_kind, placeholder. intros H [x Hx]. rewrite Hx in H.
  destruct (Document.terminal_placeholder (App.document st')); [eauto|done].
Qed.

(** A step that leaves registry, pointer and placeholder alone. *)
Lemma Consistent_frame st st' :
  App.sessions st' = App.sessions st ->
  App.currentSessionId st' = App.currentSessionId st ->
  placeholder st' = placeholder st ->
  Consistent st -> Consistent st'.
Proof. intros Hs Hc Hp [? ? ? ? ? ? ?]. split; rewrite ?Hs, ?Hc, ?Hp; done. Qed.

(** A step on a state with an active session that may restyle the
    placeholder. *)
Lemma Consistent_frame_active st st' c :
  App.sessions st' = App.sessions st ->
  App.currentSessionId st' = App.currentSessionId st ->
  App.currentSessionId st = Some c ->
  placeholder_kind st' = placeholder_kind st ->
  Consistent st -> Consistent st'.
Proof.
  intros Hs Hc Ha Hp [? ? ? ? ? ? ?]. split; rewrite ?Hs, ?Hc; try done.
  - rewrite Ha. done.
  - by eapply placeholder_kind_is_Some.
Qed.

Lemma lookup_unique l i j s s' :
  NoDup (ids l) -> l !! i = Some s -> l !! j = Some s' ->
  Session.id s = Session.id s' -> i = j.
Proof.
  intros Hnd Hi Hj Heq. eapply (NoDup_lookup (ids l)); [done|..];
    unfold ids; rewrite list_lookup_fmap.
  - by rewrite Hi.
  - rewrite Hj. simpl. by rewrite Heq.
Qed.

Section Consistency.
Variable b : Bridge.t.

Lemma live_set_display d s : live s -> live (Session.set_display d s).
Proof. done. Qed.

Lemma live_with_fileManagerState f s : live s -> live (Session.with_fileManagerState f s).
Proof. done. Qed.

Lemma switched_lookup new st j :
  switched new st !! j =
  (fun s =>
     let s1 := if bool_decide (findNullable (App.currentSessionId st) (App.sessions st) = Some j)
               then Session.with_fileManagerState (getState (App.fileManager st))
                      (Session.set_display "none" s)
               else s in
     if bool_decide (new = j) then Session.set_display "block" s1 else s1)
  <$> App.sessions st !! j.
Proof.
  unfold switched, deactivate. rewrite list_lookup_alter.
  destruct (findNullable _ _) as [old|]; rewrite ?list_lookup_alter;
    destruct (App.sessions st !! j) as [s|] eqn:E; simpl;
    repeat case_decide; simplify_eq/=; rewrite ?E; simpl;
    repeat case_bool_decide; simplify_eq/=; done.
Qed.

(** [switchSession] to a registered session establishes consistency, even
    from a state whose pointer dangles or whose target has no style yet. *)
Lemma switchSession_Consistent sessionId st new :
  findIndex sessionId (App.sessions st) = Some new ->
  NoDup (ids (App.sessions st)) ->
  "" ∉ ids (App.sessions st) ->
  Forall live (App.sessions st) ->
  (forall j s, App.sessions st !! j = Some s -> j <> new ->
     Container.display (Session.container s) = expected_display (App.currentSessionId st) s) ->
  is_Some (placeholder st) ->
  Consistent (exec (switchSession b sessionId) st).
Proof.
  intros Hnew Hnd Hne Hlive Hvis Hph.
  pose proof (switchSession_sessions b _ _ _ Hnew) as Hs.
  pose proof (switchSession_currentSessionId b _ _ _ Hnew) as Hc.
  pose proof (switchSession_ids b sessionId st) as Hids.
  destruct (findIndex_lookup _ _ _ Hnew) as (sn & Hsn & Hidn).
  split.
  - by rewrite Hids.
  - by rewrite Hids.
  - rewrite Hs. unfold switched, deactivate.
    apply Forall_alter; [|done].
    destruct (findNullable _ _); [|done].
    apply Forall_alter; [|done]. apply Forall_alter; done.
  - rewrite Hs, Hc. apply Forall_lookup. intros j s' Hj.
    rewrite switched_lookup in Hj. apply fmap_Some in Hj as (s & Hj & ->).
    unfold expected_display. cbn zeta.
    destruct (decide (new = j)) as [->|Hneq].
    + rewrite (bool_decide_true (j = j)) by done.
      assert (s = sn) as -> by congruence.
      destruct (bool_decide (findNullable _ _ = Some j)); simpl;
        rewrite bool_decide_true by congruence; done.
    + rewrite (bool_decide_false (new = j)) by done.
      assert (Session.id s <> sessionId) as Hid.
      { intros Heq. apply Hneq. eapply lookup_unique; eauto. congruence. }
      destruct (bool_decide (findNullable _ _ = Some j)) eqn:Hold; simpl.
      * rewrite bool_decide_false by congruence. done.
      * rewrite bool_decide_false by congruence.
        rewrite (Hvis j s Hj) by done. unfold expected_display.
        rewrite bool_decide_false; [done|].
        intros Hcur. apply bool_decide_eq_false in Hold. apply Hold.
        rewrite Hcur. simpl. by apply findIndex_NoDup.
  - intros c Hcc. rewrite Hc in Hcc. simplify_eq. rewrite Hids.
    by eapply findIndex_elem_of.
  - rewrite Hc. done.
  - eapply placeholder_kind_is_Some; [|done].
    unfold exec. destruct (switchSession_found b _ _ _ Hnew) as (s & _ & ->). cbn.
    assert (keeps placeholder_kind (activate b sessionId s)) as Hk
      by (unfold placeholder_kind; frame).
    rewrite Hk. done.
Qed.

End Consistency.

(** ** [addSession] and [connect] *)

Section AddSession.
Variable b : Bridge.t.

Lemma addSession_run sessionId name st :
  addSession b sessionId name st =
  (switchSession b sessionId >>
   updateTabsUI >>
   on_document (fun d => Document.with_btn_disconnect
     ((fun _ => false) <$> Document.btn_disconnect d) d) >>
   detached (loadInitialFiles b sessionId)) (pushed sessionId name st).
Proof.
  unfold addSession, TerminalManager_init.
  unfold bind at 1, alloc at 1. unfold bind at 1, on_document at 1, modify at 1.
  unfold bind at 1. unfold bind at 1, alloc at 1. unfold bind at 1, alloc at 1.
  unfold bind at 1, call at 1, modify at 1. unfold bind at 1, alloc at 1.
  unfold bind at 1, call at 1, modify at 1. unfold bind at 1, call at 1, modify at 1.
  unfold ret. unfold bind at 1, modify at 1.
  f_equal. destruct st. unfold pushed. cbn. f_equal.
  by rewrite <- !app_assoc.
Qed.

Lemma safe_addSession sessionId name : safe (addSession b sessionId name).
Proof.
  intros st. eapply safe_at. rewrite addSession_run.
  match goal with |- ?m ?s = _ => assert (safe m) as Hm end.
  { apply safe_bind; [apply safe_switchSession|]. safe. }
  apply Hm.
Qed.

Lemma connect_unknown id st :
  find_connection id st = None -> connect b id st = (Returned tt, st).
Proof. intros H. unfold connect, bind, gets. by rewrite H. Qed.

Lemma connect_rejected id connection e st :
  find_connection id st = Some connection ->
  Bridge.connect_reply b (length (App.backend st)) (Connection.id connection) = Rejected e ->
  connect b id st = (Returned tt, refused id connection e st).
Proof.
  intros H Hr. unfold connect, bind at 1, gets at 1. rewrite H.
  unfold bind, try_catch, invoke, setStatus, hideModal, on_document, log, modify. cbn.
  rewrite Hr. destruct st. reflexivity.
Qed.

Lemma connect_resolved id connection sessionId st :
  find_connection id st = Some connection ->
  Bridge.connect_reply b (length (App.backend st)) (Connection.id connection) = Resolved sessionId ->
  exec (connect b id) st =
  exec (addSession b sessionId (or_else (Connection.name connection) (Connection.host connection)))
       (App.with_document
          (Document.with_status "status-dot connected"
             ("Connected to " +:+ Connection.host connection)
             (App.document (requested id connection st)))
          (requested id connection st)).
Proof.
  intros H Hr. unfold exec, connect, bind at 1, gets at 1. rewrite H.
  unfold bind at 1, modify at 1. unfold bind at 1, setStatus at 1, on_document at 1, modify at 1.
  unfold bind at 1, hideModal at 1, on_document at 1, modify at 1.
  unfold try_catch. unfold bind at 1, invoke at 1. cbn [App.backend App.with_document App.with_currentConnectionId].
  rewrite Hr. unfold bind at 1, setStatus at 1, on_document at 1, modify at 1.
  match goal with |- snd (match addSession b ?s ?n ?x with _ => _ end) = snd (addSession b ?s' ?n' ?y) =>
    replace x with y by (destruct st; reflexivity);
    rewrite (safe_addSession s n y); reflexivity
  end.
Qed.

End AddSession.

(** ** Every reachable state is consistent *)

Section Runs.
Variable b : Bridge.t.

Lemma Consistent_new doc conns :
  Document.terminal_placeholder doc = Some "flex" -> Consistent (App.new doc conns).
Proof.
  intros H. split; cbn; try done.
  all: try (by apply NoDup_nil_2).
  all: try (by apply not_elem_of_nil).
  all: unfold placeholder; cbn; rewrite H; eauto.
Qed.

Lemma switchSession_preserves sessionId st :
  Consistent st -> Consistent (exec (switchSession b sessionId) st).
Proof.
  intros Hc. destruct (findIndex sessionId (App.sessions st)) as [new|] eqn:E.
  - destruct Hc as [Hnd Hne Hlive Hvis Hcur Hemp Hph].
    eapply switchSession_Consistent; eauto.
    intros j s Hj _. eapply Forall_lookup_1 in Hvis; eauto.
  - unfold exec. by rewrite switchSession_unknown.
Qed.

Lemma placeholder_empty_state st :
  App.sessions st = [] ->
  placeholder (exec (handleDisconnect >> updateTabsUI) st) =
  (fun _ => "flex") <$> placeholder st.
Proof.
  intros He. rewrite exec_bind_safe by apply safe_handleDisconnect.
  assert (App.sessions (exec handleDisconnect st) = []) as He'.
  { assert (keeps App.sessions handleDisconnect) as Hk by frame. by rewrite Hk. }
  assert (placeholder (exec handleDisconnect st) = (fun _ => "flex") <$> placeholder st) as Hp.
  { unfold placeholder. destruct st as [? ? ? ? ? [] ? ? ? ?]. reflexivity. }
  revert He' Hp. generalize (exec handleDisconnect st). intros st' He' Hp.
  unfold placeholder in *.
  unfold exec, updateTabsUI, bind, gets, on_document, modify. cbn.
  destruct (Document.tabs_container (App.document st')); cbn; [|done].
  rewrite He'. cbn. rewrite Hp.
  by destruct (Document.terminal_placeholder (App.document st)).
Qed.

Lemma closeSession_preserves sessionId st :
  Consistent st -> Consistent (exec (closeSession b sessionId) st).
Proof.
  intros Hc. destruct (findIndex sessionId (App.sessions st)) as [i|] eqn:E.
  2:{ unfold exec. by rewrite closeSession_unknown. }
  destruct (findIndex_lookup _ _ _ E) as (s & Hs & _).
  unfold exec. rewrite (closeSession_found _ _ _ _ _ E Hs).
  destruct Hc as [Hnd Hne Hlive Hvis Hcur Hemp Hph].
  destruct (successor_cases b i (torn_down b sessionId i s st) (torn_down_bound _ _ _ _ _ Hs))
    as [[He Heq]|(n & Hn & Heq)]; rewrite Heq.
  - cbn [snd].
    assert (App.sessions (exec (handleDisconnect >> updateTabsUI)
              (App.with_currentSessionId None (torn_down b sessionId i s st))) = []) as Hl.
    { assert (keeps App.sessions (handleDisconnect >> updateTabsUI)) as Hk by frame.
      rewrite Hk. exact He. }
    pose proof (empty_state_currentSessionId
                  (App.with_currentSessionId None (torn_down b sessionId i s st))) as Hn.
    pose proof (placeholder_empty_state
                  (App.with_currentSessionId None (torn_down b sessionId i s st)) He) as Hp.
    change (placeholder (App.with_currentSessionId None (torn_down b sessionId i s st)))
      with (placeholder st) in Hp.
    destruct Hph as [x Hx]. rewrite Hx in Hp. simpl in Hp.
    split; rewrite ?Hl, ?Hn, ?Hp; try done.
    all: try (by apply NoDup_nil_2).
    all: try (by apply not_elem_of_nil).
    all: eauto.
  - change (App.sessions (torn_down b sessionId i s st)) with (delete i (App.sessions st)) in Hn.
    assert (NoDup (ids (delete i (App.sessions st)))) as Hnd'.
    { rewrite ids_delete. eapply sublist_NoDup; [done|apply sublist_delete]. }
    apply (switchSession_Consistent b _ _ (previous i)).
    + by apply findIndex_NoDup.
    + done.
    + cbn. rewrite ids_delete. intros Hin. apply Hne. by eapply list_elem_of_delete_inv.
    + cbn. by apply Forall_delete.
    + cbn. intros j s' Hj _.
      assert (s' ∈ App.sessions st) as Hin.
      { eapply list_elem_of_delete_inv. by eapply list_elem_of_lookup_2. }
      rewrite list.Forall_forall in Hvis. by apply Hvis.
    + done.
Qed.

Lemma loadInitialFiles_run sessionId st :
  App.currentSessionId st = Some sessionId ->
  exists path st0,
    exec (loadInitialFiles b sessionId) st = exec (loadDirectory b path) st0 /\
    App.sessions st0 = App.sessions st /\
    App.currentSessionId st0 = App.currentSessionId st /\
    placeholder_kind st0 = placeholder_kind st.
Proof.
  intros Hc.
  unfold loadInitialFiles, exec, try_catch, bind at 1, invoke.
  destruct (Bridge.get_home_reply _ _ _) as [homeDir|e].
  - exists homeDir, (App.with_backend (App.backend st ++ [sftp_get_home sessionId]) st).
    split; [|done].
    unfold bind, gets. cbn [App.currentSessionId App.with_backend]. rewrite Hc.
    rewrite decide_True by done.
    rewrite (safe_loadDirectory b homeDir _). reflexivity.
  - exists "/", (App.with_console
                   (App.console st ++ [console_warn "Failed to get home directory" e])
                   (App.with_backend (App.backend st ++ [sftp_get_home sessionId]) st)).
    split; [|done].
    unfold bind at 1, log, modify. unfold bind, gets.
    cbn [App.currentSessionId App.with_backend App.with_console]. rewrite Hc.
    rewrite decide_True by done. reflexivity.
Qed.

Lemma loadInitialFiles_active sessionId st :
  App.currentSessionId st = Some sessionId ->
  App.sessions (exec (loadInitialFiles b sessionId) st) = App.sessions st /\
  App.currentSessionId (exec (loadInitialFiles b sessionId) st) = App.currentSessionId st /\
  placeholder_kind (exec (loadInitialFiles b sessionId) st) = placeholder_kind st.
Proof.
  intros Hc. destruct (loadInitialFiles_run _ _ Hc) as (p & st0 & -> & H1 & H2 & H3).
  assert (keeps (fun st => (App.sessions st, App.currentSessionId st, placeholder_kind st))
                (loadDirectory b p)) as Hk
    by (unfold placeholder_kind; frame).
  specialize (Hk st0). simpl in Hk. simplify_eq. by rewrite <- H1, <- H2, <- H3.
Qed.

Lemma live_fresh_session sessionId name h : live (fresh_session sessionId name h).
Proof. split; cbn; eauto. Qed.

Lemma addSession_Consistent sessionId name st :
  Consistent st -> sessionId <> "" -> sessionId ∉ ids (App.sessions st) ->
  Consistent (exec (addSession b sessionId name) st).
Proof.
  intros [Hnd Hne Hlive Hvis Hcur Hemp Hph] Hid Hfresh.
  unfold exec. rewrite addSession_run.
  fold (exec (switchSession b sessionId >> updateTabsUI >>
          on_document (fun d => Document.with_btn_disconnect
            ((fun _ => false) <$> Document.btn_disconnect d) d) >>
          detached (loadInitialFiles b sessionId)) (pushed sessionId name st)).
  rewrite exec_bind_safe by apply safe_switchSession.
  assert (findIndex sessionId (App.sessions (pushed sessionId name st)) =
          Some (length (App.sessions st))) as Hnew.
  { cbn. apply (findIndex_app_fresh _ (fresh_session sessionId name (App.allocated st))).
    done. }
  assert (Consistent (exec (switchSession b sessionId) (pushed sessionId name st))) as Hc.
  { eapply switchSession_Consistent; [exact Hnew|..]; cbn.
    - unfold ids. rewrite fmap_app. apply list.NoDup_app. split_and!; [done| |apply NoDup_singleton].
      intros x Hx Hx'. apply list_elem_of_singleton in Hx'. simpl in Hx'. by subst.
    - unfold ids. rewrite fmap_app. intros [?|Hx]%elem_of_app; [done|].
      apply list_elem_of_singleton in Hx. simpl in Hx. by subst.
    - apply Forall_app_2; [done|]. constructor; [apply live_fresh_session|constructor].
    - intros j s Hj Hneq. rewrite lookup_app_l in Hj.
      + eapply Forall_lookup_1 in Hvis; eauto.
      + apply lookup_lt_Some in Hj. rewrite length_app in Hj. simpl in Hj. lia.
    - done. }
  pose proof (switchSession_currentSessionId b _ _ _ Hnew) as Hcs.
  revert Hc Hcs. generalize (exec (switchSession b sessionId) (pushed sessionId name st)).
  intros st1 Hc Hcs.
  rewrite exec_bind_safe by apply safe_updateTabsUI.
  rewrite exec_bind_safe by (unfold on_document; apply safe_modify).
  assert (keeps (fun st => (App.sessions st, App.currentSessionId st, placeholder_kind st))
            updateTabsUI) as Hk1 by (unfold placeholder_kind; frame).
  specialize (Hk1 st1). cbv beta in Hk1.
  revert Hk1. generalize (exec updateTabsUI st1). intros st2 Hk1.
  assert (keeps (fun st => (App.sessions st, App.currentSessionId st, placeholder_kind st))
            (on_document (fun d => Document.with_btn_disconnect
              ((fun _ => false) <$> Document.btn_disconnect d) d))) as Hk2
    by (unfold placeholder_kind; frame).
  specialize (Hk2 st2). cbv beta in Hk2.
  revert Hk2. generalize (exec (on_document (fun d => Document.with_btn_disconnect
              ((fun _ => false) <$> Document.btn_disconnect d) d)) st2). intros st3 Hk2.
  simplify_eq.
  change (exec (detached (loadInitialFiles b sessionId)) st3)
    with (exec (loadInitialFiles b sessionId) st3).
  destruct (loadInitialFiles_active sessionId st3) as (Hl1 & Hl2 & Hl3); [congruence|].
  eapply (Consistent_frame_active st1 _ sessionId); [congruence..|done].
Qed.

Lemma connect_preserves id st :
  Consistent st -> fresh_id b st (Connect id) ->
  Consistent (exec (connect b id) st).
Proof.
  intros Hc Hf. destruct (find_connection id st) as [c|] eqn:E.
  2:{ unfold exec. by rewrite connect_unknown. }
  assert (Connection.id c = id) as Hid.
  { unfold find_connection in E. apply fmap_Some in E as ([j c'] & E & ->).
    apply list_find_Some in E. by destruct E as (_ & ? & _). }
  destruct (Bridge.connect_reply b (length (App.backend st)) (Connection.id c)) as [sid|e] eqn:Er.
  - rewrite (connect_resolved b _ _ _ _ E Er).
    rewrite Hid in Er. destruct (Hf sid Er) as [Hne Hfresh].
    apply addSession_Consistent; [|done|done].
    eapply Consistent_frame; [..|exact Hc]; reflexivity.
  - unfold exec. rewrite (connect_rejected b _ _ _ _ E Er). cbn [snd].
    eapply Consistent_frame; [..|exact Hc]; reflexivity.
Qed.

Lemma on_ssh_data_preserves payload st :
  Consistent st -> Consistent (exec (on_ssh_data payload) st).
Proof.
  intros Hc.
  assert (keeps (fun st => (App.sessions st, App.currentSessionId st, placeholder st))
            (on_ssh_data payload)) as Hk by (unfold placeholder; frame).
  specialize (Hk st). simpl in Hk. simplify_eq.
  eapply Consistent_frame; [..|exact Hc]; done.
Qed.

Lemma on_ssh_error_preserves payload st :
  Consistent st -> Consistent (exec (on_ssh_error payload) st).
Proof.
  intros Hc.
  assert (keeps (fun st => (App.sessions st, App.currentSessionId st, placeholder st))
            (on_ssh_error payload)) as Hk by (unfold placeholder; frame).
  specialize (Hk st). simpl in Hk. simplify_eq.
  eapply Consistent_frame; [..|exact Hc]; done.
Qed.

Lemma perform_preserves a st :
  Consistent st -> fresh_id b st a -> Consistent (exec (perform b a) st).
Proof.
  intros Hc Hf. destruct a; simpl.
  - by apply connect_preserves.
  - by apply switchSession_preserves.
  - by apply closeSession_preserves.
  - by apply on_ssh_data_preserves.
  - by apply on_ssh_error_preserves.
  - by apply closeSession_preserves.
Qed.

Lemma Reachable_Consistent st : Reachable b st -> Consistent st.
Proof.
  induction 1 as [doc conns H|st a _ IH Hf].
  - by apply Consistent_new.
  - by apply perform_preserves.
Qed.

End Runs.

(** ** Claims *)

(** C9. For an id that is not in the Registry, [switchSession] and
    [closeSession] return normally and leave the whole state as it was. *)
Theorem unknown_id_is_noop (b : Bridge.t) (st : App.t) (sessionId : string) :
  sessionId ∉ ids (App.sessions st) ->
  switchSession b sessionId st = (Returned tt, st) /\
  closeSession b sessionId st = (Returned tt, st).
Proof.
  intros H%findIndex_None. split.
  - by apply switchSession_unknown.
  - by apply closeSession_unknown.
Qed.

(** Witness of C9: the id ["Z"] with the sessions [A, B, C]. *)
Lemma unknown_id_is_noop_witness :
  ("Z" ∉ ids (App.sessions (Sample.abc Sample.bridge))) /\
  switchSession Sample.bridge "Z" (Sample.abc Sample.bridge) =
    (Returned tt, Sample.abc Sample.bridge) /\
  closeSession Sample.bridge "Z" (Sample.abc Sample.bridge) =
    (Returned tt, Sample.abc Sample.bridge).
Proof.
  assert ("Z" ∉ ids (App.sessions (Sample.abc Sample.bridge))) as H.
  { apply findIndex_None. vm_compute. reflexivity. }
  split; [exact H|]. exact (unknown_id_is_noop _ _ _ H).
Defined.

(** C4. The listener of the [ssh-close] push event makes exactly the state
    transition of [closeSession] on the id of the event, and so does the
    click on the close box of a tab: nothing happens for an id that is not
    registered, and otherwise the session at position [max(0, i-1)] of the
    remaining order is activated. *)
Theorem closed_event_is_closeSession (b : Bridge.t) (payload : Payload.t) (tab : Tab.t)
    (st : App.t) :
  on_ssh_close b payload st = closeSession b (Payload.sessionId payload) st /\
  on_tab_close_click b tab st = closeSession b (Tab.target tab) st /\
  (Payload.sessionId payload ∉ ids (App.sessions st) ->
   on_ssh_close b payload st = (Returned tt, st)) /\
  (forall i, findIndex (Payload.sessionId payload) (App.sessions st) = Some i ->
   App.currentSessionId (exec (on_ssh_close b payload) st) =
   delete i (ids (App.sessions st)) !! previous i).
Proof.
  assert (forall sessionId, detached (closeSession b sessionId) st = closeSession b sessionId st)
    as Heq by (intros sessionId; unfold detached; symmetry; apply safe_closeSession).
  unfold on_ssh_close, on_tab_close_click. split_and!.
  - apply Heq.
  - apply Heq.
  - intros H%findIndex_None. rewrite Heq. by apply closeSession_unknown.
  - intros i Hi. unfold exec. rewrite Heq. by apply closeSession_currentSessionId.
Qed.

(** C1, as amended. Closing a registered session that is not the active
    one removes its record and then activates the session at position
    [max(0, i-1)] of the remaining tab order, as it does for the active one;
    the Active Session Pointer stays as it was only when that session was
    the active one already. *)
Theorem close_background_session (b : Bridge.t) (st : App.t) (sessionId : string) (i : nat) :
  findIndex sessionId (App.sessions st) = Some i ->
  App.currentSessionId st <> Some sessionId ->
  let st' := exec (closeSession b sessionId) st in
  let remaining := delete i (ids (App.sessions st)) in
  completion (closeSession b sessionId) st = Returned tt /\
  ids (App.sessions st') = remaining /\
  App.currentSessionId st' = remaining !! previous i /\
  (App.currentSessionId st' = App.currentSessionId st <->
   remaining !! previous i = App.currentSessionId st).
Proof.
  intros H _. cbn zeta. split_and!.
  - unfold completion. by rewrite safe_closeSession.
  - by apply closeSession_ids.
  - by apply closeSession_currentSessionId.
  - by rewrite (closeSession_currentSessionId b _ _ _ H).
Qed.

(** C7, as amended. When the backend rejects [ssh_connect], [connect]
    returns normally: the status indicator shows the reason, the console
    gets it, the profile id is kept in [currentConnectionId] and the
    connection dialog is hidden; registry, pointer, Directory Browser and
    terminals are untouched. *)
Theorem connect_refused (b : Bridge.t) (st : App.t) (id e : string) (connection : Connection.t) :
  find_connection id st = Some connection ->
  Bridge.connect_reply b (length (App.backend st)) (Connection.id connection) = Rejected e ->
  let st' := exec (connect b id) st in
  completion (connect b id) st = Returned tt /\
  st' = refused id connection e st /\
  App.sessions st' = App.sessions st /\
  App.currentSessionId st' = App.currentSessionId st /\
  App.fileManager st' = App.fileManager st /\
  App.xterm st' = App.xterm st /\
  App.currentConnectionId st' = Some id /\
  Document.status_dot (App.document st') = "status-dot error" /\
  Document.status_text (App.document st') = "Connection failed: " +:+ e /\
  App.console st' = App.console st ++ [console_error "" e].
Proof.
  intros H Hr. cbn zeta. unfold exec, completion.
  rewrite (connect_rejected b _ _ _ _ H Hr). done.
Qed.

Section Routing.
Variable b : Bridge.t.



End Routing.


Lemma set_display_same s :
  Container.display (Session.container s) = "block" ->
  Session.set_display "block" s = s.
Proof. destruct s as [? ? ? [] ?]. simpl. by intros ->. Qed.

Section Effects.
Variable b : Bridge.t.

Lemma switched_target new st s :
  App.sessions st !! new = Some s ->
  exists s', switched new st !! new = Some s' /\
    Session.id s' = Session.id s /\
    Session.name s' = Session.name s /\
    Session.terminalManager s' = Session.terminalManager s /\
    Container.display (Session.container s') = "block" /\
    Session.fileManagerState s' =
      (if bool_decide (findNullable (App.currentSessionId st) (App.sessions st) = Some new)
       then getState (App.fileManager st) else Session.fileManagerState s).
Proof.
  intros H. rewrite switched_lookup, H. simpl. eexists. split; [done|].
  rewrite bool_decide_true by done. by case_bool_decide.
Qed.






(** The effect of [switchSession] on the Directory Browser, the bridge and
    the terminal of the target. *)
Lemma switchSession_restores sessionId st new s :
  findIndex sessionId (App.sessions st) = Some new ->
  App.sessions st !! new = Some s ->
  let state :=
    if bool_decide (findNullable (App.currentSessionId st) (App.sessions st) = Some new)
    then getState (App.fileManager st) else Session.fileManagerState s in
  let st' := exec (switchSession b sessionId) st in
  FileManager.currentPath (App.fileManager st') = restored state /\
  FileManager.history (App.fileManager st') = Snapshot.history state /\
  FileManager.historyIndex (App.fileManager st') =
    match Snapshot.historyIndex state with Some n => n | None => (-1)%Z end /\
  FileManager.files (App.fileManager st') =
    (if truthy (Some sessionId) then
       match Bridge.list_reply b (length (App.backend st)) (Some sessionId) (restored state) with
       | Resolved files => files
       | Rejected _ => FileManager.files (App.fileManager st)
       end
     else FileManager.files (App.fileManager st)) /\
  App.backend st' = App.backend st ++ fetch (Some sessionId) (restored state) /\
  App.xterm st' = App.xterm st ++ focus_calls s.
Proof.
  intros Hnew Hs. cbn zeta.
  destruct (switched_target new st s Hs) as (s' & Hs' & _ & _ & Htm & _ & Hfms).
  unfold exec. destruct (switchSession_found b _ _ _ Hnew) as (s'' & Hs'' & ->).
  assert (s'' = s') as -> by congruence. cbn [snd].
  rewrite activate_fileManager, activate_backend, activate_xterm.
  set (st1 := App.with_sessions (switched new st)
                (App.with_currentSessionId (Some sessionId) st)).
  assert (App.currentSessionId st1 = Some sessionId) as Hc by done.
  pose proof (setState_fileManager b (Session.fileManagerState s') sessionId st1) as (H1 & H2 & H3).
  rewrite (setState_backend b _ _ _ Hc), (setState_files b _ _ _ Hc).
  rewrite H1, H2, H3, Hfms. split_and!; try done.
  unfold focus_calls. by rewrite Htm.
Qed.

End Effects.

Section Lifecycle.
Variable b : Bridge.t.





End Lifecycle.

Lemma fresh_idb_sound b st a : fresh_idb b st a = true -> fresh_id b st a.
Proof.
  destruct a as [id| | | | |]; simpl; try done.
  intros H sessionId Hr. rewrite Hr in H.
  apply andb_true_iff in H as [H1 H2].
  split.
  - intros ->. done.
  - rewrite forallb_forall in H2. intros Hin%list_elem_of_In.
    specialize (H2 _ Hin). by rewrite String.eqb_refl in H2.
Qed.

Lemma run_reachable b actions st :
  Reachable b st -> admissible b actions st = true ->
  Reachable b (Sample.run b actions st).
Proof.
  revert st. induction actions as [|a rest IH]; intros st Hr Ha; simpl in *; [done|].
  apply andb_true_iff in Ha as [H1 H2].
  apply IH; [|done]. apply Reachable_step; [done|]. by apply fresh_idb_sound.
Qed.

Lemma start_reachable b : Reachable b Sample.start.
Proof. by apply Reachable_new. Qed.





(** Witness of C1 as amended: [C] is closed while [A] is active in
    [A, B, C]. *)
Lemma close_background_session_witness :
  findIndex "C" (App.sessions (Sample.abc_on Sample.bridge "A")) = Some 2 /\
  App.currentSessionId (Sample.abc_on Sample.bridge "A") <> Some "C" /\
  ids (App.sessions (exec (closeSession Sample.bridge "C") (Sample.abc_on Sample.bridge "A"))) =
    delete 2 (ids (App.sessions (Sample.abc_on Sample.bridge "A"))) /\
  App.currentSessionId (exec (closeSession Sample.bridge "C") (Sample.abc_on Sample.bridge "A")) =
    delete 2 (ids (App.sessions (Sample.abc_on Sample.bridge "A"))) !! previous 2.
Proof.
  assert (findIndex "C" (App.sessions (Sample.abc_on Sample.bridge "A")) = Some 2) as H1
    by (vm_compute; reflexivity).
  assert (App.currentSessionId (Sample.abc_on Sample.bridge "A") <> Some "C") as H2
    by (vm_compute; discriminate).
  destruct (close_background_session Sample.bridge _ "C" 2 H1 H2) as (_ & H3 & H4 & _).
  split_and!; [exact H1|exact H2|exact H3|exact H4].
Defined.

(** Counterexample to C1: with [A] active in [A, B, C], closing [C] moves
    the Active Session Pointer to [B]. *)
Lemma close_background_session_counterexample :
  findIndex "C" (App.sessions (Sample.abc_on Sample.bridge "A")) = Some 2 /\
  App.currentSessionId (Sample.abc_on Sample.bridge "A") = Some "A" /\
  "C" <> "A" /\
  ids (App.sessions (exec (closeSession Sample.bridge "C") (Sample.abc_on Sample.bridge "A"))) =
    ["A"; "B"] /\
  App.currentSessionId (exec (closeSession Sample.bridge "C") (Sample.abc_on Sample.bridge "A")) =
    Some "B" /\
  App.currentSessionId (exec (closeSession Sample.bridge "C") (Sample.abc_on Sample.bridge "A")) <>
    App.currentSessionId (Sample.abc_on Sample.bridge "A").
Proof. vm_compute. split_and!; try reflexivity; discriminate. Qed.



(** Witness of C4: the backend closes the active session [B] of
    [A, B, C], and a session that is not registered. *)
Lemma closed_event_is_closeSession_witness :
  findIndex (Payload.sessionId Sample.closed_b)
    (App.sessions (Sample.abc_on Sample.bridge "B")) = Some 1 /\
  App.currentSessionId
    (exec (on_ssh_close Sample.bridge Sample.closed_b) (Sample.abc_on Sample.bridge "B")) =
    Some "A" /\
  (Payload.sessionId Sample.closed_b ∉ ids (App.sessions (Sample.only_a Sample.bridge))) /\
  on_ssh_close Sample.bridge Sample.closed_b (Sample.only_a Sample.bridge) =
    (Returned tt, Sample.only_a Sample.bridge).
Proof.
  assert (findIndex (Payload.sessionId Sample.closed_b)
            (App.sessions (Sample.abc_on Sample.bridge "B")) = Some 1) as Hi
    by (vm_compute; reflexivity).
  assert (Payload.sessionId Sample.closed_b ∉ ids (App.sessions (Sample.only_a Sample.bridge)))
    as Hn by (apply findIndex_None; vm_compute; reflexivity).
  pose proof (closed_event_is_closeSession Sample.bridge Sample.closed_b
                {| Tab.title := "beta"; Tab.active := true; Tab.target := "B" |}
                (Sample.abc_on Sample.bridge "B")) as (_ & _ & _ & Hrule).
  pose proof (closed_event_is_closeSession Sample.bridge Sample.closed_b
                {| Tab.title := "beta"; Tab.active := true; Tab.target := "B" |}
                (Sample.only_a Sample.bridge)) as (_ & _ & Hnoop & _).
  split_and!; [exact Hi|exact (Hrule 1 Hi)|exact Hn|exact (Hnoop Hn)].
Defined.




(** Witness of C7 as amended. *)
Lemma connect_refused_witness :
  find_connection "c1" Sample.start = Some Sample.c1 /\
  Bridge.connect_reply Sample.unreachable (length (App.backend Sample.start))
    (Connection.id Sample.c1) = Rejected "host unreachable" /\
  completion (connect Sample.unreachable "c1") Sample.start = Returned tt /\
  exec (connect Sample.unreachable "c1") Sample.start =
    refused "c1" Sample.c1 "host unreachable" Sample.start.
Proof.
  assert (find_connection "c1" Sample.start = Some Sample.c1) as H1 by (vm_compute; reflexivity).
  assert (Bridge.connect_reply Sample.unreachable (length (App.backend Sample.start))
            (Connection.id Sample.c1) = Rejected "host unreachable") as H2 by reflexivity.
  destruct (connect_refused Sample.unreachable Sample.start "c1" _ Sample.c1 H1 H2) as (H3 & H4 & _).
  split_and!; [exact H1|exact H2|exact H3|exact H4].
Defined.

(** Counterexample to C7: the call returns normally, with no error for
    the caller, and [currentConnectionId] has changed. *)
Lemma connect_refused_counterexample :
  Bridge.connect_reply Sample.unreachable (length (App.backend Sample.start)) "c1" =
    Rejected "host unreachable" /\
  connect Sample.unreachable "c1" Sample.start =
    (Returned tt, exec (connect Sample.unreachable "c1") Sample.start) /\
  App.currentConnectionId Sample.start = None /\
  App.currentConnectionId (exec (connect Sample.unreachable "c1") Sample.start) = Some "c1" /\
  exec (connect Sample.unreachable "c1") Sample.start <> Sample.start.
Proof.
  vm_compute. split_and!; try reflexivity; discriminate.
Qed.



(** * Proofs: the file browser, the dialogs and the terminals *)

(** ** Strings *)

Lemma string_app_nil_l (s : string) : "" +:+ s = s.
Proof. reflexivity. Qed.

Lemma string_app_cons c (a b : string) : String c a +:+ b = String c (a +:+ b).
Proof. reflexivity. Qed.

Ltac string_simpl := rewrite ?string_app_nil_l, ?string_app_cons in *.

Lemma split_by_cons sep s : exists x xs, JS.split_by sep s = x :: xs.
Proof.
  induction s as [|c s IH]; cbn; [eauto|].
  destruct (sep c); [eauto|].
  destruct IH as (x & xs & ->). eauto.
Qed.

Lemma split_by_free sep s :
  Forall (fun c => sep c = false) (JS.chars s) -> JS.split_by sep s = [s].
Proof.
  unfold JS.chars. induction s as [|c s IH]; cbn; [done|].
  intros [Hc Hs]%Forall_cons. rewrite Hc. by rewrite IH.
Qed.

Lemma split_by_app sep a c b :
  sep c = true ->
  JS.split_by sep (a +:+ String c b) = JS.split_by sep a ++ JS.split_by sep b.
Proof.
  intros Hc. induction a as [|x a IH]; string_simpl; cbn.
  - by rewrite Hc.
  - destruct (sep x); [by rewrite IH|].
    rewrite IH. by destruct (split_by_cons sep a) as (y & ys & ->).
Qed.

Lemma split_free sep s : free_of sep s -> JS.split sep s = [s].
Proof.
  intros H. apply split_by_free. apply list.Forall_forall. intros c Hc.
  destruct (Ascii.eqb_spec c sep) as [->|]; done.
Qed.

Lemma split_app sep a b :
  JS.split sep (a +:+ String sep b) = JS.split sep a ++ JS.split sep b.
Proof. apply split_by_app, Ascii.eqb_refl. Qed.

Lemma join_cons sep x y l :
  JS.join sep (x :: y :: l) = x +:+ sep +:+ JS.join sep (y :: l).
Proof. reflexivity. Qed.

Lemma join_split sep s : JS.join (String sep "") (JS.split sep s) = s.
Proof.
  unfold JS.split.
  induction s as [|c s IH]; cbn [JS.split_by]; [done|].
  destruct (split_by_cons (fun a => Ascii.eqb a sep) s) as (x & xs & E).
  rewrite E in IH |- *.
  destruct (Ascii.eqb_spec c sep) as [->|_].
  - rewrite join_cons, IH. by string_simpl.
  - destruct xs as [|y xs].
    + cbn in IH |- *. by rewrite IH.
    + rewrite join_cons in IH |- *. string_simpl. by rewrite IH.
Qed.

Lemma pop_snoc {A} (l : list A) x : JS.pop (l ++ [x]) = (Some x, l).
Proof.
  induction l as [|y l IH]; [done|].
  cbn [app JS.pop]. rewrite IH. by destruct l.
Qed.

Lemma string_app_assoc (a b c : string) : (a +:+ b) +:+ c = a +:+ (b +:+ c).
Proof. induction a; string_simpl; congruence. Qed.

Lemma string_length_app (a b : string) :
  String.length (a +:+ b) = String.length a + String.length b.
Proof. induction a; string_simpl; cbn; congruence. Qed.

Lemma strip_end_other c s a :
  a <> c -> JS.strip_end c (s +:+ String a "") = s +:+ String a "".
Proof.
  intros H. induction s as [|x s IH]; string_simpl; cbn.
  - by destruct (Ascii.eqb_spec a c).
  - rewrite IH. by destruct s.
Qed.

Lemma strip_end_one c s : JS.strip_end c (s +:+ String c "") = s.
Proof.
  induction s as [|x s IH]; string_simpl; cbn.
  - by rewrite Ascii.eqb_refl.
  - rewrite IH. by destruct s.
Qed.

Lemma last_char (s : string) :
  s <> "" -> exists s' a, s = s' +:+ String a "".
Proof.
  induction s as [|c s IH]; [done|]. intros _.
  destruct s as [|d s].
  - by exists "", c.
  - destruct IH as (s' & a & E); [done|]. exists (String c s'), a.
    string_simpl. by rewrite E.
Qed.

Lemma free_of_last c s' a : free_of c (s' +:+ String a "") -> a <> c.
Proof.
  unfold free_of, JS.chars. induction s' as [|x s' IH]; string_simpl; cbn.
  - intros H ->. apply H. left.
  - intros H. apply IH. intros ?. apply H. by right.
Qed.

Lemma or_else_neq s d : d <> "" -> or_else s d <> "".
Proof. unfold or_else. by destruct (String.eqb_spec s ""). Qed.

(** ** [navigateUp] *)

(** The parent directory that [navigateUp] computes from the current path. *)
Lemma navigateUp_run b st :
  navigateUp b st =
  if String.eqb (FileManager.currentPath (App.fileManager st)) "/"
  then (Returned tt, st)
  else (Returned tt,
        exec (loadDirectory b
                (or_else (JS.join "/" (snd (JS.pop (JS.split "/"
                   (JS.strip_end "/" (FileManager.currentPath (App.fileManager st)))))))
                         "/")) st).
Proof.
  unfold navigateUp, bind, gets.
  by destruct (String.eqb _ "/").
Qed.

Lemma parent_of_child dir name :
  name <> "" -> free_of "/" name ->
  JS.join "/" (snd (JS.pop (JS.split "/" (JS.strip_end "/" (dir +:+ "/" +:+ name))))) = dir /\
  JS.join "/" (snd (JS.pop (JS.split "/" (JS.strip_end "/" (dir +:+ "/" +:+ name +:+ "/"))))) = dir.
Proof.
  intros Hne Hfree.
  assert (JS.strip_end "/" (dir +:+ "/" +:+ name) = dir +:+ "/" +:+ name) as E1.
  { destruct (last_char name Hne) as (n' & a & ->).
    rewrite <- !string_app_assoc. apply strip_end_other.
    by eapply free_of_last. }
  assert (JS.strip_end "/" (dir +:+ "/" +:+ name +:+ "/") = dir +:+ "/" +:+ name) as E2.
  { rewrite <- !string_app_assoc. rewrite strip_end_one. by rewrite !string_app_assoc. }
  rewrite E1, E2.
  change (dir +:+ "/" +:+ name) with (dir +:+ String "/" name).
  rewrite split_app, (split_free _ name Hfree), pop_snoc. cbn [snd].
  split; apply join_split.
Qed.

(** X1. [navigateUp] on a path [dir/name], with or without a slash at its
    end, loads the directory [dir], and the root when [dir] is empty. *)
Theorem navigateUp_goes_to_parent (b : Bridge.t) (st : App.t) (dir name : string) :
  name <> "" -> free_of "/" name ->
  FileManager.currentPath (App.fileManager st) = dir +:+ "/" +:+ name \/
  FileManager.currentPath (App.fileManager st) = dir +:+ "/" +:+ name +:+ "/" ->
  navigateUp b st = (Returned tt, exec (loadDirectory b (or_else dir "/")) st).
Proof.
  intros Hne Hfree Hp. rewrite navigateUp_run.
  destruct (parent_of_child dir name Hne Hfree) as [E1 E2].
  destruct (String.eqb_spec (FileManager.currentPath (App.fileManager st)) "/") as [E|_].
  - exfalso. rewrite E in Hp. destruct name as [|c name]; [done|].
    destruct Hp as [Hp|Hp]; apply (f_equal String.length) in Hp;
      rewrite !string_length_app in Hp; cbn in Hp; lia.
  - destruct Hp as [-> | ->]; by rewrite ?E1, ?E2.
Qed.

Lemma navigateUp_goes_to_parent_witness :
  navigateUp Sample.bridge
    (exec (loadDirectory Sample.bridge "/home/A/") (Sample.only_a Sample.bridge)) =
  (Returned tt,
   exec (loadDirectory Sample.bridge "/home")
        (exec (loadDirectory Sample.bridge "/home/A/") (Sample.only_a Sample.bridge))).
Proof.
  apply (navigateUp_goes_to_parent _ _ "/home" "A").
  - discriminate.
  - by apply (bool_decide_unpack _).
  - right. reflexivity.
Defined.

(** X2. [navigateUp] sends at most one request, a listing of a path that
    is not empty; at the root, and without an active session, it leaves
    everything as it is. *)
Theorem navigateUp_requests (b : Bridge.t) (st : App.t) :
  (FileManager.currentPath (App.fileManager st) = "/" \/
   truthy (App.currentSessionId st) = false ->
   navigateUp b st = (Returned tt, st)) /\
  (FileManager.currentPath (App.fileManager st) <> "/" ->
   truthy (App.currentSessionId st) = true ->
   exists parent, parent <> "" /\
     App.backend (exec (navigateUp b) st) =
     App.backend st ++ [sftp_list (App.currentSessionId st) parent]).
Proof.
  split.
  - intros H. rewrite navigateUp_run.
    destruct (String.eqb_spec (FileManager.currentPath (App.fileManager st)) "/") as [E|E];
      [done|].
    destruct H as [H|H]; [done|].
    unfold exec, loadDirectory, bind, gets. by rewrite H.
  - intros Hp Hc. unfold exec at 1. rewrite navigateUp_run.
    destruct (String.eqb_spec (FileManager.currentPath (App.fileManager st)) "/") as [E|_];
      [done|].
    eexists. split; [|cbn [snd]; rewrite loadDirectory_backend; unfold fetch; by rewrite Hc].
    by apply or_else_neq.
Qed.

Lemma navigateUp_requests_witness :
  exists parent, parent <> "" /\
    App.backend (exec (navigateUp Sample.bridge) (Sample.only_a Sample.bridge)) =
    App.backend (Sample.only_a Sample.bridge) ++ [sftp_list (Some "A") parent].
Proof.
  apply (navigateUp_requests Sample.bridge (Sample.only_a Sample.bridge)).
  - vm_compute. discriminate.
  - reflexivity.
Defined.

(** ** [formatPermissions] *)

Lemma and_511 m : JS.and (Some m) 511 = (m mod 512)%Z.
Proof.
  unfold JS.and, JS.ToInt32.
  change ((511 + 2 ^ 31) mod 2 ^ 32 - 2 ^ 31)%Z with (Z.ones 9).
  rewrite Z.land_ones by lia. change (2 ^ 9)%Z with 512%Z.
  rewrite (Z.mod_eq (m + 2 ^ 31) (2 ^ 32)) by lia.
  replace (m + 2 ^ 31 - 2 ^ 32 * ((m + 2 ^ 31) / 2 ^ 32) - 2 ^ 31)%Z
    with (m + (- (2 ^ 23) * ((m + 2 ^ 31) / 2 ^ 32)) * 512)%Z by lia.
  by rewrite Z.mod_add.
Qed.

Lemma formatPermissions_mod m :
  formatPermissions (Some m) = formatPermissions (Some (m mod 512)%Z).
Proof.
  unfold formatPermissions. rewrite !and_511.
  by rewrite Z.mod_mod.
Qed.

Lemma symbolic_mod m : symbolic m = symbolic (m mod 512)%Z.
Proof.
  unfold symbolic, flag. change 512%Z with (2 ^ 9)%Z.
  by rewrite !Z.mod_pow2_bits_low by lia.
Qed.

(** The numbers from 0 to 511. *)
Lemma below_512 (k : Z) :
  (0 <= k < 512)%Z -> k ∈ (Z.of_nat <$> seq 0 512).
Proof.
  intros H. apply list_elem_of_fmap. exists (Z.to_nat k). split; [lia|].
  apply elem_of_seq. lia.
Qed.

Lemma formatPermissions_below_512 :
  Forall (fun k => formatPermissions (Some k) = symbolic k) (Z.of_nat <$> seq 0 512).
Proof.
  apply (bool_decide_unpack _). vm_compute. exact I.
Qed.

(** X3. [formatPermissions] shows the nine low bits of the mode, the
    highest first, and nothing else of it. *)
Theorem formatPermissions_bits (m : Z) :
  formatPermissions (Some m) = symbolic m /\
  formatPermissions None = "".
Proof.
  split; [|done].
  rewrite formatPermissions_mod, symbolic_mod.
  pose proof formatPermissions_below_512 as H.
  rewrite list.Forall_forall in H. apply H, below_512.
  apply Z.mod_pos_bound. lia.
Qed.

(** ** The permissions dialog *)

Lemma updatePermPreview_text octalStr d :
  updatePermPreview octalStr d =
  match preview_text octalStr with
  | Some p => PermissionsModal.with_preview p d
  | None => d
  end.
Proof.
  unfold updatePermPreview, preview_text.
  destruct (Nat.ltb _ 3); [done|].
  by destruct (JS.slice_last _ _) as [|? [|? [|? [|]]]].
Qed.

Lemma syncOctalToPermChecks_decode octalStr d :
  syncOctalToPermChecks octalStr d =
  match decode octalStr with
  | Some (o, g, t) =>
    updatePermPreview octalStr (PermissionsModal.with_checks o g t d)
  | None => d
  end.
Proof.
  unfold syncOctalToPermChecks, decode.
  destruct (_ || _); [done|].
  by destruct (JS.slice_last _ _) as [|? [|? [|? [|]]]].
Qed.

Lemma syncPermChecksToOctal_encode d :
  syncPermChecksToOctal d =
  updatePermPreview (encode (checks d))
    (PermissionsModal.with_octal (encode (checks d)) d).
Proof. reflexivity. Qed.

Lemma encode_correct c :
  let m := mode_of c in
  JS.parseInt (encode c) 8 = Some m /\
  (0 <= m < 512)%Z /\
  c = checks_of m /\
  preview_text (encode c) = Some (symbolic m) /\
  String.length (encode c) = 3 /\
  decode (encode c) = Some c.
Proof.
  destruct c as [[[r1 w1 x1] [r2 w2 x2]] [r3 w3 x3]].
  destruct r1, w1, x1, r2, w2, x2, r3, w3, x3; vm_compute;
    split_and!; (reflexivity || discriminate).
Qed.

(** X4. After [syncPermChecksToOctal] the text field holds three octal
    digits: read as [applyPermissions] reads it, it gives the mode whose
    bits are the ticked boxes, the preview shows that mode, the boxes are
    as they were, and [syncOctalToPermChecks] on this text changes
    nothing. *)
Theorem checks_to_octal (d : PermissionsModal.t) :
  let d' := syncPermChecksToOctal d in
  exists m,
    JS.parseInt (PermissionsModal.octal d') 8 = Some m /\
    (0 <= m < 512)%Z /\
    checks d = checks_of m /\
    checks d' = checks d /\
    PermissionsModal.preview d' = symbolic m /\
    String.length (PermissionsModal.octal d') = 3 /\
    syncOctalToPermChecks (PermissionsModal.octal d') d' = d'.
Proof.
  intros d'. subst d'. rewrite syncPermChecksToOctal_encode.
  destruct (encode_correct (checks d)) as (Hm & Hr & Hc & Hp & Hl & Hd).
  exists (mode_of (checks d)).
  rewrite updatePermPreview_text, Hp. cbn [PermissionsModal.octal PermissionsModal.with_preview
    PermissionsModal.with_octal PermissionsModal.preview].
  split_and!; try done; try lia.
  rewrite syncOctalToPermChecks_decode, Hd.
  destruct (checks d) as [[o g] t] eqn:E. rewrite updatePermPreview_text, Hp.
  destruct d. unfold checks in E. cbn in E. by simplify_eq.
Qed.

Lemma octal_char c :
  is_Some (JS.digit_value 8 c) -> c ∈ ["0"; "1"; "2"; "3"; "4"; "5"; "6"; "7"]%char.
Proof.
  destruct c as [[] [] [] [] [] [] [] []]; intros H; vm_compute in H;
    first [ by destruct H | by apply (bool_decide_unpack _) ].
Qed.

Ltac octal_cases :=
  repeat match goal with
  | H : is_Some (JS.digit_value 8 _) |- _ => apply octal_char in H
  | H : _ ∈ _ :: _ |- _ => apply elem_of_cons in H as [->|H]
  | H : _ ∈ [] |- _ => by apply elem_of_nil in H
  end.

Lemma octal_text_correct s :
  octal_digits s -> 1 <= String.length s <= 3 ->
  exists m,
    JS.parseInt s 8 = Some m /\
    (0 <= m < 512)%Z /\
    decode s = Some (checks_of m) /\
    preview_text s = Some (symbolic m) /\
    encode (checks_of m) = JS.padStart 3 "0" s.
Proof.
  unfold octal_digits, JS.chars. intros Hd Hl.
  exists (default 0%Z (JS.parseInt s 8)).
  destruct s as [|c1 [|c2 [|c3 [|c4 s]]]]; cbn in Hl, Hd; try lia.
  - apply Forall_cons in Hd as [H1 _]. octal_cases;
      vm_compute; split_and!; (reflexivity || discriminate).
  - apply Forall_cons in Hd as [H1 Hd]. apply Forall_cons in Hd as [H2 _].
    octal_cases;
      vm_compute; split_and!; (reflexivity || discriminate).
  - apply Forall_cons in Hd as [H1 Hd]. apply Forall_cons in Hd as [H2 Hd].
    apply Forall_cons in Hd as [H3 _].
    octal_cases;
      vm_compute; split_and!; (reflexivity || discriminate).
Qed.

(** X5. When the text field holds one to three octal digits,
    [syncOctalToPermChecks] ticks the boxes of the mode that
    [applyPermissions] reads from the field, the preview shows that mode,
    and [syncPermChecksToOctal] then writes the same digits, with zeros in
    front up to three. *)
Theorem octal_to_checks (octalStr : string) (d : PermissionsModal.t) :
  octal_digits octalStr -> 1 <= String.length octalStr <= 3 ->
  let d' := syncOctalToPermChecks octalStr d in
  exists m,
    JS.parseInt octalStr 8 = Some m /\
    (0 <= m < 512)%Z /\
    checks d' = checks_of m /\
    PermissionsModal.preview d' = symbolic m /\
    PermissionsModal.octal (syncPermChecksToOctal d') = JS.padStart 3 "0" octalStr.
Proof.
  intros Ho Hl d'. subst d'.
  destruct (octal_text_correct octalStr Ho Hl) as (m & Hm & Hr & Hd & Hp & He).
  exists m. rewrite syncOctalToPermChecks_decode, Hd.
  remember (checks_of m) as c eqn:Ec. destruct c as [[o g] t].
  rewrite updatePermPreview_text, Hp.
  split_and!; try done; try lia.
  rewrite syncPermChecksToOctal_encode, updatePermPreview_text.
  change (checks _) with (o, g, t).
  rewrite He. by destruct (preview_text (JS.padStart _ _ _)).
Qed.

Lemma octal_to_checks_witness :
  exists m,
    JS.parseInt "75" 8 = Some m /\
    (0 <= m < 512)%Z /\
    checks (syncOctalToPermChecks "75" Fixture.dialog) = checks_of m /\
    PermissionsModal.preview (syncOctalToPermChecks "75" Fixture.dialog) = symbolic m /\
    PermissionsModal.octal
      (syncPermChecksToOctal (syncOctalToPermChecks "75" Fixture.dialog)) =
    JS.padStart 3 "0" "75".
Proof.
  apply (octal_to_checks "75" Fixture.dialog).
  - by apply (bool_decide_unpack _).
  - cbn. lia.
Defined.

(** ** [getFileIconClass] and [escapeHtml] *)

Lemma extension_of base e :
  free_of "." e ->
  fst (JS.pop (JS.split "." (base +:+ "." +:+ e))) = Some e /\
  fst (JS.pop (JS.split "." e)) = Some e.
Proof.
  intros H. split.
  - change (base +:+ "." +:+ e) with (base +:+ String "." e).
    by rewrite split_app, (split_free _ _ H), pop_snoc.
  - by rewrite (split_free _ _ H).
Qed.

(** X6. The icon class of a file is decided by the text after the last
    dot of its name, whatever its case; a name without a dot counts as an
    extension as a whole. *)
Theorem icon_by_extension (base e1 e2 : string) :
  free_of "." e1 -> free_of "." e2 ->
  JS.toLowerCase e1 = JS.toLowerCase e2 ->
  getFileIconClass (base +:+ "." +:+ e1) = getFileIconClass e2.
Proof.
  intros H1 H2 E. unfold getFileIconClass.
  destruct (extension_of base e1 H1) as [-> _].
  destruct (extension_of base e2 H2) as [_ ->].
  cbn [fmap option_fmap option_map]. by rewrite E.
Qed.

Lemma icon_by_extension_witness :
  getFileIconClass ("backup.tar" +:+ "." +:+ "GZ") = getFileIconClass "gz".
Proof.
  apply icon_by_extension.
  - by apply (bool_decide_unpack _).
  - by apply (bool_decide_unpack _).
  - reflexivity.
Defined.

Lemma chars_app a b : JS.chars (a +:+ b) = JS.chars a ++ JS.chars b.
Proof. unfold JS.chars. induction a; string_simpl; cbn; congruence. Qed.

Lemma innerHTML_cons c s :
  innerHTML (String c s) =
  (if Ascii.eqb c "&" then "&amp;"
   else if Ascii.eqb c (ascii_of_nat 160) then "&nbsp;"
   else if Ascii.eqb c "<" then "&lt;"
   else if Ascii.eqb c ">" then "&gt;"
   else String c EmptyString) +:+ innerHTML s.
Proof. reflexivity. Qed.

Lemma innerHTML_plain c s :
  ~ special c -> innerHTML (String c s) = String c (innerHTML s).
Proof.
  unfold special. intros H. rewrite innerHTML_cons.
  destruct (Ascii.eqb_spec c "&"); [tauto|].
  destruct (Ascii.eqb_spec c (ascii_of_nat 160)); [tauto|].
  destruct (Ascii.eqb_spec c "<"); [tauto|].
  destruct (Ascii.eqb_spec c ">"); [tauto|].
  reflexivity.
Qed.

Lemma innerHTML_length s : String.length s <= String.length (innerHTML s).
Proof.
  induction s as [|c s IH]; [done|].
  rewrite innerHTML_cons, string_length_app.
  repeat case_match; cbn; lia.
Qed.

Lemma innerHTML_brackets s :
  free_of "<" (innerHTML s) /\ free_of ">" (innerHTML s).
Proof.
  unfold free_of. induction s as [|c s [IH1 IH2]].
  - split; apply not_elem_of_nil.
  - rewrite innerHTML_cons, chars_app, !not_elem_of_app.
    split_and!; try done.
    + destruct (Ascii.eqb_spec c "&"); [by apply (bool_decide_unpack _)|].
      destruct (Ascii.eqb_spec c (ascii_of_nat 160)); [by apply (bool_decide_unpack _)|].
      destruct (Ascii.eqb_spec c "<"); [by apply (bool_decide_unpack _)|].
      destruct (Ascii.eqb_spec c ">"); [by apply (bool_decide_unpack _)|].
      cbn. rewrite not_elem_of_cons. split; [done|apply not_elem_of_nil].
    + destruct (Ascii.eqb_spec c "&"); [by apply (bool_decide_unpack _)|].
      destruct (Ascii.eqb_spec c (ascii_of_nat 160)); [by apply (bool_decide_unpack _)|].
      destruct (Ascii.eqb_spec c "<"); [by apply (bool_decide_unpack _)|].
      destruct (Ascii.eqb_spec c ">"); [by apply (bool_decide_unpack _)|].
      cbn. rewrite not_elem_of_cons. split; [done|apply not_elem_of_nil].
Qed.

(** X7. The text that [escapeHtml] returns has no angle bracket, and it
    is the argument itself exactly when the argument has none of the
    characters that are replaced: a quotation mark is left as it is. *)
Theorem escapeHtml_text (str : string) :
  free_of "<" (escapeHtml str) /\
  free_of ">" (escapeHtml str) /\
  (escapeHtml str = str <-> Forall (fun c => ~ special c) (JS.chars str)).
Proof.
  unfold escapeHtml.
  destruct (innerHTML_brackets str) as [H1 H2]. split_and!; [done..|].
  clear H1 H2. unfold JS.chars. induction str as [|c s IH]; [by split|].
  cbn [String.list_ascii_of_string]. rewrite Forall_cons. split.
  - intros E. destruct (decide (special c)) as [Hs|Hs].
    + exfalso. rewrite innerHTML_cons in E. pose proof (innerHTML_length s) as Hl.
      destruct Hs as [Hs|[Hs|[Hs|Hs]]]; subst c; cbn in E; string_simpl;
        try discriminate E.
      injection E as E. apply (f_equal String.length) in E.
      cbn in E. string_simpl. lia.
    + split; [done|]. apply IH. rewrite innerHTML_plain in E by done. congruence.
  - intros [Hc Hs]. rewrite innerHTML_plain by done. f_equal. by apply IH.
Qed.

(** ** The objects of the sessions *)










(** ** What the handlers do to the objects of the sessions *)





Section Objects.
Variable b : Bridge.t.















End Objects.



Section Mirror.
Variable b : Bridge.t.


End Mirror.



(** ** [loadDirectory] and [loadInitialFiles] *)

Section Listing.
Variable b : Bridge.t.

(** X10. [loadDirectory] for an active session sends one request and never
    throws. When the listing arrives, the path and the files of the
    Directory Browser and the path shown are replaced; when the request
    fails, they stay as they were and the panel shows the error. *)
Theorem loadDirectory_outcome (st : App.t) (path : string) :
  truthy (App.currentSessionId st) = true ->
  let st' := exec (loadDirectory b path) st in
  loadDirectory b path st = (Returned tt, st') /\
  App.backend st' = App.backend st ++ [sftp_list (App.currentSessionId st) path] /\
  match Bridge.list_reply b (length (App.backend st)) (App.currentSessionId st) path with
  | Resolved files =>
    App.fileManager st' =
      {| FileManager.currentPath := path;
         FileManager.history := FileManager.history (App.fileManager st);
         FileManager.historyIndex := FileManager.historyIndex (App.fileManager st);
         FileManager.files := files |} /\
    Document.sftp_path_display (App.document st') = path /\
    Document.file_list (App.document st') = listing files
  | Rejected e =>
    App.fileManager st' = App.fileManager st /\
    Document.sftp_path_display (App.document st') =
      Document.sftp_path_display (App.document st) /\
    Document.file_list (App.document st') = FileListError e
  end.
Proof.
  intros Hc st'. subst st'. split; [apply safe_loadDirectory|].
  unfold exec, loadDirectory, bind, gets, try_catch, invoke, on_document, on_fileManager,
    modify. rewrite Hc. cbn.
  destruct (Bridge.list_reply _ _ _ _) as [files|e]; cbn; [|done].
  unfold render, bind, gets, on_document, modify. cbn. by destruct files.
Qed.


(** X11. For a session that is not the active one, [loadInitialFiles] asks
    for the home directory only: no listing is fetched and the Directory
    Browser is left alone; the answer goes into the snapshot of the
    session, and a failure goes to the console. *)
Theorem loadInitialFiles_in_background (st : App.t) (sessionId : string) :
  App.currentSessionId st <> Some sessionId ->
  let st' := exec (loadInitialFiles b sessionId) st in
  loadInitialFiles b sessionId st = (Returned tt, st') /\
  App.backend st' = App.backend st ++ [sftp_get_home sessionId] /\
  App.fileManager st' = App.fileManager st /\
  App.document st' = App.document st /\
  match Bridge.get_home_reply b (length (App.backend st)) sessionId with
  | Resolved homeDir =>
    App.console st' = App.console st /\
    App.sessions st' =
      match findIndex sessionId (App.sessions st) with
      | Some i => alter (Session.set_path homeDir) i (App.sessions st)
      | None => App.sessions st
      end
  | Rejected e =>
    App.console st' =
      App.console st ++ [console_warn "Failed to get home directory" e] /\
    App.sessions st' = App.sessions st
  end.
Proof.
  intros Hc st'. subst st'.
  unfold exec, loadInitialFiles, try_catch, bind, invoke, gets, log, on_session, modify.
  destruct (Bridge.get_home_reply _ _ _) as [homeDir|e]; cbn.
  - rewrite decide_False by done. destruct (findIndex _ _); by cbn.
  - by rewrite decide_False.
Qed.


Lemma loadInitialFiles_backend sessionId st :
  App.currentSessionId st = Some sessionId ->
  App.backend (exec (loadInitialFiles b sessionId) st) =
  App.backend st ++ sftp_get_home sessionId ::
    fetch (Some sessionId)
      match Bridge.get_home_reply b (length (App.backend st)) sessionId with
      | Resolved homeDir => homeDir
      | Rejected _ => "/"
      end.
Proof.
  intros Hc.
  unfold loadInitialFiles, exec, try_catch, bind at 1, invoke.
  destruct (Bridge.get_home_reply _ _ _) as [homeDir|e].
  - unfold bind, gets. cbn [App.currentSessionId App.with_backend]. rewrite Hc.
    rewrite decide_True by done.
    rewrite (safe_loadDirectory b homeDir _). cbn [snd].
    rewrite loadDirectory_backend. cbn. rewrite Hc. by rewrite <- app_assoc.
  - unfold bind at 1, log, modify. unfold bind, gets.
    cbn [App.currentSessionId App.with_backend App.with_console]. rewrite Hc.
    rewrite decide_True by done.
    fold (exec (loadDirectory b "/")
            (App.with_console
               (App.console
                  (App.with_backend (App.backend st ++ [sftp_get_home sessionId]) st) ++
                [console_warn "Failed to get home directory" e])
               (App.with_backend (App.backend st ++ [sftp_get_home sessionId]) st))).
    rewrite loadDirectory_backend. cbn. rewrite Hc. by rewrite <- app_assoc.
Qed.

End Listing.

Lemma loadDirectory_outcome_witness :
  let st := Sample.only_a Sample.flaky in
  let st' := exec (loadDirectory Sample.flaky "/etc") st in
  loadDirectory Sample.flaky "/etc" st = (Returned tt, st') /\
  App.backend st' = App.backend st ++ [sftp_list (App.currentSessionId st) "/etc"] /\
  match Bridge.list_reply Sample.flaky (length (App.backend st)) (App.currentSessionId st) "/etc" with
  | Resolved files =>
    App.fileManager st' =
      {| FileManager.currentPath := "/etc";
         FileManager.history := FileManager.history (App.fileManager st);
         FileManager.historyIndex := FileManager.historyIndex (App.fileManager st);
         FileManager.files := files |} /\
    Document.sftp_path_display (App.document st') = "/etc" /\
    Document.file_list (App.document st') = listing files
  | Rejected e =>
    App.fileManager st' = App.fileManager st /\
    Document.sftp_path_display (App.document st') =
      Document.sftp_path_display (App.document st) /\
    Document.file_list (App.document st') = FileListError e
  end.
Proof.
  apply (loadDirectory_outcome Sample.flaky (Sample.only_a Sample.flaky) "/etc").
  reflexivity.
Defined.

Lemma loadInitialFiles_in_background_witness :
  let st := Sample.abc Sample.bridge in
  let st' := exec (loadInitialFiles Sample.bridge "A") st in
  loadInitialFiles Sample.bridge "A" st = (Returned tt, st') /\
  App.backend st' = App.backend st ++ [sftp_get_home "A"] /\
  App.fileManager st' = App.fileManager st /\
  App.document st' = App.document st /\
  match Bridge.get_home_reply Sample.bridge (length (App.backend st)) "A" with
  | Resolved homeDir =>
    App.console st' = App.console st /\
    App.sessions st' =
      match findIndex "A" (App.sessions st) with
      | Some i => alter (Session.set_path homeDir) i (App.sessions st)
      | None => App.sessions st
      end
  | Rejected e =>
    App.console st' =
      App.console st ++ [console_warn "Failed to get home directory" e] /\
    App.sessions st' = App.sessions st
  end.
Proof.
  apply (loadInitialFiles_in_background Sample.bridge (Sample.abc Sample.bridge) "A").
  vm_compute. discriminate.
Defined.

(** ** [connect]: the session that is opened *)

Section Opening.
Variable b : Bridge.t.

(** X12. When the backend accepts the connection, [connect] registers one
    new session at the end of the tab order, under the id that the
    backend answered and the name of the profile (its host when it has no
    name), and makes it the active one. Four requests go to the backend:
    the connection, the listing of the root for the new session, its home
    directory, and the listing of the home directory, or of the root again
    when the home directory is refused. *)
Theorem connect_opens_session (st : App.t) (id sessionId : string) (connection : Connection.t) :
  Reachable b st ->
  find_connection id st = Some connection ->
  Bridge.connect_reply b (length (App.backend st)) (Connection.id connection) =
    Resolved sessionId ->
  sessionId <> "" ->
  sessionId ∉ ids (App.sessions st) ->
  let st' := exec (connect b id) st in
  ids (App.sessions st') = ids (App.sessions st) ++ [sessionId] /\
  App.currentSessionId st' = Some sessionId /\
  (exists session,
     App.sessions st' !! length (App.sessions st) = Some session /\
     Session.id session = sessionId /\
     Session.name session = or_else (Connection.name connection) (Connection.host connection) /\
     Container.display (Session.container session) = "block") /\
  App.backend st' =
    App.backend st ++
    [ssh_connect (Connection.id connection);
     sftp_list (Some sessionId) "/";
     sftp_get_home sessionId;
     sftp_list (Some sessionId)
       match Bridge.get_home_reply b (length (App.backend st) + 2) sessionId with
       | Resolved homeDir => homeDir
       | Rejected _ => "/"
       end].
Proof.
  intros Hr Hf Hreply Hne Hfresh st'. subst st'.
  apply Reachable_Consistent in Hr. destruct Hr as [_ _ _ _ Hcur _ _].
  rewrite (connect_resolved b _ _ _ _ Hf Hreply).
  set (name := or_else (Connection.name connection) (Connection.host connection)).
  set (st0 := App.with_document _ (requested id connection st)).
  assert (App.sessions st0 = App.sessions st) as Hs0 by done.
  assert (App.currentSessionId st0 = App.currentSessionId st) as Hc0 by done.
  assert (App.backend st0 = App.backend st ++ [ssh_connect (Connection.id connection)]) as Hb0
    by done.
  clearbody st0.
  unfold exec. rewrite addSession_run.
  set (P := pushed sessionId name st0).
  fold (exec (switchSession b sessionId >>
              updateTabsUI >>
              on_document (fun d => Document.with_btn_disconnect
                ((fun _ => false) <$> Document.btn_disconnect d) d) >>
              detached (loadInitialFiles b sessionId)) P).
  rewrite (exec_bind_safe _ _ _ (safe_switchSession b sessionId)).
  set (new := length (App.sessions st)).
  assert (findIndex sessionId (App.sessions P) = Some new) as Hnew.
  { unfold P, pushed. cbn. rewrite Hs0.
    by apply (findIndex_app_fresh _ (fresh_session sessionId name (App.allocated st0))). }
  assert (App.sessions P !! new = Some (fresh_session sessionId name (App.allocated st0))) as Hl.
  { unfold P, pushed. cbn. rewrite Hs0. by apply list_lookup_middle. }
  assert (findNullable (App.currentSessionId P) (App.sessions P) <> Some new) as Hold.
  { change (App.currentSessionId P) with (App.currentSessionId st0). rewrite Hc0.
    destruct (App.currentSessionId st) as [c|] eqn:Ec; [|done]. cbn [findNullable].
    specialize (Hcur c eq_refl). intros E.
    assert (c = sessionId) as ->; [|done].
    apply findIndex_lookup in E as (s & Hs & <-). rewrite Hl in Hs. by injection Hs as <-. }
  pose proof (switchSession_restores b sessionId P new _ Hnew Hl) as (_ & _ & _ & _ & Hb & _).
  rewrite bool_decide_false in Hb by done.
  pose proof (switchSession_ids b sessionId P) as Hids.
  pose proof (switchSession_currentSessionId b sessionId P new Hnew) as Hc.
  pose proof (switchSession_sessions b sessionId P new Hnew) as Hss.
  destruct (switched_target new P _ Hl) as (s' & Hs' & Hid & Hname & _ & Hdis & _).
  rewrite <- Hss in Hs'.
  revert Hb Hids Hc Hs'. generalize (exec (switchSession b sessionId) P). intros st1 Hb Hids Hc Hs'.
  match goal with |- context [exec ?m st1] =>
    assert (exec m st1 = exec (loadInitialFiles b sessionId)
              (exec (on_document (fun d => Document.with_btn_disconnect
                       ((fun _ => false) <$> Document.btn_disconnect d) d))
                 (exec updateTabsUI st1))) as ->
  end.
  { rewrite (exec_bind_safe _ _ _ safe_updateTabsUI).
    by rewrite exec_bind_safe by (unfold on_document; apply safe_modify). }
  assert (keeps (fun st => (App.sessions st, App.currentSessionId st, App.backend st))
            (updateTabsUI >> on_document (fun d => Document.with_btn_disconnect
                       ((fun _ => false) <$> Document.btn_disconnect d) d))) as Hk by frame.
  specialize (Hk st1). rewrite (exec_bind_safe _ _ _ safe_updateTabsUI) in Hk.
  revert Hk. generalize (exec (on_document (fun d => Document.with_btn_disconnect
                       ((fun _ => false) <$> Document.btn_disconnect d) d))
                 (exec updateTabsUI st1)). intros st2 [= Hs2 Hc2 Hb2].
  assert (App.currentSessionId st2 = Some sessionId) as Hc2' by congruence.
  destruct (loadInitialFiles_active b sessionId st2 Hc2') as (Hs3 & Hc3 & _).
  rewrite Hs3, Hc3, Hs2, (loadInitialFiles_backend b _ _ Hc2'), Hb2, Hb.
  split_and!.
  - rewrite Hids. unfold P, pushed, ids. cbn. by rewrite Hs0, fmap_app.
  - done.
  - exists s'. by rewrite Hname.
  - unfold P, pushed. cbn [App.backend]. rewrite Hb0. cbn [restored fresh_session
      Session.fileManagerState Snapshot.path or_else String.eqb Ascii.eqb eqb].
    unfold fetch, truthy. destruct (String.eqb_spec sessionId ""); [done|]. cbn.
    rewrite <- !app_assoc. cbn. rewrite !length_app. cbn.
    by replace (length (App.backend st) + 1 + 1) with (length (App.backend st) + 2) by lia.
Qed.

End Opening.

Lemma connect_opens_session_witness :
  let st := Sample.only_a Sample.flaky in
  let st' := exec (connect Sample.flaky "c2") st in
  ids (App.sessions st') = ids (App.sessions st) ++ ["B"] /\
  App.currentSessionId st' = Some "B" /\
  (exists session,
     App.sessions st' !! length (App.sessions st) = Some session /\
     Session.id session = "B" /\
     Session.name session = or_else "" "10.0.0.2" /\
     Container.display (Session.container session) = "block") /\
  App.backend st' =
    App.backend st ++
    [ssh_connect "c2";
     sftp_list (Some "B") "/";
     sftp_get_home "B";
     sftp_list (Some "B")
       match Bridge.get_home_reply Sample.flaky (length (App.backend st) + 2) "B" with
       | Resolved homeDir => homeDir
       | Rejected _ => "/"
       end].
Proof.
  apply (connect_opens_session Sample.flaky (Sample.only_a Sample.flaky) "c2" "B"
           {| Connection.id := "c2"; Connection.name := ""; Connection.host := "10.0.0.2" |}).
  - apply run_reachable; [apply start_reachable|]. by vm_compute.
  - by vm_compute.
  - by vm_compute.
  - discriminate.
  - apply (bool_decide_unpack _). by vm_compute.
Defined.

(** ** The tab strip *)






Section TabStrip.
Variable b : Bridge.t.







End TabStrip.


(** ** The terminals: resize and destroy *)

Section Terminals.
Variable b : Bridge.t.


End Terminals.


(** X15. [destroy] on the terminal manager of a session disconnects the
    observer and disposes the terminal, once: on a manager that has been
    destroyed, [destroy], [writeData] and [fit] do nothing. *)
Theorem destroy_once (st : App.t) (i : nat) (session : Session.t) (data : list Z) :
  App.sessions st !! i = Some session ->
  let st' := exec (destroy i) st in
  let tm := TerminalManager.new in
  destroy i st = (Returned tt, st') /\
  App.xterm st' = App.xterm st ++ dispose_calls session /\
  Session.terminalManager <$> App.sessions st' !! i = Some tm /\
  destroy i st' = (Returned tt, st') /\
  writeData tm data st' = (Returned tt, st') /\
  fit tm st' = (Returned tt, st').
Proof.
  intros Hs st' tm. subst st' tm.
  unfold exec, destroy, dispose_calls, bind, deref, call, on_session, modify.
  rewrite Hs.
  destruct (TerminalManager.resizeObserver (Session.terminalManager session));
    destruct (TerminalManager.terminal (Session.terminalManager session)); cbn;
    rewrite ?list_lookup_alter_eq, ?Hs; cbn; rewrite ?app_nil_r, <- ?app_assoc;
    split_and!; try done.
  all: unfold App.with_sessions; cbn; do 2 f_equal;
    rewrite list_alter_alter_eq; by apply list_alter_ext.
Qed.

Lemma destroy_once_witness :
  let st := Sample.only_a Sample.bridge in
  let session := Session.set_display "block" (fresh_session "A" "alpha" 0) in
  let st' := exec (destroy 0) st in
  let tm := TerminalManager.new in
  destroy 0 st = (Returned tt, st') /\
  App.xterm st' = App.xterm st ++ dispose_calls session /\
  Session.terminalManager <$> App.sessions st' !! 0 = Some tm /\
  destroy 0 st' = (Returned tt, st') /\
  writeData tm [104%Z] st' = (Returned tt, st') /\
  fit tm st' = (Returned tt, st').
Proof.
  intros st session.
  apply (destroy_once st 0 session [104%Z]).
  vm_compute. reflexivity.
Defined.

(** ** Computations on the page *)

Lemma lift_safe (m : Js unit) w :
  safe m ->
  Ui.lift m w = (Returned tt, World.with_app (exec m (World.app w)) w).
Proof. intros H. unfold Ui.lift, exec. by rewrite (H (World.app w)). Qed.

Lemma ui_bind_run {A B} (m : Ui A) (k : A -> Ui B) w a w' :
  m w = (Returned a, w') -> Ui.bind m k w = k a w'.
Proof. unfold Ui.bind. by intros ->. Qed.

(** One step of a computation whose first part returns. *)
Ltac ui_step :=
  match goal with
  | |- context [Ui.bind ?m ?k ?w] => rewrite (ui_bind_run m k w _ _ eq_refl)
  end.

Lemma endsWith_true c s :
  JS.endsWith c s = true -> exists s', s = s' +:+ String c "".
Proof.
  induction s as [|a s IH]; [done|].
  destruct s as [|d s].
  - cbn. intros ->%Ascii.eqb_eq. by exists "".
  - intros H. destruct IH as [s' E]; [done|]. exists (String a s').
    string_simpl. by rewrite E.
Qed.

Lemma endsWith_false c s : JS.endsWith c s = false -> JS.strip_end c s = s.
Proof.
  induction s as [|a s IH]; [done|].
  destruct s as [|d s].
  - cbn. by intros ->.
  - intros H.
    change (JS.strip_end c (String a (String d s)))
      with (String a (JS.strip_end c (String d s))).
    by rewrite IH.
Qed.

Section FileBrowser.
Variable env : Env.t.

(** X16. [createFolder] asks for a name. Without one (the prompt cancelled
    or left empty) it does nothing more. With one it asks the backend to
    make the directory of that name in the current directory, for the
    active session; on success the current directory is loaded again, on
    failure an alert shows the error and no listing is fetched. *)
Theorem createFolder_outcome (w : World.t) :
  let asked := World.with_boxes (World.boxes w ++ [Prompt "New folder name:" None]) w in
  let answer := Env.prompt_reply env (length (World.boxes w)) in
  if truthy answer then
    let cmd := sftp_mkdir (active w) (child (directory w) (template answer)) in
    let sent := World.with_commands (World.commands w ++ [cmd]) asked in
    match Env.command_reply env (length (World.commands w)) cmd with
    | Resolved _ => createFolder env w = (Returned tt, reloaded env sent)
    | Rejected e =>
      createFolder env w =
        (Returned tt,
         World.with_boxes
           (World.boxes sent ++ [Alert ("Error creating folder: " +:+ e)]) sent)
    end
  else createFolder env w = (Returned tt, asked).
Proof.
  cbn zeta. unfold createFolder.
  ui_step.
  destruct (truthy (Env.prompt_reply env (length (World.boxes w)))) eqn:Ha; cbn [negb];
    [|done].
  unfold Ui.try_catch, Ui.bind, currentPath, currentSessionId, Ui.gets, send, alert, Ui.modify.
  cbn [World.commands World.with_boxes World.app World.boxes].
  unfold child, directory, active.
  destruct (JS.endsWith "/" _);
    destruct (Env.command_reply env _ _) as [a|e]; try done;
    by rewrite lift_safe by apply safe_loadDirectory.
Qed.


Lemma setStatus_safe status message : safe (setStatus status message).
Proof. unfold setStatus, on_document. apply safe_modify. Qed.

Lemma setStatus_twice status message status' message' a :
  exec (setStatus status' message') (exec (setStatus status message) a) =
  exec (setStatus status' message') a.
Proof. by destruct a as [? ? ? ? ? [] ? ? ? ?]. Qed.

(** One pass of the loop of [handleDrop]. *)
Lemma upload_run (localPath : string) (w : World.t) :
  let cmd :=
    sftp_upload (active w) localPath (child (directory w) (basename localPath)) in
  let a1 :=
    exec (setStatus "connected" ("Uploading " +:+ basename localPath +:+ "..."))
      (World.app w) in
  let w1 := World.with_commands (World.commands w ++ [cmd]) (World.with_app a1 w) in
  upload env localPath w =
    (Returned tt,
     World.with_boxes
       (World.boxes w ++
        match Env.command_reply env (length (World.commands w)) cmd with
        | Resolved _ => []
        | Rejected e => [Alert ("Upload error: " +:+ e)]
        end) w1).
Proof.
  cbn zeta. unfold upload, Ui.try_catch. cbn zeta. ui_step.
  rewrite (ui_bind_run _ _ w tt _ (lift_safe _ _ (setStatus_safe _ _))).
  ui_step. unfold Ui.bind, send, alert, Ui.modify, Ui.ret.
  cbn [World.app World.with_app World.commands World.boxes].
  unfold child, basename, directory, active.
  destruct (JS.endsWith "/" _);
    destruct (Env.command_reply env _ _); cbn; rewrite ?app_nil_r; by destruct w.
Qed.

(** The loop of [handleDrop]: one command per path, an alert per
    failure, and a status line that the next call of [setStatus]
    replaces. *)
Lemma uploads_run (paths : list string) (w : World.t) :
  let cmds :=
    (fun localPath =>
       sftp_upload (active w) localPath (child (directory w) (basename localPath)))
    <$> paths in
  exists a,
    for_of paths (upload env) w =
      (Returned tt,
       World.with_app a
         (World.with_boxes
            (World.boxes w ++ upload_errors env (length (World.commands w)) cmds)
            (World.with_commands (World.commands w ++ cmds) w))) /\
    (forall status message,
       exec (setStatus status message) a =
       exec (setStatus status message) (World.app w)) /\
    (paths = [] -> a = World.app w).
Proof.
  revert w. induction paths as [|localPath paths IH]; intros w; cbn zeta.
  - exists (World.app w). split_and!; try done. cbn. rewrite !app_nil_r. by destruct w.
  - cbn [for_of fmap list_fmap upload_errors].
    set (cmd := sftp_upload (active w) localPath
                  (child (directory w) (basename localPath))).
    set (a1 := exec (setStatus "connected" ("Uploading " +:+ basename localPath +:+ "..."))
                 (World.app w)).
    set (w1 := World.with_commands (World.commands w ++ [cmd]) (World.with_app a1 w)).
    set (w2 := World.with_boxes
                 (World.boxes w ++
                  match Env.command_reply env (length (World.commands w)) cmd with
                  | Resolved _ => []
                  | Rejected e => [Alert ("Upload error: " +:+ e)]
                  end) w1).
    pose proof (upload_run localPath w) as Hu. cbn zeta in Hu. fold cmd a1 w1 w2 in Hu.
    rewrite (ui_bind_run _ _ w tt w2 Hu).
    destruct (IH w2) as (a & Hrun & Hst & _).
    exists a. split_and!; [|intros status message; rewrite Hst; apply setStatus_twice|done].
    rewrite Hrun. f_equal.
    assert (active w2 = active w) as -> by done.
    assert (directory w2 = directory w) as -> by done.
    unfold w2, w1. cbn [World.commands World.with_commands World.with_boxes World.boxes
      World.with_app World.app]. rewrite length_app. cbn [length].
    replace (length (World.commands w) + 1) with (S (length (World.commands w))) by lia.
    rewrite <- !app_assoc. by destruct w.
Qed.

(** X17. [handleDrop] with an active session and at least one path sends
    one upload command per path, in order, each for the name of the file
    in the current directory, whether or not the uploads before it
    failed; every failure is shown in an alert. Then the status line reads
    "Upload complete", also when every upload failed, and the current
    directory is loaded again. *)
Theorem handleDrop_uploads (w : World.t) (paths : list string) :
  truthy (active w) = true -> paths <> [] ->
  let cmds :=
    (fun localPath =>
       sftp_upload (active w) localPath (child (directory w) (basename localPath)))
    <$> paths in
  let w' := Ui.exec (handleDrop env (Some paths)) w in
  handleDrop env (Some paths) w = (Returned tt, w') /\
  World.commands w' = World.commands w ++ cmds /\
  World.boxes w' = World.boxes w ++ upload_errors env (length (World.commands w)) cmds /\
  World.drag_over w' = false /\
  status_text w' = "Upload complete" /\
  App.backend (World.app w') =
    App.backend (World.app w) ++ [sftp_list (active w) (directory w)].
Proof.
  intros Ha Hne cmds w'. subst w'. unfold Ui.exec, handleDrop.
  do 3 ui_step. cbn [World.app World.with_drag_over World.with_output].
  fold (active w). rewrite Ha. cbn [negb orb].
  destruct paths as [|p paths]; [done|]. cbn [length Nat.eqb default].
  set (w0 := World.with_drag_over false
               (World.with_output
                  (World.output w ++ [console_log "Handling drop with paths:"]) w)).
  destruct (uploads_run (p :: paths) w0) as (a & Hrun & Hst & _).
  rewrite (ui_bind_run _ _ w0 tt _ Hrun).
  rewrite (ui_bind_run _ _ _ tt _
             (lift_safe _ _ (setStatus_safe _ _))).
  cbn [World.app World.with_app]. rewrite Hst.
  unfold currentPath. ui_step.
  rewrite lift_safe by apply safe_loadDirectory.
  cbn [snd World.app World.with_app World.commands World.boxes World.drag_over
    World.with_boxes World.with_commands].
  split_and!; try done.
  - unfold status_text. cbn [World.app World.with_app].
    match goal with |- Document.status_text (App.document (exec (loadDirectory ?b ?p) ?s)) = _ =>
      assert (keeps (fun st => Document.status_text (App.document st)) (loadDirectory b p))
        as Hk by frame; rewrite Hk end.
    done.
  - rewrite loadDirectory_backend. unfold fetch.
    assert (App.currentSessionId
              (exec (setStatus "connected" "Upload complete") (World.app w0)) = active w)
      as -> by done.
    by rewrite Ha.
Qed.

End FileBrowser.

(** ** Paths *)

Lemma last_segment sep base e :
  free_of sep e -> fst (JS.pop (JS.split sep (base +:+ String sep e))) = Some e.
Proof.
  intros H. rewrite split_app, (split_free sep e H).
  by rewrite pop_snoc.
Qed.

Lemma lastIndexOf_free c s : free_of c s -> lastIndexOf c s = None.
Proof.
  unfold free_of, JS.chars. induction s as [|a s IH]; [done|].
  cbn. intros H. rewrite IH by (intros ?; apply H; by right).
  destruct (Ascii.eqb_spec a c) as [->|]; [|done].
  exfalso. apply H. left.
Qed.

Lemma lastIndexOf_app c a b :
  free_of c b -> lastIndexOf c (a +:+ String c b) = Some (String.length a).
Proof.
  intros H. induction a as [|x a IH]; string_simpl; cbn.
  - by rewrite lastIndexOf_free, Ascii.eqb_refl.
  - by rewrite IH.
Qed.

Lemma substring_app a b : String.substring 0 (String.length a) (a +:+ b) = a.
Proof.
  induction a as [|x a IH]; string_simpl; cbn.
  - by destruct b.
  - by rewrite IH.
Qed.

Lemma child_not_root dir name : name <> "" -> child dir name <> "/".
Proof.
  intros Hne E. unfold child in E.
  destruct (JS.endsWith "/" dir) eqn:He.
  - apply endsWith_true in He as [s' ->].
    apply (f_equal String.length) in E. rewrite !string_length_app in E.
    destruct name; [done|]. cbn in E. lia.
  - apply (f_equal String.length) in E. rewrite !string_length_app in E.
    destruct name; [done|]. cbn in E. lia.
Qed.

(** X18. From the path that [createFolder] and [handleDrop] build for the
    entry [name] of the directory [dir], [navigateUp] goes back to [dir]:
    it loads [dir] without the slash at its end, and the root when that
    is empty. *)
Theorem navigateUp_from_child (b : Bridge.t) (st : App.t) (dir name : string) :
  name <> "" -> free_of "/" name ->
  FileManager.currentPath (App.fileManager st) = child dir name ->
  navigateUp b st =
    (Returned tt, exec (loadDirectory b (or_else (JS.strip_end "/" dir) "/")) st).
Proof.
  intros Hne Hfree Hp. rewrite navigateUp_run, Hp.
  destruct (String.eqb_spec (child dir name) "/") as [E|_];
    [by apply child_not_root in E|].
  unfold child. destruct (JS.endsWith "/" dir) eqn:He.
  - apply endsWith_true in He as [s' ->].
    rewrite strip_end_one, string_app_assoc.
    destruct (parent_of_child s' name Hne Hfree) as [E1 _].
    change (String "/" "" +:+ name) with ("/" +:+ name). by rewrite E1.
  - rewrite (endsWith_false _ _ He).
    destruct (parent_of_child dir name Hne Hfree) as [E1 _]. by rewrite E1.
Qed.

Lemma navigateUp_from_child_witness :
  navigateUp Sample.bridge
    (exec (loadDirectory Sample.bridge (child "/" "docs")) (Sample.only_a Sample.bridge)) =
  (Returned tt,
   exec (loadDirectory Sample.bridge (or_else (JS.strip_end "/" "/") "/"))
     (exec (loadDirectory Sample.bridge (child "/" "docs")) (Sample.only_a Sample.bridge))).
Proof.
  apply (navigateUp_from_child _ _ "/" "docs").
  - discriminate.
  - by apply (bool_decide_unpack _).
  - reflexivity.
Defined.

(** ** The permissions dialog on the page *)

Lemma encode_octal c : JS.padStart 3 "0" (JS.toString 8 (mode_of c)) = encode c.
Proof.
  destruct c as [[[r1 w1 x1] [r2 w2 x2]] [r3 w3 x3]].
  by destruct r1, w1, x1, r2, w2, x2, r3, w3, x3; vm_compute.
Qed.

Lemma mode_of_checks_below_512 :
  Forall (fun k => mode_of (checks_of k) = k) (Z.of_nat <$> seq 0 512).
Proof. apply (bool_decide_unpack _). vm_compute. exact I. Qed.

Lemma mode_of_checks k : (0 <= k < 512)%Z -> mode_of (checks_of k) = k.
Proof.
  intros H. pose proof mode_of_checks_below_512 as F.
  rewrite list.Forall_forall in F. by apply F, below_512.
Qed.

(** The text that [showPermissionsModal] writes for the mode [k]. *)
Lemma octal_field k :
  (0 <= k < 512)%Z ->
  let s := JS.padStart 3 "0" (JS.toString 8 k) in
  JS.parseInt s 8 = Some k /\
  decode s = Some (checks_of k) /\
  preview_text s = Some (symbolic k).
Proof.
  intros H s. subst s.
  destruct (encode_correct (checks_of k)) as (Hm & _ & _ & Hp & _ & Hd).
  rewrite <- encode_octal in Hm, Hp, Hd. rewrite mode_of_checks in Hm, Hp, Hd by done.
  done.
Qed.

Lemma shown_mode_range p : (0 <= shown_mode p < 512)%Z.
Proof.
  unfold shown_mode. destruct p as [m|]; [|lia].
  destruct (Z.eqb m 0); [lia|]. apply Z.mod_pos_bound. lia.
Qed.

Lemma checks_to_octal_run d :
  JS.parseInt (PermissionsModal.octal (syncPermChecksToOctal d)) 8 =
    Some (mode_of (checks d)) /\
  checks (syncPermChecksToOctal d) = checks d.
Proof.
  rewrite syncPermChecksToOctal_encode, updatePermPreview_text.
  destruct (encode_correct (checks d)) as (Hm & _ & _ & Hp & _ & _).
  rewrite Hp. by cbn.
Qed.

Section Actions.
Variable env : Env.t.

(** X19. [handleDrop] without an active session, or without a path, sends
    nothing and shows nothing: it takes the drop mark off the list and
    writes two lines to the console. *)
Theorem handleDrop_ignored (w : World.t) (paths : option (list string)) :
  truthy (active w) = false \/ default [] paths = [] ->
  handleDrop env paths w =
    (Returned tt,
     World.with_output
       (World.output w ++
        [console_log "Handling drop with paths:";
         console_warning "Drop ignored: validation failed"])
       (World.with_drag_over false w)).
Proof.
  intros H. unfold handleDrop. do 3 ui_step.
  cbn [World.app World.with_drag_over World.with_output].
  fold (active w).
  assert (negb (truthy (active w)) ||
          match paths with
          | Some paths => Nat.eqb (length paths) 0
          | None => true
          end = true) as ->.
  { destruct H as [->|H]; [done|]. rewrite orb_true_r || (apply orb_true_iff; right).
    all: destruct paths as [[|]|]; by cbn in *. }
  unfold print, Ui.modify. cbn. by rewrite <- app_assoc.
Qed.

(** X20. The [rename] action on the entry [old] of the directory [dir]
    asks for a name, with [old] as the proposal. Without a name, or with
    [old] again, nothing is sent. Otherwise the backend is asked to move
    the entry to the new name in the same directory [dir]; then the
    current directory is loaded again, or, when the backend fails, an
    alert shows the error. *)
Theorem rename_in_place (w : World.t) (dir old : string) (isDir : bool) :
  free_of "/" old ->
  let file := {| Selected.path := dir +:+ "/" +:+ old; Selected.isDir := isDir |} in
  let asked := World.with_boxes (World.boxes w ++ [Prompt "New name:" (Some old)]) w in
  let answer := Env.prompt_reply env (length (World.boxes w)) in
  if truthy answer && negb (bool_decide (answer = Some old)) then
    let cmd :=
      sftp_rename (active w) (dir +:+ "/" +:+ old) (dir +:+ "/" +:+ template answer) in
    let sent := World.with_commands (World.commands w ++ [cmd]) asked in
    match Env.command_reply env (length (World.commands w)) cmd with
    | Resolved _ => handleContextAction env "rename" file w = (Returned tt, reloaded env sent)
    | Rejected e =>
      handleContextAction env "rename" file w =
        (Returned tt,
         World.with_boxes (World.boxes sent ++ [Alert ("Rename error: " +:+ e)]) sent)
    end
  else handleContextAction env "rename" file w = (Returned tt, asked).
Proof.
  intros Hfree. cbn zeta. unfold handleContextAction.
  cbn [String.eqb Ascii.eqb Bool.eqb Selected.path].
  change (dir +:+ "/" +:+ old) with (dir +:+ String "/" old).
  rewrite (last_segment "/" dir old Hfree), (lastIndexOf_app "/" dir old Hfree).
  cbn [substring_to]. rewrite substring_app.
  ui_step.
  destruct (truthy (Env.prompt_reply env (length (World.boxes w))) &&
            negb (bool_decide (Env.prompt_reply env (length (World.boxes w)) = Some old)));
    [|done].
  unfold Ui.try_catch, Ui.bind, currentPath, currentSessionId, Ui.gets, send, alert, Ui.modify.
  cbn [World.commands World.with_boxes World.app World.boxes].
  unfold active.
  destruct (Env.command_reply env _ _) as [a|e]; [|done].
  by rewrite lift_safe by apply safe_loadDirectory.
Qed.

(** X21. The [delete] action asks for a confirmation that names the last
    part of the path. Without the confirmation nothing is sent. With it
    the backend is asked to delete the entry, as a directory or as a file
    as the entry says; then the current directory is loaded again, or,
    when the backend fails, an alert shows the error. *)
Theorem delete_after_confirm (w : World.t) (file : Selected.t) :
  let question := "Delete " +:+ template (last_part (Selected.path file)) +:+ "?" in
  let asked := World.with_boxes (World.boxes w ++ [Confirm question]) w in
  if Env.confirm_reply env (length (World.boxes w)) then
    let cmd := sftp_delete (active w) (Selected.path file) (Selected.isDir file) in
    let sent := World.with_commands (World.commands w ++ [cmd]) asked in
    match Env.command_reply env (length (World.commands w)) cmd with
    | Resolved _ => handleContextAction env "delete" file w = (Returned tt, reloaded env sent)
    | Rejected e =>
      handleContextAction env "delete" file w =
        (Returned tt,
         World.with_boxes (World.boxes sent ++ [Alert ("Delete error: " +:+ e)]) sent)
    end
  else handleContextAction env "delete" file w = (Returned tt, asked).
Proof.
  cbn zeta. unfold handleContextAction, last_part.
  cbn [String.eqb Ascii.eqb Bool.eqb].
  ui_step.
  destruct (Env.confirm_reply env (length (World.boxes w))); [|done].
  unfold Ui.try_catch, Ui.bind, currentPath, currentSessionId, Ui.gets, send, alert, Ui.modify.
  cbn [World.commands World.with_boxes World.app World.boxes].
  unfold active.
  destruct (Env.command_reply env _ _) as [a|e]; [|done].
  by rewrite lift_safe by apply safe_loadDirectory.
Qed.

(** The dialog after [showPermissionsModal]. *)
Lemma showPermissionsModal_run (w : World.t) (file : Selected.t) :
  let k := shown_mode (permissions_of env w (Selected.path file)) in
  let d := World.permissions_modal w in
  showPermissionsModal env file w =
    (Returned tt,
     World.with_permissions_modal
       {| PermissionsModal.display := "flex";
          PermissionsModal.file_name := Selected.path file;
          PermissionsModal.octal := JS.padStart 3 "0" (JS.toString 8 k);
          PermissionsModal.owner := (checks_of k).1.1;
          PermissionsModal.group := (checks_of k).1.2;
          PermissionsModal.other := (checks_of k).2;
          PermissionsModal.preview := symbolic k |}
       (World.with_permFile (Some file) w)).
Proof.
  cbn zeta. unfold showPermissionsModal. do 3 ui_step.
  cbn [World.app World.with_permFile World.with_permissions_modal].
  set (mode := match _ ≫= Env.permissions env with Some m => _ | None => _ end).
  assert (JS.and (Some mode) 511 =
          shown_mode (permissions_of env w (Selected.path file))) as ->.
  { rewrite and_511. unfold mode, shown_mode, permissions_of.
    destruct (_ ≫= Env.permissions env) as [m|]; [|done].
    by destruct (Z.eqb m 0). }
  destruct (octal_field _ (shown_mode_range (permissions_of env w (Selected.path file))))
    as (_ & Hd & Hp).
  cbn zeta in Hd, Hp.
  unfold Ui.bind, on_permissions_modal, Ui.modify.
  cbn [World.permissions_modal World.with_permissions_modal World.with_permFile].
  rewrite syncOctalToPermChecks_decode, Hd.
  destruct (checks_of _) as [[o g] t].
  rewrite !updatePermPreview_text, Hp.
  by destruct w.
Qed.

(** X22. [showPermissionsModal] opens the dialog on the nine low bits of
    the mode that the listing has for the file, and on 644 when the
    listing has no such entry, no mode or the mode 0: the boxes and the
    preview show these bits. When the dialog is applied as it is, the
    backend is asked to set exactly this mode on the file. *)
Theorem permissions_round_trip (w : World.t) (file : Selected.t) :
  let k := shown_mode (permissions_of env w (Selected.path file)) in
  let w1 := Ui.exec (showPermissionsModal env file) w in
  let d := World.permissions_modal w1 in
  showPermissionsModal env file w = (Returned tt, w1) /\
  PermissionsModal.display d = "flex" /\
  PermissionsModal.file_name d = Selected.path file /\
  checks d = checks_of k /\
  PermissionsModal.preview d = symbolic k /\
  World.commands w1 = World.commands w /\
  World.commands (Ui.exec (applyPermissions env) w1) =
    World.commands w ++ [sftp_chmod (active w) (Selected.path file) k].
Proof.
  intros k w1 d.
  pose proof (showPermissionsModal_run w file) as Hrun. cbn zeta in Hrun. fold k in Hrun.
  assert (w1 = snd (showPermissionsModal env file w)) as E1 by done.
  rewrite Hrun in E1 |- *. cbn [snd] in E1. clearbody w1. subst w1. subst d.
  cbn [World.permissions_modal World.with_permissions_modal
    PermissionsModal.display PermissionsModal.file_name PermissionsModal.preview
    World.commands World.with_permFile].
  split_and!; try done.
  unfold Ui.exec, applyPermissions. ui_step.
    cbn [World.permFile World.with_permissions_modal World.with_permFile].
    ui_step.
    cbn [World.permissions_modal World.with_permissions_modal PermissionsModal.octal].
    destruct (octal_field k (shown_mode_range _)) as (-> & _ & _).
    unfold on_permissions_modal, Ui.try_catch, Ui.bind, currentPath, currentSessionId,
      Ui.gets, send, alert, Ui.modify.
    cbn [World.commands World.with_boxes World.app World.boxes World.with_permissions_modal
      World.with_permFile].
    unfold active.
    destruct (Env.command_reply env _ _) as [a|e]; [|done].
    by rewrite lift_safe by apply safe_loadDirectory.
Qed.

(** X23. After [syncPermChecksToOctal], [applyPermissions] asks the
    backend to set the mode whose bits are the ticked boxes on the file
    of the dialog. On success the dialog is closed and the current
    directory is loaded again; on failure an alert shows the error and
    the dialog stays as it is. *)
Theorem ticked_boxes_applied (w : World.t) (file : Selected.t) :
  World.permFile w = Some file ->
  let d := syncPermChecksToOctal (World.permissions_modal w) in
  let w1 := World.with_permissions_modal d w in
  let cmd := sftp_chmod (active w) (Selected.path file) (mode_of (checks d)) in
  let sent := World.with_commands (World.commands w ++ [cmd]) w1 in
  match Env.command_reply env (length (World.commands w)) cmd with
  | Resolved _ =>
    applyPermissions env w1 =
      (Returned tt,
       reloaded env
         (World.with_permissions_modal (PermissionsModal.with_display "none" d) sent))
  | Rejected e =>
    applyPermissions env w1 =
      (Returned tt,
       World.with_boxes
         (World.boxes sent ++ [Alert ("Failed to set permissions: " +:+ e)]) sent)
  end.
Proof.
  intros Hf. cbn zeta.
  destruct (checks_to_octal_run (World.permissions_modal w)) as (Hm & Hc).
  rewrite Hc.
  unfold applyPermissions. ui_step.
  cbn [World.permFile World.with_permissions_modal]. rewrite Hf.
  ui_step.
  cbn [World.permissions_modal World.with_permissions_modal]. rewrite Hm.
  unfold on_permissions_modal, Ui.try_catch, Ui.bind, currentPath, currentSessionId,
    Ui.gets, send, alert, Ui.modify.
  cbn [World.commands World.with_boxes World.app World.boxes World.with_permissions_modal
    World.permissions_modal].
  unfold active.
  destruct (Env.command_reply env _ _) as [a|e]; [|done].
  by rewrite lift_safe by apply safe_loadDirectory.
Qed.

(** The page after [editFile], with an active session. *)
Lemma editFile_run (w : World.t) (remotePath : string) (editorOverride : option string) :
  truthy (active w) = true ->
  let n := length (World.commands w) in
  let filename := template (last_part remotePath) in
  let edit := sftp_edit_file (active w) remotePath (editor_for editorOverride w) in
  let opened :=
    World.with_app
      (exec (setStatus "connected" ("Opening " +:+ filename +:+ "...")) (World.app w)) w in
  let failed e w :=
    World.with_app (exec (setStatus "connected" "Connected") (World.app w))
      (World.with_boxes (World.boxes w ++ [Alert ("Failed to open file: " +:+ e)]) w) in
  editFile env remotePath editorOverride w =
    (Returned tt,
     match Env.command_reply env n edit with
     | Rejected e => failed e (World.with_commands (World.commands w ++ [edit]) opened)
     | Resolved localPath =>
       let watch := sftp_watch_file (active w) localPath remotePath in
       let sent := World.with_commands (World.commands w ++ [edit; watch]) opened in
       match Env.command_reply env (S n) watch with
       | Rejected e => failed e sent
       | Resolved _ =>
         World.with_app
           (exec (setStatus "connected"
                    ("Editing " +:+ filename +:+ " — changes will auto-sync"))
              (World.app sent)) sent
       end
     end).
Proof.
  intros Ha. cbn zeta. unfold editFile, editor_for, last_part. ui_step.
  fold (active w). rewrite Ha. cbn [negb].
  rewrite (ui_bind_run _ _ w tt _ (lift_safe _ _ (setStatus_safe _ _))).
  unfold Ui.try_catch.
  set (w0 := World.with_app _ w).
  assert ((if truthy editorOverride
           then Ui.ret (EditorPath (default "" editorOverride))
           else Ui.gets (getEditorConfig None None)) w0 =
          (Returned (if truthy editorOverride
                     then EditorPath (default "" editorOverride)
                     else getEditorConfig None None w), w0)) as Hed.
  { by destruct (truthy editorOverride). }
  rewrite (ui_bind_run _ _ w0 _ _ Hed). ui_step.
  change (App.currentSessionId (World.app w0)) with (active w).
  set (edit := sftp_edit_file _ _ _).
  unfold Ui.bind at 1. unfold send at 1.
  change (World.commands w0) with (World.commands w).
  destruct (Env.command_reply env (length (World.commands w)) edit) as [localPath|e].
  - ui_step. cbn [World.app World.with_commands].
    change (App.currentSessionId (World.app w0)) with (active w).
    set (watch := sftp_watch_file _ _ _).
    unfold Ui.bind, send. cbn [World.commands World.with_commands].
    rewrite length_app. cbn [length].
    replace (length (World.commands w) + 1) with (S (length (World.commands w))) by lia.
    destruct (Env.command_reply env (S (length (World.commands w))) watch) as [a|e].
    + rewrite lift_safe by apply setStatus_safe. cbn. by rewrite <- app_assoc.
    + unfold alert, Ui.modify. rewrite lift_safe by apply setStatus_safe.
      cbn. by rewrite <- app_assoc.
  - unfold Ui.bind, alert, Ui.modify. rewrite lift_safe by apply setStatus_safe.
    by cbn.
Qed.

(** X24. [editFile] without an active session does nothing. With one it
    asks the backend to open the file, in the editor given or else in the
    configured one; only when that succeeds it asks the backend to watch
    the local copy that the first answer names. When both succeed no box
    is shown; when either fails nothing more is sent, an alert shows the
    error and the status line goes back to "Connected". *)
Theorem editFile_outcome (w : World.t) (remotePath : string)
    (editorOverride : option string) :
  let w' := Ui.exec (editFile env remotePath editorOverride) w in
  let n := length (World.commands w) in
  let edit := sftp_edit_file (active w) remotePath (editor_for editorOverride w) in
  let failed e :=
    World.boxes w' = World.boxes w ++ [Alert ("Failed to open file: " +:+ e)] /\
    status_text w' = "Connected" in
  editFile env remotePath editorOverride w = (Returned tt, w') /\
  if truthy (active w) then
    match Env.command_reply env n edit with
    | Rejected e => World.commands w' = World.commands w ++ [edit] /\ failed e
    | Resolved localPath =>
      let watch := sftp_watch_file (active w) localPath remotePath in
      World.commands w' = World.commands w ++ [edit; watch] /\
      match Env.command_reply env (S n) watch with
      | Rejected e => failed e
      | Resolved _ =>
        World.boxes w' = World.boxes w /\
        status_text w' =
          "Editing " +:+ template (last_part remotePath) +:+ " — changes will auto-sync"
      end
    end
  else w' = w.
Proof.
  cbn zeta. destruct (truthy (active w)) eqn:Ha.
  - unfold Ui.exec. pose proof (editFile_run w remotePath editorOverride Ha) as Hrun.
    cbn zeta in Hrun. rewrite Hrun. cbn [snd]. split; [done|].
    destruct (Env.command_reply env (length (World.commands w)) _) as [localPath|e];
      [|done].
    split; [by destruct (Env.command_reply env (S (length (World.commands w))) _)|].
    by destruct (Env.command_reply env (S (length (World.commands w))) _).
  - unfold Ui.exec, editFile. ui_step. fold (active w). by rewrite Ha.
Qed.

(** X25. [saveSettings] with the preset [custom] and a path that is not
    empty closes the settings dialog and stores both, whatever was stored
    before: [getEditorConfig] then gives this path, and [editFile]
    without an editor of its own asks the backend to open the file with
    it. *)
Theorem saved_editor_used (w : World.t) (remotePath : string) :
  SettingsModal.editor_preset (World.settings_modal w) = "custom" ->
  SettingsModal.custom_editor_path (World.settings_modal w) <> "" ->
  truthy (active w) = true ->
  let path := SettingsModal.custom_editor_path (World.settings_modal w) in
  let w1 := Ui.exec saveSettings w in
  saveSettings w = (Returned tt, w1) /\
  SettingsModal.display (World.settings_modal w1) = "none" /\
  World.localStorage w1 !! "editorPreset" = Some "custom" /\
  World.localStorage w1 !! "editorCustomPath" = Some path /\
  getEditorConfig None None w1 = EditorPath path /\
  exists rest,
    World.commands (Ui.exec (editFile env remotePath None) w1) =
    World.commands w ++ sftp_edit_file (active w) remotePath (EditorPath path) :: rest.
Proof.
  intros Hp Hc Ha path w1.
  assert (World.localStorage w1 !! "editorPreset" = Some "custom") as E1.
  { unfold w1, Ui.exec, saveSettings, Ui.bind, Ui.gets, Ui.modify, hideSettingsModal.
    cbn. rewrite Hp. rewrite lookup_insert_ne by done. by rewrite lookup_insert_eq. }
  assert (World.localStorage w1 !! "editorCustomPath" = Some path) as E2.
  { unfold w1, Ui.exec, saveSettings, Ui.bind, Ui.gets, Ui.modify, hideSettingsModal.
    cbn. by rewrite lookup_insert_eq. }
  assert (getEditorConfig None None w1 = EditorPath path) as E3.
  { unfold getEditorConfig, setting. rewrite E1, E2. cbn [truthy default].
    destruct (String.eqb_spec path "") as [E|_]; [done|]. cbn [negb].
    cbn. by destruct (String.eqb_spec path ""). }
  split_and!; try done.
  assert (active w1 = active w) as Ea by done.
  assert (World.commands w1 = World.commands w) as Ec by done.
  pose proof (editFile_run w1 remotePath None) as H. cbn zeta in H.
  rewrite Ea, Ec in H. specialize (H Ha).
  unfold editor_for in H. cbn [truthy] in H. rewrite E3 in H.
  unfold Ui.exec. rewrite H. cbn [snd].
  destruct (Env.command_reply env _ _) as [localPath|e]; [|by eexists].
  destruct (Env.command_reply env _ _); by eexists.
Qed.

Lemma Scoped_nothing w file w' :
  World.commands w' = World.commands w -> Scoped w file (Returned tt, w').
Proof. intros H. exists w', []. by rewrite app_nil_r. Qed.

Lemma Scoped_one w file w' cmd :
  World.commands w' = World.commands w ++ [cmd] ->
  about (active w) (Selected.path file) cmd ->
  Scoped w file (Returned tt, w').
Proof. intros H Ha. exists w', [cmd]. split_and!; [done..|]. by apply Forall_singleton. Qed.

Lemma editFile_Scoped w file editorOverride :
  Scoped w file (Ui.detached (editFile env (Selected.path file) editorOverride) w).
Proof.
  unfold Ui.detached. destruct (truthy (active w)) eqn:Ha.
  - pose proof (editFile_run w (Selected.path file) editorOverride Ha) as Hrun.
    cbn zeta in Hrun.
    destruct (Env.command_reply env (length (World.commands w)) _) as [localPath|e].
    + exists (snd (editFile env (Selected.path file) editorOverride w)),
        [sftp_edit_file (active w) (Selected.path file) (editor_for editorOverride w);
         sftp_watch_file (active w) localPath (Selected.path file)].
      rewrite Hrun. cbn [snd]. split_and!; [done| |by repeat constructor].
      by destruct (Env.command_reply env (S (length (World.commands w))) _).
    + rewrite Hrun. by eapply Scoped_one.
  - unfold editFile. ui_step. fold (active w). rewrite Ha. by apply Scoped_nothing.
Qed.

(** X26. [handleContextAction] returns normally for every action and
    every answer of the backend and of the user, and every command that
    it sends, or that the [editFile] it starts sends, is one about the
    entry it was called for, for the session that was active: a
    download, rename, delete, edit or watch of that path. *)
Theorem handleContextAction_scope (w : World.t) (action : string) (file : Selected.t) :
  let w' := Ui.exec (handleContextAction env action file) w in
  handleContextAction env action file w = (Returned tt, w') /\
  exists cmds,
    World.commands w' = World.commands w ++ cmds /\
    Forall (about (active w) (Selected.path file)) cmds.
Proof.
  cbn zeta. unfold Ui.exec.
  enough (Scoped w file (handleContextAction env action file w)) as (w' & cmds & -> & H).
  { split; [done|]. by exists cmds. }
  unfold handleContextAction.
  destruct (String.eqb action "download").
  { unfold Ui.try_catch, Ui.bind at 1, save.
    destruct (Env.save_reply env (length (World.boxes w))) as [localPath|e].
    - destruct (truthy localPath); [|by apply Scoped_nothing].
      rewrite (ui_bind_run _ _ _ tt _ (lift_safe _ _ (setStatus_safe _ _))).
      ui_step. unfold Ui.bind, send.
      cbn [World.app World.with_app World.commands World.with_boxes].
      destruct (Env.command_reply env _ _) as [a|e].
      + rewrite lift_safe by apply setStatus_safe. by eapply Scoped_one.
      + by eapply Scoped_one.
    - by apply Scoped_nothing. }
  destruct (String.eqb action "open-with"); [apply editFile_Scoped|].
  destruct (String.eqb action "rename").
  { ui_step. destruct (_ && _); [|by apply Scoped_nothing].
    unfold Ui.try_catch. ui_step. unfold Ui.bind at 1, send.
    cbn [World.app World.commands World.with_boxes].
    destruct (Env.command_reply env _ _) as [a|e]; [|by eapply Scoped_one].
    ui_step. rewrite lift_safe by apply safe_loadDirectory. by eapply Scoped_one. }
  destruct (String.eqb action "delete").
  { ui_step. destruct (Env.confirm_reply env _); [|by apply Scoped_nothing].
    unfold Ui.try_catch. ui_step. unfold Ui.bind at 1, send.
    cbn [World.app World.commands World.with_boxes].
    destruct (Env.command_reply env _ _) as [a|e]; [|by eapply Scoped_one].
    ui_step. rewrite lift_safe by apply safe_loadDirectory. by eapply Scoped_one. }
  destruct (String.eqb action "permissions").
  { pose proof (showPermissionsModal_run w file) as Hrun. cbn zeta in Hrun.
    rewrite Hrun. by apply Scoped_nothing. }
  destruct (String.eqb action "edit"); [|by apply Scoped_nothing].
  destruct (Selected.isDir file); [by apply Scoped_nothing|apply editFile_Scoped].
Qed.

End Actions.

Lemma handleDrop_uploads_witness :
  let w := Demo.world in
  let paths := ["C:\Users\me\report.pdf"; "/tmp/build/app.tar.gz"] in
  let cmds :=
    (fun localPath =>
       sftp_upload (active w) localPath (child (directory w) (basename localPath)))
    <$> paths in
  let w' := Ui.exec (handleDrop Demo.env (Some paths)) w in
  handleDrop Demo.env (Some paths) w = (Returned tt, w') /\
  World.commands w' = World.commands w ++ cmds /\
  World.boxes w' =
    World.boxes w ++ upload_errors Demo.env (length (World.commands w)) cmds /\
  World.drag_over w' = false /\
  status_text w' = "Upload complete" /\
  App.backend (World.app w') =
    App.backend (World.app w) ++ [sftp_list (active w) (directory w)].
Proof.
  apply (handleDrop_uploads Demo.env Demo.world
           ["C:\Users\me\report.pdf"; "/tmp/build/app.tar.gz"]).
  - reflexivity.
  - discriminate.
Defined.

Lemma handleDrop_ignored_witness :
  handleDrop Demo.env (Some []) Demo.world =
    (Returned tt,
     World.with_output
       (World.output Demo.world ++
        [console_log "Handling drop with paths:";
         console_warning "Drop ignored: validation failed"])
       (World.with_drag_over false Demo.world)).
Proof.
  apply (handleDrop_ignored Demo.env Demo.world (Some [])).
  right. reflexivity.
Defined.

Lemma rename_in_place_witness :
  let w := Demo.world in
  let file := {| Selected.path := "/home/A" +:+ "/" +:+ "notes.txt"; Selected.isDir := false |} in
  let asked :=
    World.with_boxes (World.boxes w ++ [Prompt "New name:" (Some "notes.txt")]) w in
  let answer := Env.prompt_reply Demo.env (length (World.boxes w)) in
  if truthy answer && negb (bool_decide (answer = Some "notes.txt")) then
    let cmd :=
      sftp_rename (active w) ("/home/A" +:+ "/" +:+ "notes.txt")
        ("/home/A" +:+ "/" +:+ template answer) in
    let sent := World.with_commands (World.commands w ++ [cmd]) asked in
    match Env.command_reply Demo.env (length (World.commands w)) cmd with
    | Resolved _ =>
      handleContextAction Demo.env "rename" file w = (Returned tt, reloaded Demo.env sent)
    | Rejected e =>
      handleContextAction Demo.env "rename" file w =
        (Returned tt,
         World.with_boxes (World.boxes sent ++ [Alert ("Rename error: " +:+ e)]) sent)
    end
  else handleContextAction Demo.env "rename" file w = (Returned tt, asked).
Proof.
  apply (rename_in_place Demo.env Demo.world "/home/A" "notes.txt" false).
  by apply (bool_decide_unpack _).
Defined.

Lemma ticked_boxes_applied_witness :
  let w := World.with_permFile (Some Demo.notes) Demo.world in
  let d := syncPermChecksToOctal (World.permissions_modal w) in
  let w1 := World.with_permissions_modal d w in
  let cmd := sftp_chmod (active w) (Selected.path Demo.notes) (mode_of (checks d)) in
  let sent := World.with_commands (World.commands w ++ [cmd]) w1 in
  match Env.command_reply Demo.env (length (World.commands w)) cmd with
  | Resolved _ =>
    applyPermissions Demo.env w1 =
      (Returned tt,
       reloaded Demo.env
         (World.with_permissions_modal (PermissionsModal.with_display "none" d) sent))
  | Rejected e =>
    applyPermissions Demo.env w1 =
      (Returned tt,
       World.with_boxes
         (World.boxes sent ++ [Alert ("Failed to set permissions: " +:+ e)]) sent)
  end.
Proof.
  apply (ticked_boxes_applied Demo.env
           (World.with_permFile (Some Demo.notes) Demo.world) Demo.notes).
  reflexivity.
Defined.

Lemma saved_editor_used_witness :
  let w := Demo.world in
  let w1 := Ui.exec saveSettings w in
  saveSettings w = (Returned tt, w1) /\
  SettingsModal.display (World.settings_modal w1) = "none" /\
  World.localStorage w1 !! "editorPreset" = Some "custom" /\
  World.localStorage w1 !! "editorCustomPath" = Some "/usr/bin/gvim" /\
  getEditorConfig None None w1 = EditorPath "/usr/bin/gvim" /\
  exists rest,
    World.commands (Ui.exec (editFile Demo.env "/home/A/notes.txt" None) w1) =
    World.commands w ++
    sftp_edit_file (active w) "/home/A/notes.txt" (EditorPath "/usr/bin/gvim") :: rest.
Proof.
  apply (saved_editor_used Demo.env Demo.world "/home/A/notes.txt").
  - reflexivity.
  - discriminate.
  - reflexivity.
Defined.
